(** * k6 load-test scripts: CRUD workload, Kafka producers and consumer

    Shallow embedding of the scripts of the repository

      - [src/consumer.js]      (improved Kafka consumer)        -> [Module Consumer]
      - [src/unnamed/part_000] (original Kafka producer)        -> [Module ProducerV1]
      - [src/unnamed/part_001] (improved Kafka producer)        -> [Module Producer]
      - [src/perf_crud_tb.js]  (PostgreSQL CRUD round trip)     -> [Module Crud]

    Embedded are the configuration constants, the custom metrics, the
    [default] functions and the [setup] and [teardown] hooks of the scripts,
    the older consumer in the second half of [src/consumer.js]
    ([Module ConsumerV1]) and the table that [setup] of the CRUD script
    creates.  [process.env] of the original scripts is taken to be the
    environment, like [__ENV].

    The scripts run inside the k6 runtime.  What the runtime and the backends
    answer (the result of [reader.consume], of [writer.produce], of a SQL
    statement, the wall clock, the faker values) is external to the scripts and
    enters every function below as an explicit input.  Metric objects
    ([Counter], [Trend], [Rate]) emit samples; the sink is the chronological
    list of emitted samples and every aggregate is computed from it. *)

From Stdlib Require Import ZArith NArith List String Ascii Bool Lia.
From Stdlib Require Import DecimalString DecimalPos DecimalN Permutation.
From stdpp Require Import base gmap strings list.
Import ListNotations.

Local Open Scope Z_scope.

(* ===================================================================== *)
(** * JavaScript values and control flow *)
(* ===================================================================== *)

Module JS.

(** Completion of a statement list: it ran to its end, it executed
    [return], or it threw.  The thrown value is represented by the string
    that [error.toString()] and template interpolation make of it. *)
Inductive completion (A : Type) : Type :=
| Normal (a : A)
| Return
| Throw (e : string).
Arguments Normal {A} a.
Arguments Return {A}.
Arguments Throw {A} e.

(** Statements over a mutable world [W]. *)
Definition M (W A : Type) : Type := W -> completion A * W.

Definition ret {W A} (a : A) : M W A := fun w => (Normal a, w).

Definition bind {W A B} (m : M W A) (k : A -> M W B) : M W B :=
  fun w =>
    match m w with
    | (Normal a, w') => k a w'
    | (Return, w') => (Return, w')
    | (Throw e, w') => (Throw e, w')
    end.

Definition throw {W A} (e : string) : M W A := fun w => (Throw e, w).

(** [return;] *)
Definition return_ {W A} : M W A := fun w => (Return, w).

(** [try { body } catch (error) { handler }] *)
Definition try_catch {W A} (body : M W A) (handler : string -> M W A) : M W A :=
  fun w =>
    match body w with
    | (Throw e, w') => handler e w'
    | r => r
    end.

Definition gets {W A} (f : W -> A) : M W A := fun w => (Normal (f w), w).
Definition modify {W} (f : W -> W) : M W unit := fun w => (Normal tt, f w).

(** [if (c) { m }] without [else]. *)
Definition when {W} (c : bool) (m : M W unit) : M W unit :=
  if c then m else ret tt.

(** A call that the environment makes fail with [Some e] or succeed. *)
Definition external {W} (outcome : option string) : M W unit :=
  match outcome with
  | Some e => throw e
  | None => ret tt
  end.

(** ** Numbers

    The numbers that are not counts come from [parseInt]: NaN, an
    integer-valued double or an infinity.  [None] is NaN and [Some z] is the
    double of value [z]; the two infinities are [Some infinity] and
    [Some (- infinity)], one binade above the largest double.  A negative
    zero is [Some 0]: the scripts only compare and print their numbers, and
    [-0] compares and prints like [0]. *)
Definition number := option Z.

Definition infinity : Z := 2 ^ 1024.

(** The Number value of a non-negative integer: the nearest double, a tie
    going to the even significand, and [infinity] from 2^1024 - 2^970 on. *)
Definition nearest_double (z : Z) : Z :=
  if z <? 2 ^ 53 then z
  else
    let e := Z.log2 z - 52 in
    let q := Z.shiftr z e in
    let r := z - Z.shiftl q e in
    let half := 2 ^ (e - 1) in
    let q' := if (half <? r) || ((r =? half) && Z.odd q) then q + 1 else q in
    Z.min (Z.shiftl q' e) infinity.

Definition to_double (z : Z) : Z :=
  if z <? 0 then - nearest_double (- z) else nearest_double z.

(** ** Numbers as text: [String(n)] and template interpolation *)
Definition show_N (n : N) : string := NilZero.string_of_uint (N.to_uint n).
Definition show_Z (z : Z) : string := NilZero.string_of_int (Z.to_int z).

(** The number of decimal digits of a positive integer. *)
Definition digits (z : Z) : Z := Z.of_nat (String.length (show_Z z)).

(** The integers [s] of [k] digits for which [s * 10^(n-k)] has the Number
    value [x]; they are among the two neighbours of [x / 10^(n-k)]. *)
Definition candidates (x k n : Z) : list Z :=
  let p := 10 ^ (n - k) in
  List.filter
    (fun s => (10 ^ (k - 1) <=? s) && (s <? 10 ^ k) && (nearest_double (s * p) =? x))
    [x / p; x / p + 1].

(** Of two candidates the one nearest to [x], the even one when both are as
    near. *)
Definition closest (x p : Z) (l : list Z) : option Z :=
  match l with
  | [] => None
  | [s] => Some s
  | s :: s' :: _ =>
      let d := Z.abs (s * p - x) in
      let d' := Z.abs (s' * p - x) in
      if d <? d' then Some s
      else if d' <? d then Some s'
      else if Z.even s then Some s else Some s'
  end.

(** The shortest digits of the double [x]: the least [k], searched from [k]
    up, with a candidate; the result is [(s, k, n)].  Seventeen digits
    identify every double. *)
Fixpoint shortest (fuel : nat) (x k : Z) : option (Z * Z * Z) :=
  match fuel with
  | O => None
  | S fuel' =>
      let n := digits x in
      match closest x (10 ^ (n - k)) (candidates x k n) with
      | Some s => Some (s, k, n)
      | None =>
          match closest x (10 ^ (n + 1 - k)) (candidates x k (n + 1)) with
          | Some s => Some (s, k, n + 1)
          | None => shortest fuel' x (k + 1)
          end
      end
  end.

Fixpoint zeros (n : nat) : string :=
  match n with
  | O => EmptyString
  | S n' => String "0" (zeros n')
  end.

(** [Number::toString] of a non-negative integer-valued double: all its
    digits up to 2^53, beyond that the shortest digits that identify it,
    followed by zeros below 10^21 and in exponent notation from 10^21 on. *)
Definition show_double (x : Z) : string :=
  if x <? 2 ^ 53 then show_Z x
  else if infinity <=? x then "Infinity"
  else
    match shortest 20 x 1 with
    | Some (s, k, n) =>
        if n <=? 21 then show_Z s +:+ zeros (Z.to_nat (n - k))
        else
          match show_Z s with
          | String d EmptyString => String d ("e+" +:+ show_Z (n - 1))
          | String d rest => String d ("." +:+ rest +:+ "e+" +:+ show_Z (n - 1))
          | EmptyString => EmptyString
          end
    | None => show_Z x
    end.

Definition show_number (n : number) : string :=
  match n with
  | Some z => if z <? 0 then "-" +:+ show_double (- z) else show_double z
  | None => "NaN"
  end.

(** [a >= b] for a count [a]; every comparison with [NaN] is false. *)
Definition ge_number (a : Z) (b : number) : bool :=
  match b with
  | Some z => z <=? a
  | None => false
  end.

(** ** [String.prototype.includes] *)
Fixpoint includes (needle hay : string) : bool :=
  if String.prefix needle hay then true
  else match hay with
       | EmptyString => false
       | String _ rest => includes needle rest
       end.

(** ** [String.prototype.split] with a one-character separator *)
Fixpoint split (sep : ascii) (s : string) : list string :=
  match s with
  | EmptyString => [EmptyString]
  | String c rest =>
      if Ascii.eqb c sep then EmptyString :: split sep rest
      else match split sep rest with
           | h :: t => String c h :: t
           | [] => [String c EmptyString]
           end
  end.

(** ** [parseInt(s)] without a radix argument

    Texts are sequences of bytes, as the environment holds them: a character
    beyond ASCII is its UTF-8 encoding. *)

(** The white space and line terminators that [parseInt] skips: U+0009 to
    U+000D and U+0020 in one byte, U+00A0 in two, U+1680, U+2000 to U+200A,
    U+2028, U+2029, U+202F, U+205F, U+3000 and U+FEFF in three. *)
Definition is_space (c : ascii) : bool :=
  let n := N_of_ascii c in
  ((9 <=? n) && (n <=? 13) || (n =? 32))%N.

Definition is_space2 (a b : ascii) : bool :=
  ((N_of_ascii a =? 194) && (N_of_ascii b =? 160))%N.

Definition is_space3 (a b c : ascii) : bool :=
  let x := N_of_ascii a in
  let y := N_of_ascii b in
  let z := N_of_ascii c in
  ((x =? 225) && (y =? 154) && (z =? 128)
   || (x =? 226) && (y =? 128)
      && ((128 <=? z) && (z <=? 138) || (z =? 168) || (z =? 169) || (z =? 175))
   || (x =? 226) && (y =? 129) && (z =? 159)
   || (x =? 227) && (y =? 128) && (z =? 128)
   || (x =? 239) && (y =? 187) && (z =? 191))%N.

Fixpoint skip_spaces (s : string) : string :=
  match s with
  | String a rest =>
      if is_space a then skip_spaces rest
      else
        match rest with
        | String b rest2 =>
            if is_space2 a b then skip_spaces rest2
            else
              match rest2 with
              | String c rest3 => if is_space3 a b c then skip_spaces rest3 else s
              | EmptyString => s
              end
        | EmptyString => s
        end
  | EmptyString => s
  end.

Definition digit_value (c : ascii) : option Z :=
  let n := Z.of_N (N_of_ascii c) in
  if (48 <=? n) && (n <=? 57) then Some (n - 48)
  else if (97 <=? n) && (n <=? 122) then Some (n - 87)
  else if (65 <=? n) && (n <=? 90) then Some (n - 55)
  else None.

(** Longest prefix of digits of the radix, most significant first;
    accumulates the value and whether a digit was seen. *)
Fixpoint parse_digits (radix : Z) (s : string) (acc : Z) (seen : bool) : option Z :=
  match s with
  | String c rest =>
      match digit_value c with
      | Some d =>
          if d <? radix then parse_digits radix rest (acc * radix + d) true
          else if seen then Some acc else None
      | None => if seen then Some acc else None
      end
  | EmptyString => if seen then Some acc else None
  end.

Definition strip_hex_prefix (s : string) : option string :=
  match s with
  | String "0" (String "x" rest) => Some rest
  | String "0" (String "X" rest) => Some rest
  | _ => None
  end.

(** The integer that the digits denote. *)
Definition parse_unsigned (s : string) : option Z :=
  match strip_hex_prefix s with
  | Some rest => parse_digits 16 rest 0 false
  | None => parse_digits 10 s 0 false
  end.

(** The Number value of the signed integer read, NaN without a digit.
    (Beyond twenty significant digits ECMAScript lets an implementation
    read the further digits as zeros; the digits are read exactly here.) *)
Definition parseInt (s : string) : number :=
  option_map to_double
    match skip_spaces s with
    | String "-" rest => option_map Z.opp (parse_unsigned rest)
    | String "+" rest => parse_unsigned rest
    | t => parse_unsigned t
    end.

(** ** [__ENV.NAME || fallback]: the empty string is falsy. *)
Definition env_or (env : gmap string string) (name fallback : string) : string :=
  match env !! name with
  | Some EmptyString => fallback
  | Some v => v
  | None => fallback
  end.

End JS.

Declare Scope js_scope.
Delimit Scope js_scope with js.
Notation "'let*' x ':=' m 'in' k" := (JS.bind m (fun x => k))
  (at level 10, x name, m at level 100, k at level 200) : js_scope.
Notation "m >> k" := (JS.bind m (fun _ => k))
  (at level 90, right associativity) : js_scope.

(* ===================================================================== *)
(** * Metric sink *)
(* ===================================================================== *)

Module Metrics.

Inductive metric_type := Counter | Trend | Rate.

(** [new Counter('name')], [new Trend('name')], [new Rate('name')] *)
Record metric := { m_name : string; m_type : metric_type }.

(** One emitted sample.  A [Rate] sample is 1 for a true observation and 0
    for a false one; the tag carries the check name for samples emitted by
    [check]. *)
Record sample := { s_metric : metric; s_value : Z; s_tag : string }.

Definition sink := list sample.

Definition type_eqb (a b : metric_type) : bool :=
  match a, b with
  | Counter, Counter | Trend, Trend | Rate, Rate => true
  | _, _ => false
  end.

Definition metric_eqb (a b : metric) : bool :=
  String.eqb (m_name a) (m_name b) && type_eqb (m_type a) (m_type b).

(** The values recorded for a metric, oldest first. *)
Definition series (m : metric) (k : sink) : list Z :=
  map s_value (List.filter (fun s => metric_eqb (s_metric s) m) k).

Definition total (l : list Z) : Z := fold_right Z.add 0 l.

(** Counter aggregate: the sum of the series. *)
Definition count (m : metric) (k : sink) : Z := total (series m k).

(** The samples [new] only add non-negative values to Counter metrics. *)
Definition counters_grow (new : sink) : Prop :=
  Forall (fun s => m_type (s_metric s) = Counter -> 0 <= s_value s) new.

Definition of_bool (b : bool) : Z := if b then 1 else 0.

(** The built-in metric fed by [check]. *)
Definition checks : metric := {| m_name := "checks"; m_type := Rate |}.

End Metrics.

(* ===================================================================== *)
(** * The k6 script API: metrics, [check], [sleep], [console] *)
(* ===================================================================== *)

Module K6.
Import Metrics.

Inductive level := Log | Warn | Error.

(** What every script shares with the runtime: the sample stream, the
    console and the time spent in [sleep] (seconds). *)
Record state := { sink : Metrics.sink; console : list (level * string); slept : Z }.

Definition init : state := {| sink := []; console := []; slept := 0 |}.

(** A script world contains the runtime state. *)
Class Host (W : Type) := { host : W -> state; with_host : state -> W -> W }.

Definition emit (m : metric) (v : Z) (tag : string) (s : state) : state :=
  {| sink := sink s ++ [{| s_metric := m; s_value := v; s_tag := tag |}];
     console := console s; slept := slept s |}.

Definition print (l : level) (text : string) (s : state) : state :=
  {| sink := sink s; console := console s ++ [(l, text)]; slept := slept s |}.

Definition pause (seconds : Z) (s : state) : state :=
  {| sink := sink s; console := console s; slept := slept s + seconds |}.

Section Api.
Context {W : Type} {H : Host W}.

Definition lift (f : state -> state) : JS.M W unit :=
  JS.modify (fun w => with_host (f (host w)) w).

(** [metric.add(v)] *)
Definition add (m : metric) (v : Z) : JS.M W unit := lift (emit m v "").

(** [rate.add(b)] *)
Definition add_bool (m : metric) (b : bool) : JS.M W unit := add m (of_bool b).

Definition console_log (text : string) : JS.M W unit := lift (print Log text).
Definition console_warn (text : string) : JS.M W unit := lift (print Warn text).
Definition console_error (text : string) : JS.M W unit := lift (print Error text).

Definition sleep (seconds : Z) : JS.M W unit := lift (pause seconds).

(** [check(val, {name: predicate, ...})]: the predicates have been applied
    to the value; one [checks] sample per predicate, in order, and the
    result is true when all of them hold. *)
Fixpoint check (results : list (string * bool)) : JS.M W bool :=
  match results with
  | [] => JS.ret true
  | (name, ok) :: rest =>
      JS.bind (lift (emit checks (of_bool ok) name)) (fun _ =>
      JS.bind (check rest) (fun oks => JS.ret (ok && oks)))
  end.

(** The iteration loop of one virtual user under an iteration budget.
    [inputs] holds what the environment answers in the successive
    iterations; the loop ends when the budget or the inputs (the time
    budget) are exhausted.  An exception that escapes the script body is
    logged by the runtime and the loop goes on.  The result is the final
    world and the number of invocations made. *)
Fixpoint vu_loop {I : Type} (body : N -> I -> JS.M W unit)
    (iter : N) (budget : nat) (inputs : list I) (w : W) : W * nat :=
  match budget, inputs with
  | S budget', i :: inputs' =>
      let w' :=
        match body iter i w with
        | (JS.Throw e, w1) => with_host (print Error e (host w1)) w1
        | (_, w1) => w1
        end in
      let (wf, n) := vu_loop body (N.succ iter) budget' inputs' w' in
      (wf, S n)
  | _, _ => (w, O)
  end.
End Api.

End K6.

(* ===================================================================== *)
(** * src/consumer.js: the improved consumer *)
(* ===================================================================== *)

Module Consumer.
Import Metrics K6.
Local Open Scope js_scope.

(** ** Configuration *)
Record config := {
  KAFKA_BROKERS : list string;
  KAFKA_TOPIC : string;
  KAFKA_GROUP_ID : string;
  CONSUME_TIMEOUT_MS : JS.number;
  MAX_EMPTY_READS : JS.number
}.

Definition configure (ENV : gmap string string) : config := {|
  KAFKA_BROKERS := JS.split "," (JS.env_or ENV "KAFKA_BROKERS" "localhost:9092");
  KAFKA_TOPIC := JS.env_or ENV "KAFKA_TOPIC" "my-test-topic";
  KAFKA_GROUP_ID := JS.env_or ENV "KAFKA_GROUP_ID" "k6-consumer-group";
  CONSUME_TIMEOUT_MS := JS.parseInt (JS.env_or ENV "CONSUME_TIMEOUT_MS" "2000");
  MAX_EMPTY_READS := JS.parseInt (JS.env_or ENV "MAX_EMPTY_READS" "5")
|}.

(** ** Load profile: [per-vu-iterations] *)
Record scenario := { vus : nat; iterations : nat }.
Definition options : scenario := {| vus := 3; iterations := 100 |}.

(** ** Custom metrics *)
Definition consumedMessages := {| m_name := "kafka_messages_read_count"; m_type := Counter |}.
Definition consumedBytes := {| m_name := "kafka_consumed_bytes"; m_type := Counter |}.
Definition emptyReads := {| m_name := "kafka_empty_reads"; m_type := Counter |}.
Definition readerErrors := {| m_name := "kafka_reader_error_count"; m_type := Counter |}.
Definition timeoutErrors := {| m_name := "kafka_timeout_errors"; m_type := Counter |}.

(** ** Data *)

(** A consumed message; key and value are byte arrays or absent. *)
Record message := { key : option string; value : option string }.

(** The arguments of [new Reader({...})]. *)
Record Reader := {
  brokers : list string;
  groupTopics : list string;
  groupID : string;
  queueCapacity : Z
}.

(** The world of one virtual user: the runtime state, the module-level
    [reader] and the local [emptyReadCount] of the running invocation. *)
Record world := {
  k6 : K6.state;
  reader : option Reader;
  emptyReadCount : Z
}.

#[export] Instance world_host : Host world := {|
  host := k6;
  with_host s w := {| k6 := s; reader := reader w; emptyReadCount := emptyReadCount w |}
|}.

Definition set_reader (r : option Reader) : JS.M world unit :=
  JS.modify (fun w => {| k6 := k6 w; reader := r; emptyReadCount := emptyReadCount w |}).
Definition set_emptyReadCount (n : Z) : JS.M world unit :=
  JS.modify (fun w => {| k6 := k6 w; reader := reader w; emptyReadCount := n |}).

(** ** What the environment answers during one invocation *)
Inductive consume_result :=
| Consumed (msgs : option (list message))   (* an array, or null/undefined *)
| ConsumeThrows (e : string).

Record input := {
  new_Reader : option string;      (* [new Reader] throws [e] *)
  consume : consume_result;        (* [reader.consume] *)
  close : option string            (* [reader.close] throws [e] *)
}.

Definition reader_consume (i : input) : JS.M world (option (list message)) :=
  match consume i with
  | Consumed msgs => JS.ret msgs
  | ConsumeThrows e => JS.throw e
  end.

(** [(x && x.length) || 0] *)
Definition len (x : option string) : Z :=
  match x with
  | Some s => Z.of_nat (String.length s)
  | None => 0
  end.

(** [messages.reduce((acc, msg) => acc + keyLength + valueLength, 0)] *)
Definition byte_total (msgs : list message) : Z :=
  fold_left (fun acc msg => acc + len (key msg) + len (value msg)) msgs 0.

(** [msgs && msgs.length > 0] *)
Definition non_empty (msgs : option (list message)) : bool :=
  match msgs with
  | Some (_ :: _) => true
  | _ => false
  end.

Definition messages_of (msgs : option (list message)) : list message :=
  match msgs with
  | Some l => l
  | None => []
  end.

(** ** [export default function ()] *)
Definition default (cfg : config) (VU : N) (i : input) : JS.M world unit :=
  let* r := JS.gets reader in
  (match r with
   | None =>
       JS.try_catch
         (JS.external (new_Reader i) >>
          set_reader (Some {| brokers := KAFKA_BROKERS cfg;
                              groupTopics := [KAFKA_TOPIC cfg];
                              groupID := KAFKA_GROUP_ID cfg;
                              queueCapacity := 1000 |}))
         (fun error =>
            console_error ("VU " +:+ JS.show_N VU +:+ " failed to create reader: " +:+ error) >>
            add readerErrors 1 >>
            JS.return_)
   | Some _ => JS.ret tt
   end) >>
  set_emptyReadCount 0 >>
  JS.try_catch
    (let* messages := reader_consume i in
     let* checksSuccess :=
       check [("messages were consumed", non_empty messages);
              ("consume operation succeeded", bool_decide (is_Some messages))] in
     JS.when (negb checksSuccess) (add readerErrors 1) >>
     if non_empty messages then
       set_emptyReadCount 0 >>
       add consumedMessages (Z.of_nat (length (messages_of messages))) >>
       add consumedBytes (byte_total (messages_of messages))
     else
       (let* n := JS.gets emptyReadCount in set_emptyReadCount (n + 1)) >>
       add emptyReads 1 >>
       (let* n := JS.gets emptyReadCount in
        JS.when (JS.ge_number n (MAX_EMPTY_READS cfg))
          (console_log ("VU " +:+ JS.show_N VU +:+ " reached max empty reads ("
                        +:+ JS.show_number (MAX_EMPTY_READS cfg) +:+ "), stopping") >>
           JS.return_)) >>
       sleep 1)
    (fun error =>
       let errorMsg := error in
       (if JS.includes "context deadline exceeded" errorMsg then
          add timeoutErrors 1 >>
          add emptyReads 1 >>
          (let* n := JS.gets emptyReadCount in set_emptyReadCount (n + 1)) >>
          (let* n := JS.gets emptyReadCount in
           JS.when (JS.ge_number n (MAX_EMPTY_READS cfg))
             (console_log ("VU " +:+ JS.show_N VU
                           +:+ " reached max empty reads due to timeouts, stopping") >>
              JS.return_))
        else
          console_error ("VU " +:+ JS.show_N VU +:+ " consume error: " +:+ error) >>
          add readerErrors 1 >>
          let* r := JS.gets reader in
          match r with
          | Some _ =>
              JS.try_catch (JS.external (close i))
                (fun closeError => console_error ("Error closing reader: " +:+ closeError)) >>
              set_reader None
          | None => JS.ret tt
          end) >>
       sleep 1).

(** One virtual user of the scenario: at most [iterations options]
    invocations of [default]. *)
Definition run_vu (cfg : config) (VU : N) (inputs : list input) (w : world) : world * nat :=
  vu_loop (fun _ => default cfg VU) 0%N (iterations options) inputs w.

Definition fresh : world := {| k6 := K6.init; reader := None; emptyReadCount := 0 |}.

End Consumer.

(* ===================================================================== *)
(** * Kafka client calls made by the producers *)
(* ===================================================================== *)

Module Kafka.

(** A message handed to [writer.produce]; keys and values are strings or
    serialized byte arrays, both sequences of bytes here. *)
Record message := { key : string; value : string }.

Inductive call :=
| CreateTopic (topic : string) (numPartitions replicationFactor : Z)
| Produce (messages : list message)
| WriterClose
| DeleteTopic (topic : string)
| ConnectionClose.

(** The calls made so far, oldest first, each with [None] when it returned
    and [Some e] when it threw [e]. *)
Definition trace := list (call * option string).

Definition attempted (c : call) (t : trace) : Prop := exists o, In (c, o) t.

(** Every message handed to [writer.produce], in order. *)
Fixpoint handed (t : trace) : list message :=
  match t with
  | (Produce msgs, _) :: rest => msgs ++ handed rest
  | _ :: rest => handed rest
  | [] => []
  end.

(** [schemaRegistry.serialize({data, schemaType: SCHEMA_TYPE_STRING})]: the
    bytes of the string. *)
Definition serialize (data : string) : string := data.

(** The world of a producer script: runtime state and client trace. *)
Record world := { k6 : K6.state; calls : trace }.

#[export] Instance world_host : K6.Host world := {|
  K6.host := k6;
  K6.with_host s w := {| k6 := s; calls := calls w |}
|}.

(** Perform a client call whose outcome the environment decides. *)
Definition perform (c : call) (outcome : option string) : JS.M world unit :=
  JS.bind
    (JS.modify (fun w => {| k6 := k6 w; calls := calls w ++ [(c, outcome)] |}))
    (fun _ => JS.external outcome).

Definition fresh : world := {| k6 := K6.init; calls := [] |}.

(** [messages.reduce((acc, msg) => acc + msg.key.length + msg.value.length, 0)] *)
Definition byte_total (msgs : list message) : Z :=
  fold_left
    (fun acc msg => acc + Z.of_nat (String.length (key msg))
                        + Z.of_nat (String.length (value msg)))
    msgs 0.

(** One invocation of a run: the [__VU] and [__ITER] the runtime gives it
    and what the environment answers. *)
Definition run {I : Type} (body : N -> N -> I -> JS.M world unit)
    (schedule : list (N * N * I)) (w : world) : world :=
  fold_left
    (fun w '(VU, ITER, i) =>
       match body VU ITER i w with
       | (JS.Throw e, w1) => K6.with_host (K6.print K6.Error e (K6.host w1)) w1
       | (_, w1) => w1
       end)
    schedule w.

End Kafka.

(* ===================================================================== *)
(** * src/unnamed/part_000: the original producer *)
(* ===================================================================== *)

Module ProducerV1.
Import Metrics K6 Kafka.
Local Open Scope js_scope.

Record config := { KAFKA_BROKERS : list string; KAFKA_TOPIC : string }.

Definition configure (ENV : gmap string string) : config := {|
  KAFKA_BROKERS := JS.split "," (JS.env_or ENV "KAFKA_BROKERS" "localhost:9092");
  KAFKA_TOPIC := JS.env_or ENV "KAFKA_TOPIC" "my-test-topic"
|}.

Definition MESSAGES_PER_ITERATION : nat := 10.
Definition MESSAGE_BODY_SIZE : nat := 100.

Definition producedBytes := {| m_name := "kafka_produced_bytes"; m_type := Counter |}.

(** The object given to [JSON.stringify]. *)
Record payload := {
  vu : N; iter : N; sequence : N; timestamp : string; data : string
}.

Record input := {
  now : N -> string;                   (* [new Date().toISOString()], per message *)
  randomString : N -> nat -> string;   (* [randomString(size)], per message *)
  produce : option string              (* [writer.produce] throws [e] *)
}.

Section Script.
Variable JSON_stringify : payload -> string.

Definition messageKey (VU ITER i : N) : string :=
  "key-" +:+ JS.show_N VU +:+ "-" +:+ JS.show_N ITER +:+ "-" +:+ JS.show_N i.

(** The body of the [for] loop at counter [i]. *)
Definition build (VU ITER : N) (inp : input) (i : N) : message :=
  let messageValue := JSON_stringify
    {| vu := VU; iter := ITER; sequence := i;
       timestamp := now inp i; data := randomString inp i MESSAGE_BODY_SIZE |} in
  {| key := messageKey VU ITER i; value := messageValue |}.

(** [for (let i = 0; i < MESSAGES_PER_ITERATION; i++) messages.push(...)] *)
Definition batch (VU ITER : N) (inp : input) : list message :=
  map (fun i => build VU ITER inp (N.of_nat i)) (seq 0 MESSAGES_PER_ITERATION).

(** [export default function ()] *)
Definition default (VU ITER : N) (inp : input) : JS.M world unit :=
  let messages := batch VU ITER inp in
  JS.try_catch
    (perform (Produce messages) (produce inp) >>
     let bytes := byte_total messages in
     add producedBytes bytes)
    (fun error =>
       console_error ("VU " +:+ JS.show_N VU +:+ " failed to produce messages: " +:+ error)) >>
  sleep 1.

(** [export function teardown(data)] *)
Definition teardown (cfg : config) (close : option string) : JS.M world unit :=
  perform WriterClose close >>
  console_log ("Test finished. Produced messages to topic: " +:+ KAFKA_TOPIC cfg).
End Script.

End ProducerV1.

(* ===================================================================== *)
(** * src/unnamed/part_001: the improved producer *)
(* ===================================================================== *)

Module Producer.
Import Metrics K6 Kafka.
Local Open Scope js_scope.

Record config := {
  KAFKA_BROKERS : list string;
  KAFKA_TOPIC : string;
  DELETE_TOPIC_ON_TEARDOWN : bool
}.

(** [__ENV.DELETE_TOPIC_ON_TEARDOWN === 'true'] *)
Definition configure (ENV : gmap string string) : config := {|
  KAFKA_BROKERS := JS.split "," (JS.env_or ENV "KAFKA_BROKERS" "localhost:9094");
  KAFKA_TOPIC := JS.env_or ENV "KAFKA_TOPIC" "my-test-topic";
  DELETE_TOPIC_ON_TEARDOWN :=
    match ENV !! "DELETE_TOPIC_ON_TEARDOWN" with
    | Some v => String.eqb v "true"
    | None => false
    end
|}.

Definition MESSAGES_PER_ITERATION : nat := 10.

Definition producedBytes := {| m_name := "kafka_produced_bytes"; m_type := Counter |}.
Definition producedMessages := {| m_name := "kafka_produced_messages"; m_type := Counter |}.

Record user := { name : string; email : string; address : string }.

(** The object given to [JSON.stringify]. *)
Record payload := {
  vu : N; iter : N; sequence : N; timestamp : string; user_ : user
}.

Record input := {
  now : N -> string;          (* [new Date().toISOString()], per message *)
  faker : N -> user;          (* the three faker values, per message *)
  produce : option string     (* [writer.produce] throws [e] *)
}.

(** [export function setup()] *)
Definition setup (cfg : config) (createTopic : option string) : JS.M world unit :=
  JS.try_catch
    (perform (CreateTopic (KAFKA_TOPIC cfg) 3 1) createTopic >>
     console_log ("Topic '" +:+ KAFKA_TOPIC cfg +:+ "' created or already exists") >>
     sleep 2)
    (fun error =>
       console_warn ("Topic creation warning (may already exist): " +:+ error)).

Section Script.
Variable JSON_stringify : payload -> string.

Definition messageKey (VU ITER i : N) : string :=
  JS.show_N VU +:+ "-" +:+ JS.show_N ITER +:+ "-" +:+ JS.show_N i.

(** The body of the [for] loop at counter [i]. *)
Definition build (VU ITER : N) (inp : input) (i : N) : message :=
  let messageValue := JSON_stringify
    {| vu := VU; iter := ITER; sequence := i;
       timestamp := now inp i; user_ := faker inp i |} in
  {| key := serialize (messageKey VU ITER i); value := serialize messageValue |}.

(** [for (let i = 0; i < MESSAGES_PER_ITERATION; i++) messages.push(...)] *)
Definition batch (VU ITER : N) (inp : input) : list message :=
  map (fun i => build VU ITER inp (N.of_nat i)) (seq 0 MESSAGES_PER_ITERATION).

(** [export default function ()] *)
Definition default (VU ITER : N) (inp : input) : JS.M world unit :=
  let messages := batch VU ITER inp in
  JS.try_catch
    (perform (Produce messages) (produce inp) >>
     let bytes := byte_total messages in
     add producedBytes bytes >>
     add producedMessages (Z.of_nat (length messages)) >>
     let* _ := check [("messages produced successfully", true)] in
     JS.ret tt)
    (fun error =>
       console_error ("VU " +:+ JS.show_N VU +:+ " failed to produce messages: " +:+ error) >>
       let* _ := check [("messages produced successfully", false)] in
       JS.ret tt) >>
  sleep 1.
End Script.

(** What the environment answers during [teardown]. *)
Record teardown_input := {
  writer_close : option string;
  deleteTopic : option string;
  connection_close : option string
}.

(** [export function teardown(data)] *)
Definition teardown (cfg : config) (i : teardown_input) : JS.M world unit :=
  JS.try_catch
    (perform WriterClose (writer_close i) >>
     (if DELETE_TOPIC_ON_TEARDOWN cfg then
        perform (DeleteTopic (KAFKA_TOPIC cfg)) (deleteTopic i) >>
        console_log ("Topic '" +:+ KAFKA_TOPIC cfg +:+ "' deleted.")
      else
        console_log ("Topic '" +:+ KAFKA_TOPIC cfg +:+ "' preserved for consumers.")) >>
     perform ConnectionClose (connection_close i) >>
     console_log "Producer test finished.")
    (fun error => console_error ("Teardown error: " +:+ error)).

End Producer.

(* ===================================================================== *)
(** * src/perf_crud_tb.js: the CRUD round trip *)
(* ===================================================================== *)

Module Crud.
Import Metrics K6.
Local Open Scope js_scope.

(** ** Custom metrics *)
Definition insertTrend := {| m_name := "db_insert_duration"; m_type := Trend |}.
Definition updateTrend := {| m_name := "db_update_duration"; m_type := Trend |}.
Definition selectTrend := {| m_name := "db_select_duration"; m_type := Trend |}.
Definition deleteTrend := {| m_name := "db_delete_duration"; m_type := Trend |}.
Definition rowsInserted := {| m_name := "rows_inserted"; m_type := Counter |}.
Definition rowsUpdated := {| m_name := "rows_updated"; m_type := Counter |}.
Definition rowsSelected := {| m_name := "rows_selected"; m_type := Counter |}.
Definition rowsDeleted := {| m_name := "rows_deleted"; m_type := Counter |}.
Definition insertOk := {| m_name := "insert_success"; m_type := Rate |}.
Definition updateOk := {| m_name := "update_success"; m_type := Rate |}.
Definition selectOk := {| m_name := "select_success"; m_type := Rate |}.
Definition deleteOk := {| m_name := "delete_success"; m_type := Rate |}.

(** ** Scenario *)
Record stage := { duration : Z; target : nat }.
Definition options : list stage :=
  [ {| duration := 5; target := 10 |};
    {| duration := 20; target := 50 |};
    {| duration := 5; target := 0 |} ].

(** The largest number of virtual users the stages ask for. *)
Definition peak : nat := fold_right Nat.max O (map target options).

(** ** Statements and rows *)

(** A row of [tb.perf_test]. *)
Record row := {
  id : Z; first_name : string; last_name : string; email : string; updated_at : Z
}.

(** The four statements of [default], with their parameters. *)
Inductive statement :=
| INSERT (first last mail : string)
| UPDATE (last : string) (key : Z)
| SELECT (key : Z)
| DELETE (key : Z).

(** What the driver returns for a statement: the [id] column of the rows of
    [INSERT ... RETURNING id], [res.rowsAffected()] of an UPDATE or DELETE,
    the rows of a SELECT. *)
Definition reply (s : statement) : Type :=
  match s with
  | INSERT _ _ _ => list Z
  | UPDATE _ _ => nat
  | SELECT _ => list row
  | DELETE _ => nat
  end.

(** The answer of the driver: the call throws ([inl]) or returns. *)
Definition answer (A : Type) : Type := string + A.

Record person := { firstName : string; lastName : string; email_ : string }.

(** [rows.length > 0 ? rows[0].id : null], then [if (id)]: the id when it is
    truthy. *)
Definition truthy_id (rows : list Z) : option Z :=
  match rows with
  | i :: _ => if i =? 0 then None else Some i
  | [] => None
  end.

(** ** The script

    The script is written once, over the driver it calls: [db_call s] is
    [db.query] or [db.exec] on the statement [s].  The faker values and the
    times [Date.now() - t0] measured around the statements are given. *)
Section Script.
Context {W : Type} {H : Host W}.
Variable db_call : forall s : statement, JS.M W (reply s).

(** INSERT block, up to and including the first two lines of the [if (id)]
    branch or the whole [else] branch; the result is the id on which the
    other blocks run. *)
Definition insert_block (p : person) (dt : Z) : JS.M W (option Z) :=
  let* rows := db_call (INSERT (firstName p) (lastName p) (email_ p)) in
  add insertTrend dt >>
  match truthy_id rows with
  | Some i =>
      add rowsInserted 1 >>
      add_bool insertOk true >>
      JS.ret (Some i)
  | None =>
      add_bool insertOk false >>
      console_error "Failed to insert record" >>
      JS.ret None
  end.

Definition update_block (last : string) (i : Z) (dt : Z) : JS.M W unit :=
  let* rowsAffected := db_call (UPDATE last i) in
  add updateTrend dt >>
  add rowsUpdated (Z.of_nat rowsAffected) >>
  add_bool updateOk (Nat.eqb rowsAffected 1).

Definition select_block (i : Z) (dt : Z) : JS.M W unit :=
  let* rows := db_call (SELECT i) in
  add selectTrend dt >>
  add rowsSelected (Z.of_nat (length rows)) >>
  add_bool selectOk (Nat.eqb (length rows) 1).

Definition delete_block (i : Z) (dt : Z) : JS.M W unit :=
  let* rowsAffected := db_call (DELETE i) in
  add deleteTrend dt >>
  add rowsDeleted (Z.of_nat rowsAffected) >>
  add_bool deleteOk (Nat.eqb rowsAffected 1) >>
  let* _ := check [("crud_round_ok", Nat.eqb rowsAffected 1)] in
  JS.ret tt.

(** The body of [export default function ()]: the four blocks in order. *)
Definition iteration (p : person) (last : string) (t1 t2 t3 t4 : Z) : JS.M W unit :=
  let* i := insert_block p t1 in
  match i with
  | Some i =>
      update_block last i t2 >>
      select_block i t3 >>
      delete_block i t4
  | None => JS.ret tt
  end.
End Script.

(** ** One invocation, the answers of the driver given *)

(** The world of the script: runtime state and the statements sent. *)
Record world := { k6 : K6.state; sent : list statement }.

#[export] Instance world_host : Host world := {|
  host := k6;
  with_host s w := {| k6 := s; sent := sent w |}
|}.

Definition fresh : world := {| k6 := K6.init; sent := [] |}.

(** Send the statement, get the answer. *)
Definition call {A} (s : statement) (a : answer A) : JS.M world A :=
  JS.modify (fun w => {| k6 := k6 w; sent := sent w ++ [s] |}) >>
  match a with
  | inl e => JS.throw e
  | inr r => JS.ret r
  end.

(** What the environment answers during one invocation. *)
Record input := {
  fake : person;                (* the three faker values of [person] *)
  fake_lastName : string;       (* the second [faker.person.lastName()] *)
  t_insert : Z; t_update : Z; t_select : Z; t_delete : Z;
  inserted : answer (list Z);   (* the [id] column of the returned rows *)
  updated : answer nat;         (* [res.rowsAffected()] *)
  selected : answer (list row);
  deleted : answer nat
}.

(** The driver that answers as the input says. *)
Definition answered (inp : input) (s : statement) : JS.M world (reply s) :=
  match s as s' return JS.M world (reply s') with
  | INSERT first last mail => call (INSERT first last mail) (inserted inp)
  | UPDATE last i => call (UPDATE last i) (updated inp)
  | SELECT i => call (SELECT i) (selected inp)
  | DELETE i => call (DELETE i) (deleted inp)
  end.

(** [export default function ()] *)
Definition default (inp : input) : JS.M world unit :=
  iteration (answered inp) (fake inp) (fake_lastName inp)
    (t_insert inp) (t_update inp) (t_select inp) (t_delete inp).

(** ** The table behind the statements

    [setup] creates [tb.perf_test] with a SERIAL primary key, two
    VARCHAR(80) NOT NULL columns, a VARCHAR(255) NOT NULL UNIQUE column and a
    timestamp.  The database executes one statement at a time. *)
Record database := {
  perf_test : list row;       (* the rows of the table *)
  perf_test_id_seq : Z;       (* next value of the SERIAL sequence *)
  clock : Z                   (* NOW(), advanced by every statement *)
}.

(** [DROP TABLE IF EXISTS tb.perf_test; CREATE TABLE tb.perf_test (...)] *)
Definition setup (d : database) : database :=
  {| perf_test := []; perf_test_id_seq := 1; clock := clock d + 1 |}.

Definition fits (n : nat) (s : string) : bool := Nat.leb (String.length s) n.

Definition has_id (i : Z) (r : row) : bool := id r =? i.

Definition exec_insert (first last mail : string) (d : database)
    : answer (list Z) * database :=
  let i := perf_test_id_seq d in
  if negb (fits 80 first && fits 80 last && fits 255 mail) then
    (inl "value too long for type character varying",
     {| perf_test := perf_test d; perf_test_id_seq := i + 1; clock := clock d + 1 |})
  else if existsb (fun r => String.eqb (email r) mail) (perf_test d) then
    (inl "duplicate key value violates unique constraint",
     {| perf_test := perf_test d; perf_test_id_seq := i + 1; clock := clock d + 1 |})
  else
    (inr [i],
     {| perf_test := perf_test d ++
          [{| id := i; first_name := first; last_name := last; email := mail;
              updated_at := clock d |}];
        perf_test_id_seq := i + 1; clock := clock d + 1 |}).

Definition exec_update (last : string) (i : Z) (d : database)
    : answer nat * database :=
  if negb (fits 80 last) then
    (inl "value too long for type character varying",
     {| perf_test := perf_test d; perf_test_id_seq := perf_test_id_seq d;
        clock := clock d + 1 |})
  else
    (inr (length (List.filter (has_id i) (perf_test d))),
     {| perf_test :=
          map (fun r => if has_id i r
                        then {| id := id r; first_name := first_name r; last_name := last;
                                email := email r; updated_at := clock d |}
                        else r) (perf_test d);
        perf_test_id_seq := perf_test_id_seq d; clock := clock d + 1 |}).

Definition exec_select (i : Z) (d : database) : answer (list row) * database :=
  (inr (List.filter (has_id i) (perf_test d)),
   {| perf_test := perf_test d; perf_test_id_seq := perf_test_id_seq d;
      clock := clock d + 1 |}).

Definition exec_delete (i : Z) (d : database) : answer nat * database :=
  (inr (length (List.filter (has_id i) (perf_test d))),
   {| perf_test := List.filter (fun r => negb (has_id i r)) (perf_test d);
      perf_test_id_seq := perf_test_id_seq d; clock := clock d + 1 |}).

(** The database executes the statement it receives. *)
Definition execute (s : statement) (d : database) : answer (reply s) * database :=
  match s as s' return answer (reply s') * database with
  | INSERT first last mail => exec_insert first last mail d
  | UPDATE last i => exec_update last i d
  | SELECT i => exec_select i d
  | DELETE i => exec_delete i d
  end.

(** A transport fault makes a call throw: before the statement reaches the
    database, or after the database has executed it, the answer being
    lost. *)
Inductive failure :=
| Refused (e : string)
| Lost (e : string).

(** What a call delivers to the script, and the database after it. *)
Definition deliver (f : option failure) (st : statement) (d : database)
    : answer (reply st) * database :=
  match f with
  | Some (Refused e) => (inl e, d)
  | Some (Lost e) => (inl e, snd (execute st d))
  | None => execute st d
  end.

(** ** Concurrent virtual users

    Each virtual user runs [default] again and again; between two of its
    statements the other virtual users may run theirs.  A virtual user is
    idle (between invocations) or stands before the UPDATE, SELECT or
    DELETE block of an invocation that inserted [i]. *)
Inductive position :=
| Idle
| BeforeUpdate (i : Z)
| BeforeSelect (i : Z)
| BeforeDelete (i : Z).

Record system := { vus : list position; script : world; db : database }.

#[export] Instance system_host : Host system := {|
  host s := k6 (script s);
  with_host k s := {| vus := vus s; script := with_host k (script s); db := db s |}
|}.

(** The driver of the virtual users: the statement is recorded as sent and,
    unless the call is refused, executed by the database; the call returns
    the answer of the database or throws its error, or throws the transport
    error when the call is refused or the answer lost. *)
Definition against (f : option failure) (st : statement) : JS.M system (reply st) :=
  fun s =>
    (match fst (deliver f st (db s)) with
     | inl e => JS.Throw e
     | inr r => JS.Normal r
     end,
     {| vus := vus s;
        script := {| k6 := k6 (script s); sent := sent (script s) ++ [st] |};
        db := snd (deliver f st (db s)) |}).

(** What the environment supplies to the block a virtual user runs next. *)
Record turn := {
  who : nat;                    (* index of the virtual user in the pool *)
  faked : person;
  faked_lastName : string;
  took : Z;                     (* measured duration of the statement *)
  fault : option failure
}.

(** The next block of virtual user [who t], from its position, and the
    position it leaves the virtual user in. *)
Definition block (p : position) (t : turn) : JS.M system position :=
  match p with
  | Idle =>
      let* i := insert_block (against (fault t)) (faked t) (took t) in
      JS.ret (match i with
              | Some i => BeforeUpdate i
              | None => Idle
              end)
  | BeforeUpdate i =>
      update_block (against (fault t)) (faked_lastName t) i (took t) >>
      JS.ret (BeforeSelect i)
  | BeforeSelect i =>
      select_block (against (fault t)) i (took t) >>
      JS.ret (BeforeDelete i)
  | BeforeDelete i =>
      delete_block (against (fault t)) i (took t) >>
      JS.ret Idle
  end.

(** One turn.  The result is [None] when the pool has no such virtual
    user; otherwise the error of the invocation, if the block threw (the
    runtime logs it and the virtual user goes back to idle), and the next
    system.  The samples of a block are emitted together with its statement:
    emitting commutes with the turns of the other virtual users, so the
    aggregates at run end are those of any finer interleaving. *)
Definition step (t : turn) (s : system) : option (option string * system) :=
  match vus s !! who t with
  | None => None
  | Some p =>
      match block p t s with
      | (JS.Normal p', s1) =>
          Some (None, {| vus := <[who t := p']> (vus s1); script := script s1;
                         db := db s1 |})
      | (JS.Return, s1) =>
          Some (None, {| vus := <[who t := Idle]> (vus s1); script := script s1;
                         db := db s1 |})
      | (JS.Throw e, s1) =>
          Some (Some e,
                {| vus := <[who t := Idle]> (vus s1);
                   script := with_host (print Error e (host s1)) (script s1);
                   db := db s1 |})
      end
  end.

(** A run: the turns in the order in which the statements execute.  The
    result collects the errors of the invocations. *)
Fixpoint run (turns : list turn) (s : system) : option (list string * system) :=
  match turns with
  | [] => Some ([], s)
  | t :: rest =>
      match step t s with
      | None => None
      | Some (e, s') =>
          match run rest s' with
          | None => None
          | Some (es, s'') =>
              Some (match e with Some x => x :: es | None => es end, s'')
          end
      end
  end.

(** The system after [setup], with a pool of [n] virtual users. *)
Definition start (n : nat) (d : database) : system :=
  {| vus := repeat Idle n; script := fresh; db := setup d |}.

(** All virtual users are between invocations. *)
Definition quiescent (s : system) : Prop := Forall (fun p => p = Idle) (vus s).

End Crud.

(* ===================================================================== *)
(** * Notions used to state the properties *)
(* ===================================================================== *)

Module Spec.
Import Metrics.

(** The runtime state [k'] is [k] after more samples were emitted, all of
    which add non-negative values to Counter metrics. *)
Definition grows (k k' : K6.state) : Prop :=
  exists new, K6.sink k' = K6.sink k ++ new /\ counters_grow new.

(** The text has no minus sign. *)
Fixpoint dash_free (s : string) : Prop :=
  match s with
  | EmptyString => True
  | String c rest => c <> "-"%char /\ dash_free rest
  end.

(** The [(__VU, __ITER)] pairs of the invocations of a run. *)
Definition invocations {I : Type} (schedule : list (N * N * I)) : list (N * N) :=
  map fst schedule.

(** The invocations of a producer run whose [produce] call returns. *)
Definition error_free (schedule : list (N * N * Producer.input))
    : list (N * N * Producer.input) :=
  List.filter (fun x => bool_decide (Producer.produce (snd x) = None)) schedule.

(** The environment variables the scripts read. *)
Definition tunables : list string :=
  [ "KAFKA_BROKERS"; "KAFKA_TOPIC"; "KAFKA_GROUP_ID"; "CONSUME_TIMEOUT_MS";
    "MAX_EMPTY_READS"; "DELETE_TOPIC_ON_TEARDOWN" ].

(** The keys of the batch of invocation [x], built by [key]. *)
Definition batch_keys (key : N -> N -> N -> string) (n : nat) (x : N * N) : list string :=
  map (fun i => key (fst x) (snd x) (N.of_nat i)) (seq 0 n).

(** The keys of all messages handed to [writer.produce] during a run. *)
Definition keys (w : Kafka.world) : list string :=
  map Kafka.key (Kafka.handed (Kafka.calls w)).

(** The ids a virtual user has inserted and not yet deleted. *)
Definition holds (p : Crud.position) : list Z :=
  match p with
  | Crud.Idle => []
  | Crud.BeforeUpdate i | Crud.BeforeSelect i | Crud.BeforeDelete i => [i]
  end.

Definition inflight (pool : list Crud.position) : list Z := flat_map holds pool.

Definition ids (d : Crud.database) : list Z := map Crud.id (Crud.perf_test d).

(** The ids on which a DELETE was sent, in order. *)
Fixpoint deleted_keys (sent : list Crud.statement) : list Z :=
  match sent with
  | Crud.DELETE i :: rest => i :: deleted_keys rest
  | _ :: rest => deleted_keys rest
  | [] => []
  end.

(** The ids that the sequence has handed out since [setup]: 1, 2, ... up
    to the one before its next value. *)
Definition handed_out (d : Crud.database) : list Z :=
  map Z.of_nat (seq 1 (Z.to_nat (Crud.perf_test_id_seq d - 1))).

(** What holds of the concurrent CRUD system as long as no invocation
    fails: the table has one row per id, ids come from the sequence, the
    rows of the table are those of the virtual users in the middle of an
    invocation, one each; every id handed out is in flight or was the key of
    exactly one DELETE; every sample of the two row counters is 1, there is
    one [rows_deleted] sample per DELETE sent, and the inserts not yet
    matched by a delete are those in flight. *)
Record consistent (s : Crud.system) : Prop := {
  seq_positive : 1 <= Crud.perf_test_id_seq (Crud.db s);
  ids_below : forall i, In i (ids (Crud.db s)) ->
                        1 <= i < Crud.perf_test_id_seq (Crud.db s);
  ids_distinct : List.NoDup (ids (Crud.db s));
  inflight_distinct : List.NoDup (inflight (Crud.vus s));
  inflight_stored : forall i, In i (inflight (Crud.vus s)) -> In i (ids (Crud.db s));
  stored_inflight : forall i, In i (ids (Crud.db s)) -> In i (inflight (Crud.vus s));
  accounted :
    Permutation (deleted_keys (Crud.sent (Crud.script s)) ++ inflight (Crud.vus s))
                (handed_out (Crud.db s));
  inserted_ones :
    Forall (eq 1) (Metrics.series Crud.rowsInserted (K6.sink (Crud.k6 (Crud.script s))));
  deleted_ones :
    Forall (eq 1) (Metrics.series Crud.rowsDeleted (K6.sink (Crud.k6 (Crud.script s))));
  deletes_counted :
    length (Metrics.series Crud.rowsDeleted (K6.sink (Crud.k6 (Crud.script s)))) =
    length (deleted_keys (Crud.sent (Crud.script s)));
  balance :
    length (Metrics.series Crud.rowsInserted (K6.sink (Crud.k6 (Crud.script s)))) =
    (length (Metrics.series Crud.rowsDeleted (K6.sink (Crud.k6 (Crud.script s))))
     + length (inflight (Crud.vus s)))%nat
}.

End Spec.

(* ===================================================================== *)
(** * src/consumer.js: [setup] and [teardown] of the improved consumer *)
(* ===================================================================== *)

Module ConsumerHooks.
Import Metrics K6.
Local Open Scope js_scope.
#[local] Existing Instance Consumer.world_host.

(** The calls [setup] makes on its connection. *)
Inductive call :=
| Connect (address : option string)   (* [new Connection({ address })] *)
| ListTopics
| Close.

(** The world of [setup]: runtime state and the calls made so far, oldest
    first, each with [None] when it returned and [Some e] when it threw. *)
Record world := { k6 : K6.state; calls : list (call * option string) }.

#[export] Instance world_host : Host world := {|
  host := k6;
  with_host s w := {| k6 := s; calls := calls w |}
|}.

Definition fresh : world := {| k6 := K6.init; calls := [] |}.

Definition perform (c : call) (outcome : option string) : JS.M world unit :=
  JS.bind
    (JS.modify (fun w => {| k6 := k6 w; calls := calls w ++ [(c, outcome)] |}))
    (fun _ => JS.external outcome).

(** What the environment answers during [setup]; [close n] is the outcome
    of the call to [connection.close] made after [n] earlier ones. *)
Record input := {
  connect : option string;
  listTopics : string + list string;
  close : nat -> option string
}.

Definition is_close (c : call * option string) : bool :=
  match fst c with
  | Close => true
  | _ => false
  end.

Definition connection_close (i : input) : JS.M world unit :=
  fun w => perform Close (close i (length (List.filter is_close (calls w)))) w.

Definition connection_listTopics (i : input) : JS.M world (list string) :=
  match listTopics i with
  | inl e => perform ListTopics (Some e) >> JS.ret []
  | inr topics => perform ListTopics None >> JS.ret topics
  end.

(** [export function setup()]; [KAFKA_BROKERS[0]] is [undefined] for an
    empty array. *)
Definition setup (cfg : Consumer.config) (i : input) : JS.M world unit :=
  perform (Connect (head (Consumer.KAFKA_BROKERS cfg))) (connect i) >>
  JS.try_catch
    (let* topics := connection_listTopics i in
     connection_close i >>
     console_log ("Consumer setup complete. Topic '" +:+ Consumer.KAFKA_TOPIC cfg
                   +:+ "' verified."))
    (fun error =>
       connection_close i >>
       console_error ("Setup failed - topic may not exist: " +:+ error) >>
       JS.throw error).

(** [export function teardown(data)], on the world of a virtual user;
    [closing] is the outcome of [reader.close]. *)
Definition teardown (cfg : Consumer.config) (closing : option string)
    : JS.M Consumer.world unit :=
  let* r := JS.gets Consumer.reader in
  match r with
  | Some _ =>
      JS.try_catch
        (JS.external closing >>
         console_log ("Consumer test finished. Consumed from topic: "
                       +:+ Consumer.KAFKA_TOPIC cfg +:+ " with group ID: "
                       +:+ Consumer.KAFKA_GROUP_ID cfg))
        (fun error => console_error ("Teardown error: " +:+ error))
  | None => JS.ret tt
  end.

End ConsumerHooks.

(* ===================================================================== *)
(** * src/consumer.js, second half: the original consumer *)
(* ===================================================================== *)

Module ConsumerV1.
Import Metrics K6.
Local Open Scope js_scope.

Record config := {
  KAFKA_BROKERS : list string;
  KAFKA_TOPIC : string;
  KAFKA_GROUP_ID : string
}.

Definition configure (ENV : gmap string string) : config := {|
  KAFKA_BROKERS := JS.split "," (JS.env_or ENV "KAFKA_BROKERS" "localhost:9092");
  KAFKA_TOPIC := JS.env_or ENV "KAFKA_TOPIC" "my-test-topic";
  KAFKA_GROUP_ID := JS.env_or ENV "KAFKA_GROUP_ID" "k6-consumer-group"
|}.

Definition CONSUME_TIMEOUT_MS : Z := 5000.

Definition consumedMessages := {| m_name := "kafka_messages_read_count"; m_type := Counter |}.
Definition consumedBytes := {| m_name := "kafka_consumed_bytes"; m_type := Counter |}.

(** The script keeps no state of its own: its world is the runtime state. *)
#[export] Instance state_host : Host K6.state := {|
  host s := s;
  with_host s _ := s
|}.

(** What the environment answers during one invocation: [reader.consume]
    throws or returns an array. *)
Record input := { consume : string + list Consumer.message }.

Section Script.
(** The text of the TypeError that reading [.length] of [null] raises. *)
Variable TypeError : string.

(** [x.length || 0], for [x] a byte array or [null]. *)
Definition length_or_0 (x : option string) : JS.M K6.state Z :=
  match x with
  | Some s => JS.ret (Z.of_nat (String.length s))
  | None => JS.throw TypeError
  end.

(** [messages.reduce((acc, msg) => acc + (msg.key.length || 0)
                                       + (msg.value.length || 0), acc)] *)
Fixpoint reduce (msgs : list Consumer.message) (acc : Z) : JS.M K6.state Z :=
  match msgs with
  | [] => JS.ret acc
  | msg :: rest =>
      let* k := length_or_0 (Consumer.key msg) in
      let* v := length_or_0 (Consumer.value msg) in
      reduce rest (acc + k + v)
  end.

(** [export default function ()] *)
Definition default (i : input) : JS.M K6.state unit :=
  let* messages :=
    match consume i with
    | inl e => JS.throw e
    | inr msgs => JS.ret msgs
    end in
  let* _ := check [("messages were consumed", Nat.ltb 0 (length messages));
                   ("consumption did not time out", Nat.ltb 0 (length messages))] in
  if Nat.ltb 0 (length messages) then
    add consumedMessages (Z.of_nat (length messages)) >>
    let* bytes := reduce messages 0 in
    add consumedBytes bytes
  else
    sleep 1.
End Script.

(** [export function teardown(data)] *)
Definition teardown (cfg : config) (closing : option string) : JS.M K6.state unit :=
  JS.external closing >>
  console_log ("Test finished. Consumed messages from topic: " +:+ KAFKA_TOPIC cfg
                +:+ " with group ID: " +:+ KAFKA_GROUP_ID cfg).

End ConsumerV1.

(* ===================================================================== *)
(** * src/perf_crud_tb.js: one invocation against the table *)
(* ===================================================================== *)

Module CrudSolo.

(** The four turns of one invocation of virtual user [v], nothing of the
    other virtual users in between. *)
Definition invocation (v : nat) (p : Crud.person) (last : string)
    (t1 t2 t3 t4 : Z) : list Crud.turn :=
  map (fun dt => {| Crud.who := v; Crud.faked := p; Crud.faked_lastName := last;
                    Crud.took := dt; Crud.fault := None |})
      [t1; t2; t3; t4].

(** The INSERT of [p] passes the column constraints of the table. *)
Definition acceptable (p : Crud.person) (d : Crud.database) : Prop :=
  Crud.fits 80 (Crud.firstName p) = true /\
  Crud.fits 80 (Crud.lastName p) = true /\
  Crud.fits 255 (Crud.email_ p) = true /\
  existsb (fun r => String.eqb (Crud.email r) (Crud.email_ p)) (Crud.perf_test d) = false.

(** What the calls of an invocation deliver when it runs alone on the table
    [d], turn by turn: the input of [default] that the database and the
    faults of the four turns make. *)
Definition answers (t1 t2 t3 t4 : Crud.turn) (d : Crud.database) : Crud.input :=
  let p := Crud.faked t1 in
  let last := Crud.faked_lastName t2 in
  let ins := Crud.deliver (Crud.fault t1)
               (Crud.INSERT (Crud.firstName p) (Crud.lastName p) (Crud.email_ p)) d in
  let i := match fst ins with
           | inr rows => default 0 (Crud.truthy_id rows)
           | inl _ => 0
           end in
  let upd := Crud.deliver (Crud.fault t2) (Crud.UPDATE last i) (snd ins) in
  let sel := Crud.deliver (Crud.fault t3) (Crud.SELECT i) (snd upd) in
  let del := Crud.deliver (Crud.fault t4) (Crud.DELETE i) (snd sel) in
  {| Crud.fake := p; Crud.fake_lastName := last;
     Crud.t_insert := Crud.took t1; Crud.t_update := Crud.took t2;
     Crud.t_select := Crud.took t3; Crud.t_delete := Crud.took t4;
     Crud.inserted := fst ins; Crud.updated := fst upd;
     Crud.selected := fst sel; Crud.deleted := fst del |}.

End CrudSolo.

(* ===================================================================== *)
(** * Further notions *)
(* ===================================================================== *)

Module More.
Import Metrics.

(** The text [s] contains [needle]. *)
Definition contains (needle s : string) : Prop :=
  exists before after, s = before +:+ needle +:+ after.

(** The text has no comma. *)
Fixpoint comma_free (s : string) : Prop :=
  match s with
  | EmptyString => True
  | String c rest => c <> ","%char /\ comma_free rest
  end.

(** The read of an invocation delivered no message: an empty batch, [null],
    or a timeout. *)
Definition nothing_delivered (c : Consumer.consume_result) : bool :=
  match c with
  | Consumer.Consumed msgs => negb (Consumer.non_empty msgs)
  | Consumer.ConsumeThrows e => JS.includes "context deadline exceeded" e
  end.

(** The messages that the read of an invocation returns. *)
Definition got (i : Consumer.input) : list Consumer.message :=
  match Consumer.consume i with
  | Consumer.Consumed msgs => Consumer.messages_of msgs
  | Consumer.ConsumeThrows _ => []
  end.

(** The reader that an invocation creates. *)
Definition made (cfg : Consumer.config) : Consumer.Reader :=
  {| Consumer.brokers := Consumer.KAFKA_BROKERS cfg;
     Consumer.groupTopics := [Consumer.KAFKA_TOPIC cfg];
     Consumer.groupID := Consumer.KAFKA_GROUP_ID cfg;
     Consumer.queueCapacity := 1000 |}.

(** The invocation reaches [reader.consume]: the reader is there or is
    created. *)
Definition reads (i : Consumer.input) (w : Consumer.world) : Prop :=
  Consumer.reader w = None -> Consumer.new_Reader i = None.

(** The number of false observations of the check named [tag]. *)
Definition failed_checks (tag : string) (k : Metrics.sink) : Z :=
  Z.of_nat (length (List.filter
    (fun s => metric_eqb (s_metric s) checks && String.eqb (s_tag s) tag
              && (s_value s =? 0)) k)).

(** Every observation on a Rate metric is a true one. *)
Definition rates_all_true (k : Metrics.sink) : Prop :=
  Forall (fun s => m_type (s_metric s) = Rate -> s_value s = 1) k.

(** The messages of the [produce] calls that returned. *)
Fixpoint delivered (t : Kafka.trace) : list Kafka.message :=
  match t with
  | (Kafka.Produce msgs, None) :: rest => msgs ++ delivered rest
  | _ :: rest => delivered rest
  | [] => []
  end.

(** Every message of the batch has its key and its value. *)
Definition complete (msgs : list Consumer.message) : Prop :=
  Forall (fun m => Consumer.key m <> None /\ Consumer.value m <> None) msgs.

(** What holds of the concurrent CRUD system in every run, failed
    invocations included. *)
Record sound (s : Crud.system) : Prop := {
  seq_positive : 1 <= Crud.perf_test_id_seq (Crud.db s);
  ids_below : forall i, In i (Spec.ids (Crud.db s)) ->
                        1 <= i < Crud.perf_test_id_seq (Crud.db s);
  ids_distinct : List.NoDup (Spec.ids (Crud.db s));
  inflight_distinct : List.NoDup (Spec.inflight (Crud.vus s));
  inflight_stored : forall i, In i (Spec.inflight (Crud.vus s)) ->
                              In i (Spec.ids (Crud.db s));
  rates_true : rates_all_true (K6.sink (Crud.k6 (Crud.script s)))
}.

(** The two row counters account for the table. *)
Definition balanced (s : Crud.system) : Prop :=
  count Crud.rowsInserted (K6.sink (Crud.k6 (Crud.script s))) =
  count Crud.rowsDeleted (K6.sink (Crud.k6 (Crud.script s)))
  + Z.of_nat (length (Crud.perf_test (Crud.db s))).

(** The call of the turn fails after its statement was executed. *)
Definition lost (t : Crud.turn) : bool :=
  match Crud.fault t with
  | Some (Crud.Lost _) => true
  | _ => false
  end.

(** The error of the last call that failed, if any did. *)
Definition last_failure {C : Type} (calls : list (C * option string)) : option string :=
  fold_left (fun found c => match snd c with
                            | Some e => Some e
                            | None => found
                            end) calls None.

(** The last call made returned. *)
Definition last_returned {C : Type} (calls : list (C * option string)) : bool :=
  match List.last (map snd calls) None with
  | Some _ => false
  | None => true
  end.

End More.

(* ===================================================================== *)
(** * Properties *)
(* ===================================================================== *)

Import Metrics K6.

#[local] Arguments Consumer.byte_total : simpl never.
#[local] Arguments Kafka.byte_total : simpl never.
#[local] Arguments JS.show_N : simpl never.
#[local] Arguments JS.show_number : simpl never.
#[local] Arguments JS.includes : simpl never.
#[local] Arguments String.append : simpl never.

#[local] Existing Instance Consumer.world_host.
#[local] Existing Instance Kafka.world_host.
#[local] Existing Instance Crud.world_host.
#[local] Existing Instance Crud.system_host.
#[local] Existing Instance ConsumerHooks.world_host.
#[local] Existing Instance ConsumerV1.state_host.

(** Unfold the statement combinators. *)
Ltac js_run :=
  cbv [JS.bind JS.ret JS.modify JS.gets JS.try_catch JS.when JS.external JS.throw
       JS.return_ add add_bool lift console_log console_warn console_error sleep check];
  cbn [fst snd host with_host].

(** Split on every remaining test of the goal. *)
Ltac js_cases :=
  repeat (match goal with
          | |- context [if ?c then _ else _] => destruct c eqn:?
          | |- context [match ?x with _ => _ end] => destruct x eqn:?
          end; cbn in *).

(** ** The embedding on concrete inputs *)

Example parseInt_default : JS.parseInt "5" = Some 5.
Proof. reflexivity. Qed.

Example parseInt_prefix : JS.parseInt "  2000ms" = Some 2000.
Proof. reflexivity. Qed.

Example parseInt_hex : JS.parseInt "0x1F" = Some 31.
Proof. reflexivity. Qed.

Example parseInt_NaN : JS.parseInt "five" = None.
Proof. reflexivity. Qed.

Example parseInt_no_break_space :
  JS.parseInt (String (ascii_of_nat 194) (String (ascii_of_nat 160) "12")) = Some 12.
Proof. reflexivity. Qed.

Example parseInt_rounds_to_double : JS.parseInt "9007199254740993" = Some 9007199254740992.
Proof. reflexivity. Qed.

Example parseInt_overflows : JS.parseInt ("-1" +:+ JS.zeros 309) = Some (- JS.infinity).
Proof. vm_compute. reflexivity. Qed.

Example show_number_exponent :
  JS.show_number (JS.parseInt "-1180591620717411303424") = "-1.1805916207174113e+21".
Proof. vm_compute. reflexivity. Qed.

Example show_number_shortest :
  JS.show_number (JS.parseInt "590295810358705651712") = "590295810358705700000".
Proof. vm_compute. reflexivity. Qed.

Example show_number_infinity :
  JS.show_number (JS.parseInt ("-1" +:+ JS.zeros 309)) = "-Infinity".
Proof. vm_compute. reflexivity. Qed.

Example split_brokers :
  JS.split "," "kafka-1:9092,kafka-2:9092" = ["kafka-1:9092"; "kafka-2:9092"].
Proof. reflexivity. Qed.

Example includes_timeout :
  JS.includes "context deadline exceeded"
    "Error: fetching message: context deadline exceeded" = true.
Proof. reflexivity. Qed.

Example includes_other : JS.includes "context deadline exceeded" "EOF" = false.
Proof. reflexivity. Qed.

Example key_v1 : ProducerV1.messageKey 3 12 7 = "key-3-12-7".
Proof. reflexivity. Qed.

Example key_v2 : Producer.messageKey 3 12 7 = "3-12-7".
Proof. reflexivity. Qed.

Example limit_of_one_stops :
  JS.ge_number 1 (Consumer.MAX_EMPTY_READS
                    (Consumer.configure {[ "MAX_EMPTY_READS" := "1" ]})) = true.
Proof. reflexivity. Qed.

(** ** Series and aggregates *)

Lemma series_app (m : metric) (a b : Metrics.sink) :
  series m (a ++ b) = series m a ++ series m b.
Proof. unfold series. now rewrite List.filter_app, map_app. Qed.

Lemma total_app (a b : list Z) : total (a ++ b) = total a + total b.
Proof. unfold total. induction a as [|x a IH]; cbn; [reflexivity | rewrite IH; lia]. Qed.

Lemma count_app (m : metric) (a b : Metrics.sink) :
  count m (a ++ b) = count m a + count m b.
Proof. unfold count. now rewrite series_app, total_app. Qed.

Lemma count_new_nonneg (m : metric) (new : Metrics.sink) :
  m_type m = Counter -> counters_grow new -> 0 <= count m new.
Proof.
  intros Hm Hnew. unfold count, series, total.
  induction Hnew as [|s new Hs _ IH]; cbn; [lia|].
  destruct (metric_eqb (s_metric s) m) eqn:E; cbn; [|exact IH].
  apply andb_prop in E as [_ Et].
  assert (m_type (s_metric s) = Counter) as Hc
    by (destruct (m_type (s_metric s)), (m_type m); cbn in Et; congruence).
  specialize (Hs Hc). lia.
Qed.

Lemma grows_count (m : metric) (k k' : K6.state) :
  Spec.grows k k' -> m_type m = Counter -> count m (sink k) <= count m (sink k').
Proof.
  intros (new & -> & Hnew) Hm. rewrite count_app.
  pose proof (count_new_nonneg m new Hm Hnew). lia.
Qed.

Lemma grows_refl (k : K6.state) : Spec.grows k k.
Proof. exists []. split; [now rewrite app_nil_r | constructor]. Qed.

Lemma grows_trans (a b c : K6.state) :
  Spec.grows a b -> Spec.grows b c -> Spec.grows a c.
Proof.
  intros (n1 & E1 & H1) (n2 & E2 & H2). exists (n1 ++ n2). split.
  - now rewrite E2, E1, app_assoc.
  - apply Forall_app; split; assumption.
Qed.

Lemma grows_emit (m : metric) (v : Z) (tag : string) (a b : K6.state) :
  (m_type m = Counter -> 0 <= v) -> Spec.grows a b -> Spec.grows a (emit m v tag b).
Proof.
  intros Hv Hab. apply (grows_trans _ b); [assumption|].
  eexists. split; [reflexivity|]. repeat constructor. exact Hv.
Qed.

Lemma grows_print (l : level) (text : string) (a b : K6.state) :
  Spec.grows a b -> Spec.grows a (print l text b).
Proof. intros (n & E & Hn). exists n. split; assumption. Qed.

Lemma grows_pause (s : Z) (a b : K6.state) :
  Spec.grows a b -> Spec.grows a (pause s b).
Proof. intros (n & E & Hn). exists n. split; assumption. Qed.

(** Chain the lemmas above along the emitted samples; [side] proves that a
    value added to a Counter is non-negative. *)
Ltac grow_with side :=
  repeat first
    [ apply grows_refl | apply grows_pause | apply grows_print
    | apply grows_emit; [ intros ?; first [ lia | discriminate | side ] | ] ].

(** ** The consumer *)

Lemma byte_total_from (msgs : list Consumer.message) (z : Z) :
  0 <= z ->
  0 <= fold_left (fun acc msg => acc + Consumer.len (Consumer.key msg)
                                   + Consumer.len (Consumer.value msg)) msgs z.
Proof.
  revert z. induction msgs as [|m msgs IH]; cbn; intros z Hz; [assumption|].
  apply IH. destruct (Consumer.key m), (Consumer.value m); cbn; lia.
Qed.

Lemma consumer_byte_total_nonneg (msgs : list Consumer.message) :
  0 <= Consumer.byte_total msgs.
Proof. apply byte_total_from. lia. Qed.

Lemma consumer_default_grows cfg VU i w :
  Spec.grows (Consumer.k6 w) (Consumer.k6 (snd (Consumer.default cfg VU i w))).
Proof.
  pose proof consumer_byte_total_nonneg as Hb.
  destruct w as [k [r|] n], i as [[e0|] [[[|m msgs]|]|e] [e1|]].
  all: unfold Consumer.default, Consumer.reader_consume, Consumer.set_emptyReadCount,
         Consumer.set_reader; js_run; cbn.
  all: js_cases; grow_with ltac:(apply Hb).
Qed.

(** The samples of an invocation whose [consume] call throws: the reader is
    there or is created without emitting anything, and the [catch] block
    emits for the timeout class or for the real-error class. *)
Lemma consumer_default_on_error cfg VU i w e :
  Consumer.consume i = Consumer.ConsumeThrows e ->
  (Consumer.reader w = None -> Consumer.new_Reader i = None) ->
  sink (Consumer.k6 (snd (Consumer.default cfg VU i w))) =
  sink (Consumer.k6 w) ++
    (if JS.includes "context deadline exceeded" e
     then [ {| s_metric := Consumer.timeoutErrors; s_value := 1; s_tag := "" |};
            {| s_metric := Consumer.emptyReads; s_value := 1; s_tag := "" |} ]
     else [ {| s_metric := Consumer.readerErrors; s_value := 1; s_tag := "" |} ]).
Proof.
  intros Hc Hr.
  destruct w as [k [r|] n], i as [nr c [e1|]]; cbn in Hc, Hr; subst c.
  3,4: rewrite Hr by reflexivity.
  all: unfold Consumer.default, Consumer.reader_consume, Consumer.set_emptyReadCount,
         Consumer.set_reader; js_run; cbn.
  all: destruct (JS.includes _ e); cbn.
  all: js_cases; now rewrite <- ?app_assoc.
Qed.

(** The local counter is reset by every invocation and so never exceeds 1:
    with a limit of at least 2 the only [return] an invocation can take is
    the one after a failed [new Reader]. *)
Lemma consumer_stop_unreachable cfg VU i w m :
  Consumer.MAX_EMPTY_READS cfg = Some m -> 2 <= m ->
  fst (Consumer.default cfg VU i w) = JS.Return ->
  Consumer.reader w = None /\ Consumer.new_Reader i <> None.
Proof.
  intros Hm Hle.
  assert (Hf : (m <=? 0 + 1) = false) by (apply Z.leb_gt; lia).
  destruct w as [k [r|] n], i as [[e0|] [[[|x msgs]|]|e] [e1|]].
  all: unfold Consumer.default, Consumer.reader_consume, Consumer.set_emptyReadCount,
         Consumer.set_reader; js_run; cbn -[Z.add Z.leb]; rewrite ?Hm.
  all: try destruct (JS.includes _ e).
  all: cbn -[Z.add Z.leb]; rewrite ?Hm; cbn -[Z.add Z.leb]; rewrite ?Hf; cbn.
  all: intros; try discriminate; split; congruence.
Qed.

(** An invocation of the consumer never lets an exception escape. *)
Lemma consumer_default_catches cfg VU i w e :
  fst (Consumer.default cfg VU i w) <> JS.Throw e.
Proof.
  destruct w as [k [r|] n], i as [[e0|] [[[|x msgs]|]|e'] [e1|]].
  all: unfold Consumer.default, Consumer.reader_consume, Consumer.set_emptyReadCount,
         Consumer.set_reader; js_run; cbn.
  all: js_cases; discriminate.
Qed.

(** The loop makes as many invocations as the budget and the inputs allow,
    whatever the invocations do. *)
Lemma vu_loop_count {W I} {H : Host W} (body : N -> I -> JS.M W unit)
    (budget : nat) (inputs : list I) (iter : N) (w : W) :
  snd (vu_loop body iter budget inputs w) = Nat.min budget (length inputs).
Proof.
  revert iter inputs w. induction budget as [|b IH]; intros iter inputs w.
  - reflexivity.
  - destruct inputs as [|i inputs]; [reflexivity|]. cbn [vu_loop].
    specialize (IH (N.succ iter) inputs).
    match goal with
    | |- context [vu_loop body (N.succ iter) b inputs ?x] =>
        specialize (IH x); destruct (vu_loop body (N.succ iter) b inputs x)
    end.
    cbn in *. now rewrite IH.
Qed.

(** C4. Every error raised by [reader.consume] in the consumer workload
    falls in exactly one of two disjoint classes, decided by whether its text
    contains "context deadline exceeded": a timeout adds one sample to
    [kafka_timeout_errors] and none to [kafka_reader_error_count], any other
    error adds one sample to [kafka_reader_error_count] and none to
    [kafka_timeout_errors].  No failure is counted in both. *)
Theorem C4_consume_error_in_exactly_one_class cfg VU i w e :
  Consumer.consume i = Consumer.ConsumeThrows e ->
  (Consumer.reader w = None -> Consumer.new_Reader i = None) ->
  let k := sink (Consumer.k6 w) in
  let k' := sink (Consumer.k6 (snd (Consumer.default cfg VU i w))) in
  (JS.includes "context deadline exceeded" e = true /\
   series Consumer.timeoutErrors k' = series Consumer.timeoutErrors k ++ [1] /\
   series Consumer.readerErrors k' = series Consumer.readerErrors k)
  \/
  (JS.includes "context deadline exceeded" e = false /\
   series Consumer.timeoutErrors k' = series Consumer.timeoutErrors k /\
   series Consumer.readerErrors k' = series Consumer.readerErrors k ++ [1]).
Proof.
  intros Hc Hr k k'. subst k k'.
  rewrite (consumer_default_on_error cfg VU i w e Hc Hr), !series_app.
  destruct (JS.includes _ e); [left | right]; cbn; now rewrite ?app_nil_r.
Qed.

(** A connection reset on a fresh virtual user is a real error. *)
Lemma C4_witness :
  let i := {| Consumer.new_Reader := None;
              Consumer.consume := Consumer.ConsumeThrows "read tcp: connection reset";
              Consumer.close := None |} in
  let k' := sink (Consumer.k6 (snd (Consumer.default (Consumer.configure ∅) 1%N i
                                      Consumer.fresh))) in
  series Consumer.timeoutErrors k' = [] /\ series Consumer.readerErrors k' = [1].
Proof.
  intros i k'.
  destruct (C4_consume_error_in_exactly_one_class (Consumer.configure ∅) 1%N i
              Consumer.fresh "read tcp: connection reset" eq_refl (fun _ => eq_refl))
    as [(Hin & _) | (_ & Ht & Hr)].
  - discriminate Hin.
  - split; [exact Ht | exact Hr].
Defined.

(** C1 (defect of the script).  With the default MAX_EMPTY_READS = 5, a
    virtual user whose first five reads time out does not stop: the sixth
    invocation runs and consumes, and no "stopping" line is printed; after a
    hundred timeouts in a row it has made all hundred invocations of its
    budget.  With five empty batches it goes on as well, and each empty batch
    has added a sample to [kafka_reader_error_count]. *)
Theorem C1_five_empty_reads_do_not_stop :
  let cfg := Consumer.configure ∅ in
  let timeout := {| Consumer.new_Reader := None;
                    Consumer.consume := Consumer.ConsumeThrows "context deadline exceeded";
                    Consumer.close := None |} in
  let empty := {| Consumer.new_Reader := None;
                  Consumer.consume := Consumer.Consumed (Some []);
                  Consumer.close := None |} in
  let batch := {| Consumer.new_Reader := None;
                  Consumer.consume := Consumer.Consumed
                    (Some [ {| Consumer.key := Some "k"; Consumer.value := Some "v" |} ]);
                  Consumer.close := None |} in
  Consumer.MAX_EMPTY_READS cfg = Some 5 /\
  (let (w, n) := Consumer.run_vu cfg 1%N (repeat timeout 5 ++ [batch]) Consumer.fresh in
   n = 6%nat /\ console (Consumer.k6 w) = [] /\
   count Consumer.timeoutErrors (sink (Consumer.k6 w)) = 5 /\
   count Consumer.emptyReads (sink (Consumer.k6 w)) = 5 /\
   count Consumer.readerErrors (sink (Consumer.k6 w)) = 0 /\
   count Consumer.consumedMessages (sink (Consumer.k6 w)) = 1) /\
  (let (w, n) := Consumer.run_vu cfg 1%N (repeat timeout 100) Consumer.fresh in
   n = 100%nat /\ console (Consumer.k6 w) = [] /\
   count Consumer.timeoutErrors (sink (Consumer.k6 w)) = 100) /\
  (let (w, n) := Consumer.run_vu cfg 1%N (repeat empty 5 ++ [batch]) Consumer.fresh in
   n = 6%nat /\ console (Consumer.k6 w) = [] /\
   count Consumer.emptyReads (sink (Consumer.k6 w)) = 5 /\
   count Consumer.readerErrors (sink (Consumer.k6 w)) = 5 /\
   count Consumer.consumedMessages (sink (Consumer.k6 w)) = 1).
Proof. vm_compute. repeat split. Qed.

(** ** The producers *)

Lemma producer_default_eq json VU ITER inp w :
  Producer.default json VU ITER inp w =
  (JS.Normal tt,
   {| Kafka.k6 :=
        pause 1
          (match Producer.produce inp with
           | None =>
               emit checks 1 "messages produced successfully"
                 (emit Producer.producedMessages
                    (Z.of_nat (length (Producer.batch json VU ITER inp))) ""
                    (emit Producer.producedBytes
                       (Kafka.byte_total (Producer.batch json VU ITER inp)) ""
                       (Kafka.k6 w)))
           | Some e =>
               emit checks 0 "messages produced successfully"
                 (print Error ("VU " +:+ JS.show_N VU +:+ " failed to produce messages: " +:+ e)
                    (Kafka.k6 w))
           end);
      Kafka.calls :=
        Kafka.calls w ++ [(Kafka.Produce (Producer.batch json VU ITER inp),
                           Producer.produce inp)] |}).
Proof.
  unfold Producer.default, Kafka.perform. js_run.
  destruct (Producer.produce inp); reflexivity.
Qed.

Lemma producerV1_default_eq json VU ITER inp w :
  ProducerV1.default json VU ITER inp w =
  (JS.Normal tt,
   {| Kafka.k6 :=
        pause 1
          (match ProducerV1.produce inp with
           | None =>
               emit ProducerV1.producedBytes
                 (Kafka.byte_total (ProducerV1.batch json VU ITER inp)) "" (Kafka.k6 w)
           | Some e =>
               print Error ("VU " +:+ JS.show_N VU +:+ " failed to produce messages: " +:+ e)
                 (Kafka.k6 w)
           end);
      Kafka.calls :=
        Kafka.calls w ++ [(Kafka.Produce (ProducerV1.batch json VU ITER inp),
                           ProducerV1.produce inp)] |}).
Proof.
  unfold ProducerV1.default, Kafka.perform. js_run.
  destruct (ProducerV1.produce inp); reflexivity.
Qed.

Lemma kafka_byte_total_from (msgs : list Kafka.message) (z : Z) :
  0 <= z ->
  0 <= fold_left
         (fun acc msg => acc + Z.of_nat (String.length (Kafka.key msg))
                             + Z.of_nat (String.length (Kafka.value msg))) msgs z.
Proof.
  revert z. induction msgs as [|m msgs IH]; cbn; intros z Hz; [assumption|].
  apply IH. lia.
Qed.

Lemma kafka_byte_total_nonneg (msgs : list Kafka.message) : 0 <= Kafka.byte_total msgs.
Proof. apply kafka_byte_total_from. lia. Qed.

Lemma producer_batch_length json VU ITER inp :
  length (Producer.batch json VU ITER inp) = Producer.MESSAGES_PER_ITERATION.
Proof. reflexivity. Qed.

(** The counter of produced messages after a run: ten for every invocation
    whose [produce] call returned. *)
Lemma producer_run_count json (schedule : list (N * N * Producer.input)) :
  forall w,
  count Producer.producedMessages
    (sink (Kafka.k6 (Kafka.run (Producer.default json) schedule w))) =
  count Producer.producedMessages (sink (Kafka.k6 w))
  + 10 * Z.of_nat (length (Spec.error_free schedule)).
Proof.
  induction schedule as [|[[VU ITER] inp] rest IH]; intros w.
  - cbn. lia.
  - cbn [Kafka.run fold_left]. rewrite producer_default_eq.
    unfold Kafka.run in IH. rewrite IH.
    cbn [Kafka.k6 sink pause emit print]. unfold Spec.error_free. cbn [List.filter snd].
    destruct (Producer.produce inp) as [e|]; cbn [sink emit print bool_decide].
    + rewrite !count_app. cbn. lia.
    + rewrite !count_app.
      change (count Producer.producedMessages
                [{| s_metric := Producer.producedBytes;
                    s_value := Kafka.byte_total (Producer.batch json VU ITER inp);
                    s_tag := "" |}]) with 0.
      rewrite producer_batch_length. cbn.
      change (Z.of_nat Producer.MESSAGES_PER_ITERATION) with 10. lia.
Qed.

(** C6. A producer run in which exactly ten invocations send their batch of
    ten messages without a produce error ends with [kafka_produced_messages]
    at 100, whatever the failed invocations did; every error-free invocation
    adds exactly one sample, the batch length MESSAGES_PER_ITERATION = 10, and
    a failed one adds none. *)
Theorem C6_ten_error_free_iterations_count_100 json
    (schedule : list (N * N * Producer.input)) :
  length (Spec.error_free schedule) = 10%nat ->
  count Producer.producedMessages
    (sink (Kafka.k6 (Kafka.run (Producer.default json) schedule Kafka.fresh))) = 100
  /\
  (forall VU ITER inp w,
     series Producer.producedMessages
       (sink (Kafka.k6 (snd (Producer.default json VU ITER inp w)))) =
     series Producer.producedMessages (sink (Kafka.k6 w)) ++
       match Producer.produce inp with
       | None => [Z.of_nat Producer.MESSAGES_PER_ITERATION]
       | Some _ => []
       end) /\
  Z.of_nat Producer.MESSAGES_PER_ITERATION = 10.
Proof.
  intros Hlen. split; [|split].
  - rewrite producer_run_count, Hlen. reflexivity.
  - intros VU ITER inp w. rewrite producer_default_eq.
    cbn [snd Kafka.k6 sink pause].
    destruct (Producer.produce inp); cbn [sink emit print];
      rewrite !series_app; cbn; now rewrite !app_nil_r.
  - reflexivity.
Qed.

(** Two virtual users, five error-free invocations each and one failed
    invocation in between. *)
Lemma C6_witness :
  let inp := {| Producer.now := fun _ => "2025-01-01T00:00:00.000Z";
                Producer.faker := fun _ => {| Producer.name := "Ada";
                                              Producer.email := "ada@example.org";
                                              Producer.address := "1 Main St" |};
                Producer.produce := None |} in
  let down := {| Producer.now := Producer.now inp; Producer.faker := Producer.faker inp;
                 Producer.produce := Some "broker down" |} in
  let schedule := map (fun n => (1%N, N.of_nat n, inp)) (seq 0 5) ++
                  [(2%N, 0%N, down)] ++
                  map (fun n => (2%N, N.of_nat n, inp)) (seq 1 5) in
  count Producer.producedMessages
    (sink (Kafka.k6 (Kafka.run (Producer.default (fun _ => "{}")) schedule Kafka.fresh)))
  = 100.
Proof.
  intros inp down schedule.
  exact (proj1 (C6_ten_error_free_iterations_count_100 (fun _ => "{}") schedule eq_refl)).
Defined.

(** ** Message keys *)

Lemma dash_free_digits (d : Decimal.uint) : Spec.dash_free (NilEmpty.string_of_uint d).
Proof. induction d; cbn; auto; split; auto; discriminate. Qed.

Lemma show_N_dash_free (n : N) : Spec.dash_free (JS.show_N n).
Proof.
  unfold JS.show_N, NilZero.string_of_uint.
  destruct (N.to_uint n) eqn:E; try apply dash_free_digits.
  cbn. split; [discriminate | exact I].
Qed.

Lemma to_uint_nonnil (n : N) : N.to_uint n <> Decimal.Nil.
Proof.
  destruct n as [|p]; cbn; [discriminate | apply DecimalPos.Unsigned.to_uint_nonnil].
Qed.

Lemma show_N_inj (a b : N) : JS.show_N a = JS.show_N b -> a = b.
Proof.
  unfold JS.show_N. intros E.
  apply DecimalN.Unsigned.to_uint_inj.
  pose proof (NilZero.usu _ (to_uint_nonnil a)) as Ha.
  pose proof (NilZero.usu _ (to_uint_nonnil b)) as Hb.
  rewrite E in Ha. congruence.
Qed.

(** A dash-free text followed by a dash splits in one way only. *)
Lemma dash_split (a a' b b' : string) :
  Spec.dash_free a -> Spec.dash_free a' ->
  a +:+ "-" +:+ b = a' +:+ "-" +:+ b' -> a = a' /\ b = b'.
Proof.
  revert a'. induction a as [|c a IH]; intros [|c' a'] Ha Ha' E; cbn in *.
  - injection E as E. now split.
  - injection E as Ec _. destruct Ha' as [Hc' _]. congruence.
  - injection E as Ec _. destruct Ha as [Hc _]. congruence.
  - injection E as Ec E. destruct Ha as [_ Ha], Ha' as [_ Ha'].
    destruct (IH a' Ha Ha' E) as [-> ->]. now subst.
Qed.

Lemma producer_key_inj (VU ITER i VU' ITER' i' : N) :
  Producer.messageKey VU ITER i = Producer.messageKey VU' ITER' i' ->
  VU = VU' /\ ITER = ITER' /\ i = i'.
Proof.
  unfold Producer.messageKey. intros E.
  apply dash_split in E as [E1 E]; try apply show_N_dash_free.
  apply dash_split in E as [E2 E3]; try apply show_N_dash_free.
  auto using show_N_inj.
Qed.

Lemma producerV1_key_inj (VU ITER i VU' ITER' i' : N) :
  ProducerV1.messageKey VU ITER i = ProducerV1.messageKey VU' ITER' i' ->
  VU = VU' /\ ITER = ITER' /\ i = i'.
Proof.
  unfold ProducerV1.messageKey. intros E. cbn in E. injection E as E.
  apply (producer_key_inj VU ITER i VU' ITER' i'). exact E.
Qed.

Lemma handed_app (t u : Kafka.trace) :
  Kafka.handed (t ++ u) = Kafka.handed t ++ Kafka.handed u.
Proof.
  induction t as [|[c o] t IH]; [reflexivity|].
  destruct c; cbn; rewrite IH; now rewrite ?app_assoc.
Qed.

Lemma producer_run_keys json (schedule : list (N * N * Producer.input)) :
  forall w,
  Spec.keys (Kafka.run (Producer.default json) schedule w) =
  Spec.keys w ++
  flat_map (Spec.batch_keys Producer.messageKey Producer.MESSAGES_PER_ITERATION)
    (Spec.invocations schedule).
Proof.
  induction schedule as [|[[VU ITER] inp] rest IH]; intros w.
  - cbn. now rewrite app_nil_r.
  - cbn [Kafka.run fold_left]. rewrite producer_default_eq.
    unfold Kafka.run in IH. rewrite IH. unfold Spec.keys at 1.
    cbn [Kafka.calls]. rewrite handed_app, map_app. fold (Spec.keys w).
    rewrite <- app_assoc. reflexivity.
Qed.

Lemma producerV1_run_keys json (schedule : list (N * N * ProducerV1.input)) :
  forall w,
  Spec.keys (Kafka.run (ProducerV1.default json) schedule w) =
  Spec.keys w ++
  flat_map (Spec.batch_keys ProducerV1.messageKey ProducerV1.MESSAGES_PER_ITERATION)
    (Spec.invocations schedule).
Proof.
  induction schedule as [|[[VU ITER] inp] rest IH]; intros w.
  - cbn. now rewrite app_nil_r.
  - cbn [Kafka.run fold_left]. rewrite producerV1_default_eq.
    unfold Kafka.run in IH. rewrite IH. unfold Spec.keys at 1.
    cbn [Kafka.calls]. rewrite handed_app, map_app. fold (Spec.keys w).
    rewrite <- app_assoc. reflexivity.
Qed.

(** Keys built injectively from the triple are pairwise distinct when no
    [(__VU, __ITER)] pair occurs twice. *)
Lemma batch_keys_NoDup (key : N -> N -> N -> string) (n : nat) (l : list (N * N)) :
  (forall a b c a' b' c', key a b c = key a' b' c' -> a = a' /\ b = b' /\ c = c') ->
  List.NoDup l -> List.NoDup (flat_map (Spec.batch_keys key n) l).
Proof.
  intros Hinj. induction 1 as [|x l Hx Hl IH]; cbn; [constructor|].
  apply List.NoDup_app; [| exact IH |].
  - unfold Spec.batch_keys. generalize (seq_NoDup n 0).
    induction 1 as [|i s Hi Hs IHs]; cbn; constructor; [|exact IHs].
    intros Hin. apply in_map_iff in Hin as (j & E & Hj).
    apply Hinj in E as (_ & _ & E). apply Nat2N.inj in E. now subst.
  - intros k Hk Hk'. apply Hx.
    apply in_map_iff in Hk as (i & <- & _).
    apply in_flat_map in Hk' as (y & Hy & Hk').
    apply in_map_iff in Hk' as (j & E & _).
    apply Hinj in E as (E1 & E2 & _).
    destruct x, y; cbn in *; subst. exact Hy.
Qed.

(** C10. In both producers the key of a message is built from the triple
    (virtual-user id, iteration number, index in the batch) and the building
    is injective; in a run whose invocations carry pairwise distinct
    [(__VU, __ITER)] pairs, as the runtime numbers them, all keys handed to
    [writer.produce] are pairwise distinct. *)
Theorem C10_message_keys_unique jsonV1 json
    (scheduleV1 : list (N * N * ProducerV1.input))
    (schedule : list (N * N * Producer.input)) :
  List.NoDup (Spec.invocations scheduleV1) ->
  List.NoDup (Spec.invocations schedule) ->
  List.NoDup (Spec.keys (Kafka.run (ProducerV1.default jsonV1) scheduleV1 Kafka.fresh)) /\
  List.NoDup (Spec.keys (Kafka.run (Producer.default json) schedule Kafka.fresh)) /\
  (forall VU ITER i VU' ITER' i',
     ProducerV1.messageKey VU ITER i = ProducerV1.messageKey VU' ITER' i' ->
     (VU, ITER, i) = (VU', ITER', i')) /\
  (forall VU ITER i VU' ITER' i',
     Kafka.serialize (Producer.messageKey VU ITER i) =
     Kafka.serialize (Producer.messageKey VU' ITER' i') ->
     (VU, ITER, i) = (VU', ITER', i')).
Proof.
  intros H1 H2. repeat split.
  - rewrite producerV1_run_keys. cbn [Spec.keys Kafka.fresh Kafka.calls Kafka.handed map app].
    apply batch_keys_NoDup; [apply producerV1_key_inj | exact H1].
  - rewrite producer_run_keys. cbn [Spec.keys Kafka.fresh Kafka.calls Kafka.handed map app].
    apply batch_keys_NoDup; [apply producer_key_inj | exact H2].
  - intros * E. apply producerV1_key_inj in E as (-> & -> & ->). reflexivity.
  - intros * E. apply producer_key_inj in E as (-> & -> & ->). reflexivity.
Qed.

(** Two virtual users in their first invocation, and one virtual user in
    its first two invocations. *)
Lemma C10_witness :
  let i1 := {| ProducerV1.now := fun _ => "2025-01-01T00:00:00.000Z";
               ProducerV1.randomString := fun _ _ => "abc";
               ProducerV1.produce := None |} in
  let i2 := {| Producer.now := fun _ => "2025-01-01T00:00:00.000Z";
               Producer.faker := fun _ => {| Producer.name := "Ada";
                                             Producer.email := "ada@example.org";
                                             Producer.address := "1 Main St" |};
               Producer.produce := None |} in
  List.NoDup (Spec.keys (Kafka.run (ProducerV1.default (fun _ => "{}"))
                           [(1%N, 0%N, i1); (2%N, 0%N, i1)] Kafka.fresh)) /\
  List.NoDup (Spec.keys (Kafka.run (Producer.default (fun _ => "{}"))
                           [(1%N, 0%N, i2); (1%N, 1%N, i2)] Kafka.fresh)).
Proof.
  intros i1 i2.
  assert (Ha : List.NoDup (Spec.invocations [(1%N, 0%N, i1); (2%N, 0%N, i1)])).
  { cbn. constructor; [intros [E|[]]; discriminate E|].
    constructor; [intros []|constructor]. }
  assert (Hb : List.NoDup (Spec.invocations [(1%N, 0%N, i2); (1%N, 1%N, i2)])).
  { cbn. constructor; [intros [E|[]]; discriminate E|].
    constructor; [intros []|constructor]. }
  destruct (C10_message_keys_unique (fun _ => "{}") (fun _ => "{}") _ _ Ha Hb)
    as (K1 & K2 & _).
  split; [exact K1 | exact K2].
Defined.

(** ** The CRUD blocks *)


(** Unfold the script of the CRUD workload and its two drivers. *)
Ltac crud_run :=
  unfold Crud.default, Crud.iteration, Crud.block, Crud.insert_block, Crud.update_block,
    Crud.select_block, Crud.delete_block, Crud.answered, Crud.call, Crud.against,
    Crud.deliver, Crud.execute;
  js_run; cbn.

Lemma crud_default_grows inp w :
  Spec.grows (Crud.k6 w) (Crud.k6 (snd (Crud.default inp w))).
Proof.
  destruct inp as [p last t1 t2 t3 t4 [e1|rows] [e2|n2] [e3|r3] [e4|n4]].
  all: crud_run.
  all: try destruct (Crud.truthy_id rows); cbn.
  all: grow_with idtac.
Qed.

Lemma crud_block_grows p t s :
  Spec.grows (Crud.k6 (Crud.script s)) (Crud.k6 (Crud.script (snd (Crud.block p t s)))).
Proof.
  destruct p as [|i|i|i]; crud_run.
  all: destruct (Crud.fault t) as [[x|x]|]; cbn; try apply grows_refl.
  - destruct (fst (Crud.exec_insert _ _ _ _)) as [e|rows]; cbn; [apply grows_refl|].
    destruct (Crud.truthy_id rows); cbn; grow_with idtac.
  - destruct (fst (Crud.exec_update _ _ _)) as [e|n]; cbn; grow_with idtac.
  - grow_with idtac.
  - grow_with idtac.
Qed.

Lemma crud_step_grows t s e s' :
  Crud.step t s = Some (e, s') ->
  Spec.grows (Crud.k6 (Crud.script s)) (Crud.k6 (Crud.script s')).
Proof.
  unfold Crud.step. destruct (Crud.vus s !! Crud.who t) as [p|]; [|discriminate].
  pose proof (crud_block_grows p t s) as H.
  destruct (Crud.block p t s) as [[p'| |x] s1]; cbn in H; intros [= <- <-]; cbn.
  - exact H.
  - exact H.
  - apply grows_print. exact H.
Qed.

(** C7. Every value that a workload adds to a Counter metric is
    non-negative: each invocation of a workload function (and each block of
    the CRUD workload run by a virtual user) extends the sample stream only
    by samples whose value is non-negative when their metric is a Counter.
    Hence the aggregate of every Counter, the sum of its series, never
    decreases. *)
Theorem C7_counters_never_decrease :
  (forall cfg VU i w,
     Spec.grows (Consumer.k6 w) (Consumer.k6 (snd (Consumer.default cfg VU i w)))) /\
  (forall json VU ITER i w,
     Spec.grows (Kafka.k6 w) (Kafka.k6 (snd (ProducerV1.default json VU ITER i w)))) /\
  (forall json VU ITER i w,
     Spec.grows (Kafka.k6 w) (Kafka.k6 (snd (Producer.default json VU ITER i w)))) /\
  (forall inp w,
     Spec.grows (Crud.k6 w) (Crud.k6 (snd (Crud.default inp w)))) /\
  (forall t s e s',
     Crud.step t s = Some (e, s') ->
     Spec.grows (Crud.k6 (Crud.script s)) (Crud.k6 (Crud.script s'))) /\
  (forall k k' m,
     Spec.grows k k' -> m_type m = Counter -> count m (sink k) <= count m (sink k')).
Proof.
  pose proof kafka_byte_total_nonneg as Hb.
  repeat split.
  - apply consumer_default_grows.
  - intros. rewrite producerV1_default_eq. cbn [snd Kafka.k6].
    destruct (ProducerV1.produce i); grow_with ltac:(apply Hb).
  - intros. rewrite producer_default_eq. cbn [snd Kafka.k6].
    destruct (Producer.produce i); grow_with ltac:(apply Hb).
  - apply crud_default_grows.
  - apply crud_step_grows.
  - intros k k' m H Hm. now apply grows_count.
Qed.

(** ** An insert that returns no row *)

Lemma metric_eqb_eq (a b : metric) : metric_eqb a b = true <-> a = b.
Proof.
  destruct a as [n t], b as [n' t']. unfold metric_eqb. cbn. split.
  - intros H. apply andb_prop in H as [Hn Ht]. apply String.eqb_eq in Hn.
    destruct t, t'; cbn in Ht; try discriminate; now subst.
  - intros [= -> ->]. rewrite String.eqb_refl. now destruct t'.
Qed.

Lemma series_other (m m' : metric) (v : Z) (tag : string) (k : K6.state) :
  m' <> m -> series m (sink (emit m' v tag k)) = series m (sink k).
Proof.
  intros Hne. unfold emit. cbn [sink]. rewrite series_app. unfold series at 2. cbn.
  destruct (metric_eqb m' m) eqn:E; [apply metric_eqb_eq in E; contradiction|].
  cbn. now rewrite app_nil_r.
Qed.

(** C8 as stated fails: an INSERT that returns no row leaves two samples,
    not one. *)
Lemma C8_counterexample :
  let inp := {| Crud.fake := {| Crud.firstName := "Ada"; Crud.lastName := "Lovelace";
                                Crud.email_ := "ada@example.org" |};
                Crud.fake_lastName := "Byron";
                Crud.t_insert := 7; Crud.t_update := 0; Crud.t_select := 0;
                Crud.t_delete := 0;
                Crud.inserted := inr []; Crud.updated := inr 1%nat;
                Crud.selected := inr []; Crud.deleted := inr 1%nat |} in
  let k' := sink (Crud.k6 (snd (Crud.default inp Crud.fresh))) in
  k' = [ {| s_metric := Crud.insertTrend; s_value := 7; s_tag := "" |};
         {| s_metric := Crud.insertOk; s_value := 0; s_tag := "" |} ] /\
  length k' <> 1%nat.
Proof. split; [reflexivity | discriminate]. Qed.

(** C8 (amended).  When the INSERT returns no row, the invocation sends no
    other statement and records exactly two samples, the insert duration on
    [db_insert_duration] and a false observation on [insert_success]; it logs
    the failure and returns.  The series of every other metric, among them
    the four row counters and the update, select and delete trends and
    rates, are unchanged. *)
Theorem C8_insert_without_row inp w :
  Crud.inserted inp = inr [] ->
  let w' := snd (Crud.default inp w) in
  fst (Crud.default inp w) = JS.Normal tt /\
  Crud.sent w' =
    Crud.sent w ++ [Crud.INSERT (Crud.firstName (Crud.fake inp))
                                (Crud.lastName (Crud.fake inp))
                                (Crud.email_ (Crud.fake inp))] /\
  sink (Crud.k6 w') =
    sink (Crud.k6 w) ++
      [ {| s_metric := Crud.insertTrend; s_value := Crud.t_insert inp; s_tag := "" |};
        {| s_metric := Crud.insertOk; s_value := 0; s_tag := "" |} ] /\
  console (Crud.k6 w') = console (Crud.k6 w) ++ [(Error, "Failed to insert record")] /\
  (forall m, m <> Crud.insertTrend -> m <> Crud.insertOk ->
     series m (sink (Crud.k6 w')) = series m (sink (Crud.k6 w))).
Proof.
  intros Hins w'. subst w'.
  assert (E : Crud.default inp w =
              (JS.Normal tt,
               {| Crud.k6 := print Error "Failed to insert record"
                               (emit Crud.insertOk 0 ""
                                  (emit Crud.insertTrend (Crud.t_insert inp) "" (Crud.k6 w)));
                  Crud.sent := Crud.sent w ++
                    [Crud.INSERT (Crud.firstName (Crud.fake inp))
                                 (Crud.lastName (Crud.fake inp))
                                 (Crud.email_ (Crud.fake inp))] |})).
  { unfold Crud.default, Crud.iteration, Crud.insert_block, Crud.answered, Crud.call.
    rewrite Hins. js_run. reflexivity. }
  rewrite E. cbn [fst snd Crud.k6 Crud.sent].
  repeat split.
  - cbn. now rewrite <- app_assoc.
  - intros m H1 H2. cbn [print sink].
    rewrite !series_other by congruence. reflexivity.
Qed.

(** The statements sent when the INSERT of a fresh run returns no row. *)
Lemma C8_witness :
  let inp := {| Crud.fake := {| Crud.firstName := "Ada"; Crud.lastName := "Lovelace";
                                Crud.email_ := "ada@example.org" |};
                Crud.fake_lastName := "Byron";
                Crud.t_insert := 7; Crud.t_update := 0; Crud.t_select := 0;
                Crud.t_delete := 0;
                Crud.inserted := inr []; Crud.updated := inr 1%nat;
                Crud.selected := inr []; Crud.deleted := inr 1%nat |} in
  Crud.sent (snd (Crud.default inp Crud.fresh)) =
    [Crud.INSERT "Ada" "Lovelace" "ada@example.org"].
Proof.
  intros inp.
  exact (proj1 (proj2 (C8_insert_without_row inp Crud.fresh eq_refl))).
Defined.

(** ** Teardown of the improved producer *)

Lemma delete_flag_iff (ENV : gmap string string) :
  Producer.DELETE_TOPIC_ON_TEARDOWN (Producer.configure ENV) = true <->
  ENV !! "DELETE_TOPIC_ON_TEARDOWN" = Some "true".
Proof.
  unfold Producer.configure. cbn [Producer.DELETE_TOPIC_ON_TEARDOWN].
  destruct (ENV !! "DELETE_TOPIC_ON_TEARDOWN") as [v|]; split; try discriminate.
  - intros H. apply String.eqb_eq in H. now subst.
  - intros [= ->]. reflexivity.
Qed.

Lemma producer_teardown_calls cfg i w :
  Kafka.calls (snd (Producer.teardown cfg i w)) =
  Kafka.calls w ++
    match Producer.writer_close i with
    | Some e => [(Kafka.WriterClose, Some e)]
    | None =>
        (Kafka.WriterClose, None) ::
        if Producer.DELETE_TOPIC_ON_TEARDOWN cfg then
          (Kafka.DeleteTopic (Producer.KAFKA_TOPIC cfg), Producer.deleteTopic i) ::
          match Producer.deleteTopic i with
          | Some _ => []
          | None => [(Kafka.ConnectionClose, Producer.connection_close i)]
          end
        else [(Kafka.ConnectionClose, Producer.connection_close i)]
    end.
Proof.
  destruct i as [[e1|] [e2|] [e3|]], cfg as [b t [|]];
    unfold Producer.teardown, Kafka.perform; js_run; cbn;
    now rewrite <- ?app_assoc.
Qed.

(** C9 as stated fails: with the variable set to 'true', a [writer.close]
    that throws ends the teardown before [deleteTopic]. *)
Lemma C9_counterexample :
  let ENV : gmap string string := {[ "DELETE_TOPIC_ON_TEARDOWN" := "true" ]} in
  let i := {| Producer.writer_close := Some "writer: connection lost";
              Producer.deleteTopic := None;
              Producer.connection_close := None |} in
  ENV !! "DELETE_TOPIC_ON_TEARDOWN" = Some "true" /\
  Kafka.calls (snd (Producer.teardown (Producer.configure ENV) i Kafka.fresh)) =
    [(Kafka.WriterClose, Some "writer: connection lost")].
Proof. split; reflexivity. Qed.

(** C9 (amended).  In the teardown of the improved producer, [deleteTopic]
    is called only if DELETE_TOPIC_ON_TEARDOWN is exactly the string 'true';
    when [writer.close] returns, it is called if and only if the variable is
    exactly 'true'.  For every other value (absent, 'True', 'TRUE', '1',
    anything else) no topic is deleted, and when [writer.close] returns the
    calls of the teardown are exactly [writer.close] and
    [connection.close]. *)
Theorem C9_topic_deleted_only_on_true (ENV : gmap string string) i w :
  let cfg := Producer.configure ENV in
  exists new,
    Kafka.calls (snd (Producer.teardown cfg i w)) = Kafka.calls w ++ new /\
    (forall topic, Kafka.attempted (Kafka.DeleteTopic topic) new ->
       ENV !! "DELETE_TOPIC_ON_TEARDOWN" = Some "true" /\
       topic = Producer.KAFKA_TOPIC cfg /\ Producer.writer_close i = None) /\
    (Producer.writer_close i = None ->
       (Kafka.attempted (Kafka.DeleteTopic (Producer.KAFKA_TOPIC cfg)) new <->
        ENV !! "DELETE_TOPIC_ON_TEARDOWN" = Some "true")) /\
    (ENV !! "DELETE_TOPIC_ON_TEARDOWN" <> Some "true" ->
       Producer.writer_close i = None ->
       new = [(Kafka.WriterClose, None);
              (Kafka.ConnectionClose, Producer.connection_close i)]).
Proof.
  intros cfg. eexists. split; [apply producer_teardown_calls|].
  pose proof (delete_flag_iff ENV) as Hflag. fold cfg in Hflag.
  destruct (Producer.writer_close i) as [e|];
    destruct (Producer.DELETE_TOPIC_ON_TEARDOWN cfg);
    destruct (Producer.deleteTopic i) as [e'|].
  all: split;
    [ intros topic (o & Hin); cbn in Hin
    | split;
      [ intros Hw; split; [intros (o & Hin); cbn in Hin | intros Ht]
      | intros Hne Hw ] ].
  all: try discriminate Hw.
  all: repeat match goal with
              | H : _ \/ _ |- _ => destruct H
              | H : False |- _ => destruct H
              | H : (_, _) = (_, _) |- _ => inversion H; clear H; subst
              end.
  all: try (repeat split; try reflexivity; apply Hflag; reflexivity).
  all: try (apply Hflag in Ht; discriminate Ht).
  all: try (exfalso; apply Hne, Hflag; reflexivity).
  all: try (eexists; cbn; right; left; reflexivity).
Qed.

(** 'TRUE' is not 'true': the topic is kept, writer and connection are
    closed. *)
Lemma C9_witness :
  let ENV : gmap string string := {[ "DELETE_TOPIC_ON_TEARDOWN" := "TRUE" ]} in
  let i := {| Producer.writer_close := None; Producer.deleteTopic := None;
              Producer.connection_close := None |} in
  Kafka.calls (snd (Producer.teardown (Producer.configure ENV) i Kafka.fresh)) =
    [(Kafka.WriterClose, None); (Kafka.ConnectionClose, None)].
Proof.
  intros ENV i.
  destruct (C9_topic_deleted_only_on_true ENV i Kafka.fresh) as (new & E & _ & _ & H).
  rewrite E. cbn. apply H; [discriminate | reflexivity].
Defined.

(** ** Configuration from the environment *)

Lemma env_or_set (ENV : gmap string string) name fallback v :
  ENV !! name = Some v -> v <> EmptyString -> JS.env_or ENV name fallback = v.
Proof. unfold JS.env_or. intros -> Hv. destruct v; [contradiction | reflexivity]. Qed.

Lemma env_or_absent (ENV : gmap string string) name fallback :
  ENV !! name = None -> JS.env_or ENV name fallback = fallback.
Proof. unfold JS.env_or. now intros ->. Qed.

(** C3 as stated fails: BROKER_ADDRS, TOPIC and GROUP_ID are not read;
    setting them changes nothing. *)
Lemma C3_counterexample :
  let ENV : gmap string string :=
    <["BROKER_ADDRS" := "kafka-1:9092,kafka-2:9092"]>
      (<["TOPIC" := "orders"]> (<["GROUP_ID" := "billing"]> ∅)) in
  ENV !! "BROKER_ADDRS" = Some "kafka-1:9092,kafka-2:9092" /\
  ENV !! "TOPIC" = Some "orders" /\
  ENV !! "GROUP_ID" = Some "billing" /\
  Consumer.KAFKA_BROKERS (Consumer.configure ENV) = ["localhost:9092"] /\
  Consumer.KAFKA_TOPIC (Consumer.configure ENV) = "my-test-topic" /\
  Consumer.KAFKA_GROUP_ID (Consumer.configure ENV) = "k6-consumer-group" /\
  Producer.KAFKA_BROKERS (Producer.configure ENV) = ["localhost:9094"] /\
  Producer.KAFKA_TOPIC (Producer.configure ENV) = "my-test-topic" /\
  Consumer.KAFKA_BROKERS (Consumer.configure ENV) <> JS.split "," "kafka-1:9092,kafka-2:9092" /\
  Consumer.KAFKA_TOPIC (Consumer.configure ENV) <> "orders" /\
  Consumer.KAFKA_GROUP_ID (Consumer.configure ENV) <> "billing" /\
  Consumer.configure ENV = Consumer.configure ∅ /\
  Producer.configure ENV = Producer.configure ∅.
Proof. vm_compute. repeat split; discriminate. Qed.

(** C3 (amended).  The run-tunable configuration of the improved consumer
    and producer is read from exactly the environment variables
    KAFKA_BROKERS (comma-separated host:port list), KAFKA_TOPIC,
    KAFKA_GROUP_ID, CONSUME_TIMEOUT_MS, MAX_EMPTY_READS and
    DELETE_TOPIC_ON_TEARDOWN: each of them, when set to a non-empty value,
    determines its configuration value, when absent a default is used, and
    no other variable is read. *)
Theorem C3_configuration_from_environment (ENV : gmap string string) :
  (forall v, ENV !! "KAFKA_BROKERS" = Some v -> v <> EmptyString ->
     Consumer.KAFKA_BROKERS (Consumer.configure ENV) = JS.split "," v /\
     Producer.KAFKA_BROKERS (Producer.configure ENV) = JS.split "," v) /\
  (forall v, ENV !! "KAFKA_TOPIC" = Some v -> v <> EmptyString ->
     Consumer.KAFKA_TOPIC (Consumer.configure ENV) = v /\
     Producer.KAFKA_TOPIC (Producer.configure ENV) = v) /\
  (forall v, ENV !! "KAFKA_GROUP_ID" = Some v -> v <> EmptyString ->
     Consumer.KAFKA_GROUP_ID (Consumer.configure ENV) = v) /\
  (forall v, ENV !! "CONSUME_TIMEOUT_MS" = Some v -> v <> EmptyString ->
     Consumer.CONSUME_TIMEOUT_MS (Consumer.configure ENV) = JS.parseInt v) /\
  (forall v, ENV !! "MAX_EMPTY_READS" = Some v -> v <> EmptyString ->
     Consumer.MAX_EMPTY_READS (Consumer.configure ENV) = JS.parseInt v) /\
  (forall v, ENV !! "DELETE_TOPIC_ON_TEARDOWN" = Some v ->
     Producer.DELETE_TOPIC_ON_TEARDOWN (Producer.configure ENV) = String.eqb v "true") /\
  (ENV !! "KAFKA_BROKERS" = None ->
     Consumer.KAFKA_BROKERS (Consumer.configure ENV) = ["localhost:9092"] /\
     Producer.KAFKA_BROKERS (Producer.configure ENV) = ["localhost:9094"]) /\
  (ENV !! "KAFKA_TOPIC" = None ->
     Consumer.KAFKA_TOPIC (Consumer.configure ENV) = "my-test-topic" /\
     Producer.KAFKA_TOPIC (Producer.configure ENV) = "my-test-topic") /\
  (ENV !! "KAFKA_GROUP_ID" = None ->
     Consumer.KAFKA_GROUP_ID (Consumer.configure ENV) = "k6-consumer-group") /\
  (ENV !! "CONSUME_TIMEOUT_MS" = None ->
     Consumer.CONSUME_TIMEOUT_MS (Consumer.configure ENV) = Some 2000) /\
  (ENV !! "MAX_EMPTY_READS" = None ->
     Consumer.MAX_EMPTY_READS (Consumer.configure ENV) = Some 5) /\
  (ENV !! "DELETE_TOPIC_ON_TEARDOWN" = None ->
     Producer.DELETE_TOPIC_ON_TEARDOWN (Producer.configure ENV) = false) /\
  (forall ENV' : gmap string string,
     (forall name, In name Spec.tunables -> ENV' !! name = ENV !! name) ->
     Consumer.configure ENV' = Consumer.configure ENV /\
     Producer.configure ENV' = Producer.configure ENV).
Proof.
  unfold Consumer.configure, Producer.configure; cbn.
  repeat match goal with |- _ /\ _ => split end.
  1-5: intros v Hv Hne; rewrite ?(env_or_set _ _ _ _ Hv Hne); auto.
  - intros v ->. reflexivity.
  - intros H. now rewrite !(env_or_absent _ _ _ H).
  - intros H. now rewrite !(env_or_absent _ _ _ H).
  - intros H. now rewrite !(env_or_absent _ _ _ H).
  - intros H. now rewrite !(env_or_absent _ _ _ H).
  - intros H. now rewrite !(env_or_absent _ _ _ H).
  - intros ->. reflexivity.
  - intros ENV' H. unfold JS.env_or.
    rewrite !H by (cbn; tauto). split; reflexivity.
Qed.

(** KAFKA_BROKERS and MAX_EMPTY_READS set, KAFKA_TOPIC absent. *)
Lemma C3_witness :
  let ENV : gmap string string :=
    <["KAFKA_BROKERS" := "kafka-1:9092,kafka-2:9092"]>
      (<["MAX_EMPTY_READS" := "3"]> ∅) in
  Consumer.KAFKA_BROKERS (Consumer.configure ENV) = ["kafka-1:9092"; "kafka-2:9092"] /\
  Consumer.MAX_EMPTY_READS (Consumer.configure ENV) = Some 3 /\
  Consumer.KAFKA_TOPIC (Consumer.configure ENV) = "my-test-topic".
Proof.
  intros ENV.
  destruct (C3_configuration_from_environment ENV)
    as (Hb & _ & _ & _ & Hm & _ & _ & Ht & _).
  split; [|split].
  - exact (proj1 (Hb "kafka-1:9092,kafka-2:9092" eq_refl ltac:(discriminate))).
  - exact (Hm "3" eq_refl ltac:(discriminate)).
  - exact (proj1 (Ht eq_refl)).
Defined.

(** ** Errors of the backend calls *)







(** ** The concurrent CRUD system *)

Lemma pool_split (pool : list Crud.position) (i : nat) (p : Crud.position) :
  pool !! i = Some p ->
  exists l1 l2, pool = l1 ++ p :: l2 /\ forall p', <[i := p']> pool = l1 ++ p' :: l2.
Proof.
  intros H. exists (take i pool), (drop (S i) pool). split.
  - symmetry. now apply take_drop_middle.
  - intros p'. apply insert_take_drop. eapply lookup_lt_Some. exact H.
Qed.

(** *** One turn, position by position

    What a turn makes of the system, read off [Crud.step]: the statement
    sent, the database after it, the samples and the next position. *)

Lemma step_insert (t : Crud.turn) (s : Crud.system) :
  Crud.vus s !! Crud.who t = Some Crud.Idle ->
  let p := Crud.faked t in
  let k := Crud.k6 (Crud.script s) in
  let sent := Crud.sent (Crud.script s)
                ++ [Crud.INSERT (Crud.firstName p) (Crud.lastName p) (Crud.email_ p)] in
  let done := Crud.exec_insert (Crud.firstName p) (Crud.lastName p) (Crud.email_ p)
                (Crud.db s) in
  let failed e d :=
    Some (Some e, {| Crud.vus := <[Crud.who t := Crud.Idle]> (Crud.vus s);
                     Crud.script := {| Crud.k6 := print Error e k; Crud.sent := sent |};
                     Crud.db := d |}) in
  Crud.step t s =
  match Crud.fault t with
  | Some (Crud.Refused e) => failed e (Crud.db s)
  | Some (Crud.Lost e) => failed e (snd done)
  | None =>
      match fst done with
      | inl e => failed e (snd done)
      | inr rows =>
          match Crud.truthy_id rows with
          | Some i =>
              Some (None,
                    {| Crud.vus := <[Crud.who t := Crud.BeforeUpdate i]> (Crud.vus s);
                       Crud.script :=
                         {| Crud.k6 := emit Crud.insertOk 1 ""
                                         (emit Crud.rowsInserted 1 ""
                                            (emit Crud.insertTrend (Crud.took t) "" k));
                            Crud.sent := sent |};
                       Crud.db := snd done |})
          | None =>
              Some (None,
                    {| Crud.vus := <[Crud.who t := Crud.Idle]> (Crud.vus s);
                       Crud.script :=
                         {| Crud.k6 := print Error "Failed to insert record"
                                         (emit Crud.insertOk 0 ""
                                            (emit Crud.insertTrend (Crud.took t) "" k));
                            Crud.sent := sent |};
                       Crud.db := snd done |})
          end
      end
  end.
Proof.
  intros Hp. unfold Crud.step. rewrite Hp. crud_run.
  destruct (Crud.fault t) as [[e|e]|]; cbn; try reflexivity.
  destruct (fst (Crud.exec_insert _ _ _ _)) as [e|rows]; cbn; [reflexivity|].
  destruct (Crud.truthy_id rows); reflexivity.
Qed.

Lemma step_update (t : Crud.turn) (s : Crud.system) (i : Z) :
  Crud.vus s !! Crud.who t = Some (Crud.BeforeUpdate i) ->
  let k := Crud.k6 (Crud.script s) in
  let sent := Crud.sent (Crud.script s) ++ [Crud.UPDATE (Crud.faked_lastName t) i] in
  let done := Crud.exec_update (Crud.faked_lastName t) i (Crud.db s) in
  let failed e d :=
    Some (Some e, {| Crud.vus := <[Crud.who t := Crud.Idle]> (Crud.vus s);
                     Crud.script := {| Crud.k6 := print Error e k; Crud.sent := sent |};
                     Crud.db := d |}) in
  Crud.step t s =
  match Crud.fault t with
  | Some (Crud.Refused e) => failed e (Crud.db s)
  | Some (Crud.Lost e) => failed e (snd done)
  | None =>
      match fst done with
      | inl e => failed e (snd done)
      | inr n =>
          Some (None,
                {| Crud.vus := <[Crud.who t := Crud.BeforeSelect i]> (Crud.vus s);
                   Crud.script :=
                     {| Crud.k6 := emit Crud.updateOk (of_bool (Nat.eqb n 1)) ""
                                     (emit Crud.rowsUpdated (Z.of_nat n) ""
                                        (emit Crud.updateTrend (Crud.took t) "" k));
                        Crud.sent := sent |};
                   Crud.db := snd done |})
      end
  end.
Proof.
  intros Hp. unfold Crud.step. rewrite Hp. crud_run.
  destruct (Crud.fault t) as [[e|e]|]; cbn; try reflexivity.
  destruct (fst (Crud.exec_update _ _ _)) as [e|n]; reflexivity.
Qed.

Lemma step_select (t : Crud.turn) (s : Crud.system) (i : Z) :
  Crud.vus s !! Crud.who t = Some (Crud.BeforeSelect i) ->
  let k := Crud.k6 (Crud.script s) in
  let sent := Crud.sent (Crud.script s) ++ [Crud.SELECT i] in
  let done := Crud.exec_select i (Crud.db s) in
  let failed e d :=
    Some (Some e, {| Crud.vus := <[Crud.who t := Crud.Idle]> (Crud.vus s);
                     Crud.script := {| Crud.k6 := print Error e k; Crud.sent := sent |};
                     Crud.db := d |}) in
  Crud.step t s =
  match Crud.fault t with
  | Some (Crud.Refused e) => failed e (Crud.db s)
  | Some (Crud.Lost e) => failed e (snd done)
  | None =>
      let n := length (List.filter (Crud.has_id i) (Crud.perf_test (Crud.db s))) in
      Some (None,
            {| Crud.vus := <[Crud.who t := Crud.BeforeDelete i]> (Crud.vus s);
               Crud.script :=
                 {| Crud.k6 := emit Crud.selectOk (of_bool (Nat.eqb n 1)) ""
                                 (emit Crud.rowsSelected (Z.of_nat n) ""
                                    (emit Crud.selectTrend (Crud.took t) "" k));
                    Crud.sent := sent |};
               Crud.db := snd done |})
  end.
Proof.
  intros Hp. unfold Crud.step. rewrite Hp. crud_run.
  destruct (Crud.fault t) as [[e|e]|]; reflexivity.
Qed.

Lemma step_delete (t : Crud.turn) (s : Crud.system) (i : Z) :
  Crud.vus s !! Crud.who t = Some (Crud.BeforeDelete i) ->
  let k := Crud.k6 (Crud.script s) in
  let sent := Crud.sent (Crud.script s) ++ [Crud.DELETE i] in
  let done := Crud.exec_delete i (Crud.db s) in
  let failed e d :=
    Some (Some e, {| Crud.vus := <[Crud.who t := Crud.Idle]> (Crud.vus s);
                     Crud.script := {| Crud.k6 := print Error e k; Crud.sent := sent |};
                     Crud.db := d |}) in
  Crud.step t s =
  match Crud.fault t with
  | Some (Crud.Refused e) => failed e (Crud.db s)
  | Some (Crud.Lost e) => failed e (snd done)
  | None =>
      let n := length (List.filter (Crud.has_id i) (Crud.perf_test (Crud.db s))) in
      Some (None,
            {| Crud.vus := <[Crud.who t := Crud.Idle]> (Crud.vus s);
               Crud.script :=
                 {| Crud.k6 := emit checks (of_bool (Nat.eqb n 1)) "crud_round_ok"
                                 (emit Crud.deleteOk (of_bool (Nat.eqb n 1)) ""
                                    (emit Crud.rowsDeleted (Z.of_nat n) ""
                                       (emit Crud.deleteTrend (Crud.took t) "" k)));
                    Crud.sent := sent |};
               Crud.db := snd done |})
  end.
Proof.
  intros Hp. unfold Crud.step. rewrite Hp. crud_run.
  destruct (Crud.fault t) as [[e|e]|]; reflexivity.
Qed.

(** *** Lists of positions and of rows *)

Lemma inflight_app (a b : list Crud.position) :
  Spec.inflight (a ++ b) = Spec.inflight a ++ Spec.inflight b.
Proof. apply flat_map_app. Qed.

Lemma inflight_idle (n : nat) : Spec.inflight (repeat Crud.Idle n) = [].
Proof. induction n; cbn; auto. Qed.

Lemma inflight_quiescent (pool : list Crud.position) :
  Forall (fun p => p = Crud.Idle) pool -> Spec.inflight pool = [].
Proof. induction 1 as [|p l -> _ IH]; cbn; auto. Qed.

(** A present id of a table with distinct ids selects exactly one row. *)
Lemma one_row (t : list Crud.row) (i : Z) :
  List.NoDup (map Crud.id t) -> In i (map Crud.id t) ->
  length (List.filter (Crud.has_id i) t) = 1%nat.
Proof.
  induction t as [|r t IH]; cbn; intros Hnd Hin; [contradiction|].
  inversion Hnd as [|? ? Hr Ht]; subst. unfold Crud.has_id at 1.
  destruct (Z.eqb_spec (Crud.id r) i) as [E|E]; cbn.
  - f_equal. subst i. clear IH Hin Hnd Ht.
    induction t as [|r' t IH]; cbn in *; [reflexivity|].
    unfold Crud.has_id at 1.
    destruct (Z.eqb_spec (Crud.id r') (Crud.id r)) as [E|E]; [exfalso; auto|].
    apply IH. tauto.
  - destruct Hin as [Hin|Hin]; [contradiction|]. auto.
Qed.

Lemma ids_without (t : list Crud.row) (i j : Z) :
  In j (map Crud.id (List.filter (fun r => negb (Crud.has_id i r)) t)) <->
  In j (map Crud.id t) /\ j <> i.
Proof.
  rewrite !in_map_iff. split.
  - intros (r & <- & Hr). apply filter_In in Hr as [Hr Hne].
    unfold Crud.has_id in Hne. split; [eauto|].
    destruct (Z.eqb_spec (Crud.id r) i); [discriminate | assumption].
  - intros [(r & <- & Hr) Hne]. exists r. split; [reflexivity|].
    apply filter_In. split; [assumption|]. unfold Crud.has_id.
    destruct (Z.eqb_spec (Crud.id r) i); [contradiction | reflexivity].
Qed.

Lemma ids_without_distinct (t : list Crud.row) (i : Z) :
  List.NoDup (map Crud.id t) ->
  List.NoDup (map Crud.id (List.filter (fun r => negb (Crud.has_id i r)) t)).
Proof.
  induction t as [|r t IH]; cbn; intros Hnd; [constructor|].
  inversion Hnd as [|? ? Hr Ht]; subst.
  destruct (negb (Crud.has_id i r)); cbn; auto.
  constructor; auto. intros Hin. apply ids_without in Hin. tauto.
Qed.

Lemma ids_updated (f : Crud.row -> Crud.row) (t : list Crud.row) :
  (forall r, Crud.id (f r) = Crud.id r) -> map Crud.id (map f t) = map Crud.id t.
Proof. intros H. rewrite map_map. apply map_ext. exact H. Qed.

Lemma distinct_insert_middle (a b : list Z) (x : Z) :
  List.NoDup (a ++ b) -> ~ In x (a ++ b) -> List.NoDup (a ++ x :: b).
Proof.
  intros Hnd Hx. apply (Permutation_NoDup (l := x :: a ++ b)).
  - apply Permutation_middle.
  - now constructor.
Qed.

Lemma distinct_remove_middle (a b : list Z) (x : Z) :
  List.NoDup (a ++ x :: b) -> List.NoDup (a ++ b) /\ ~ In x (a ++ b).
Proof.
  intros Hnd. apply (Permutation_NoDup (l' := x :: a ++ b)) in Hnd.
  - inversion Hnd; subst; tauto.
  - symmetry. apply Permutation_middle.
Qed.

Lemma filter_split_length {A} (f : A -> bool) (l : list A) :
  (length (List.filter f l) + length (List.filter (fun x => negb (f x)) l))%nat = length l.
Proof. induction l as [|x l IH]; cbn; [reflexivity|]. destruct (f x); cbn; lia. Qed.

Lemma count_emit (m m' : metric) (v : Z) (tag : string) (k : K6.state) :
  count m (sink (emit m' v tag k)) =
  count m (sink k) + (if metric_eqb m' m then v else 0).
Proof.
  unfold emit. cbn [sink]. rewrite count_app. f_equal.
  unfold count, series, total. cbn. destruct (metric_eqb m' m); cbn; lia.
Qed.

Lemma series_emit (m m' : metric) (v : Z) (tag : string) (k : K6.state) :
  series m (sink (emit m' v tag k)) =
  series m (sink k) ++ (if metric_eqb m' m then [v] else []).
Proof.
  unfold emit. cbn [sink]. rewrite series_app. f_equal.
  unfold series. cbn. destruct (metric_eqb m' m); reflexivity.
Qed.

Lemma total_ones (l : list Z) : Forall (eq 1) l -> total l = Z.of_nat (length l).
Proof. induction 1 as [|x l <- _ IH]; cbn; [reflexivity|]. unfold total in IH. lia. Qed.

(** *** The database, statement by statement *)

Lemma exec_insert_cases (first last mail : string) (d : Crud.database) :
  let r := Crud.exec_insert first last mail d in
  Crud.perf_test_id_seq (snd r) = Crud.perf_test_id_seq d + 1 /\
  ((exists e, fst r = inl e) /\ Crud.perf_test (snd r) = Crud.perf_test d
   \/
   fst r = inr [Crud.perf_test_id_seq d] /\
   Crud.perf_test (snd r) =
     Crud.perf_test d ++
       [{| Crud.id := Crud.perf_test_id_seq d; Crud.first_name := first;
           Crud.last_name := last; Crud.email := mail;
           Crud.updated_at := Crud.clock d |}]).
Proof.
  unfold Crud.exec_insert.
  destruct (negb _); [cbn; split; [reflexivity | left; eauto]|].
  destruct (existsb _ _); cbn; split; try reflexivity; [left; eauto | right; auto].
Qed.

Lemma exec_update_cases (last : string) (i : Z) (d : Crud.database) :
  let r := Crud.exec_update last i d in
  Crud.perf_test_id_seq (snd r) = Crud.perf_test_id_seq d /\
  Spec.ids (snd r) = Spec.ids d /\
  length (Crud.perf_test (snd r)) = length (Crud.perf_test d) /\
  ((exists e, fst r = inl e) \/
   fst r = inr (length (List.filter (Crud.has_id i) (Crud.perf_test d)))).
Proof.
  unfold Crud.exec_update, Spec.ids.
  destruct (negb _); cbn; repeat split; eauto.
  - apply ids_updated. intros r. destruct (Crud.has_id i r); reflexivity.
  - apply length_map.
Qed.

(** The three facts about the table alone are kept by every statement. *)
Lemma execute_table (st : Crud.statement) (d : Crud.database) :
  1 <= Crud.perf_test_id_seq d ->
  (forall i, In i (Spec.ids d) -> 1 <= i < Crud.perf_test_id_seq d) ->
  List.NoDup (Spec.ids d) ->
  let d' := snd (Crud.execute st d) in
  1 <= Crud.perf_test_id_seq d' /\
  (forall i, In i (Spec.ids d') -> 1 <= i < Crud.perf_test_id_seq d') /\
  List.NoDup (Spec.ids d').
Proof.
  intros Hseq Hbelow Hnd. destruct st as [first last mail|last i|i|i]; cbn [Crud.execute Crud.reply].
  - destruct (exec_insert_cases first last mail d) as (Es & [[_ Et]|[_ Et]]);
      cbv zeta; unfold Spec.ids in *; rewrite Es, Et.
    + split; [lia|]. split; [|assumption]. intros i Hi. apply Hbelow in Hi. lia.
    + rewrite map_app. cbn [map Crud.id]. split; [lia|]. split.
      * intros i Hi. apply in_app_iff in Hi as [Hi|[<-|[]]]; [apply Hbelow in Hi|]; lia.
      * apply (distinct_insert_middle _ []); rewrite app_nil_r; [assumption|].
        intros Hin. apply Hbelow in Hin. lia.
  - destruct (exec_update_cases last i d) as (Es & Ei & _). cbv zeta.
    rewrite Es, Ei. auto.
  - cbn. auto.
  - cbn. unfold Spec.ids in *. cbn. split; [assumption|]. split.
    + intros j Hj. apply ids_without in Hj as [Hj _]. apply Hbelow in Hj. lia.
    + now apply ids_without_distinct.
Qed.

(** *** Runs without a failed invocation *)

Lemma deleted_keys_app (a b : list Crud.statement) :
  Spec.deleted_keys (a ++ b) = Spec.deleted_keys a ++ Spec.deleted_keys b.
Proof. induction a as [|[] a IH]; cbn; now rewrite ?IH. Qed.

Lemma handed_out_next (d d' : Crud.database) :
  1 <= Crud.perf_test_id_seq d ->
  Crud.perf_test_id_seq d' = Crud.perf_test_id_seq d + 1 ->
  Spec.handed_out d' = Spec.handed_out d ++ [Crud.perf_test_id_seq d].
Proof.
  intros Hseq E. unfold Spec.handed_out. rewrite E.
  replace (Z.to_nat (Crud.perf_test_id_seq d + 1 - 1))
    with (S (Z.to_nat (Crud.perf_test_id_seq d - 1))) by lia.
  rewrite seq_S, map_app. cbn. do 2 f_equal. lia.
Qed.

Lemma handed_out_same (d d' : Crud.database) :
  Crud.perf_test_id_seq d' = Crud.perf_test_id_seq d ->
  Spec.handed_out d' = Spec.handed_out d.
Proof. unfold Spec.handed_out. now intros ->. Qed.

Lemma consistent_start (n : nat) (d : Crud.database) : Spec.consistent (Crud.start n d).
Proof.
  constructor; cbn; rewrite ?inflight_idle; try lia; try constructor; try tauto.
Qed.

Ltac crud_fields :=
  cbn [Crud.vus Crud.script Crud.db Crud.k6 Crud.sent Crud.perf_test Crud.perf_test_id_seq].

Lemma step_consistent (t : Crud.turn) (s s' : Crud.system) :
  Crud.step t s = Some (None, s') -> Spec.consistent s -> Spec.consistent s'.
Proof.
  intros Hstep [Hseq Hbelow Hids Hfl Hstored Hall Hacc Hins Hdel Hcnt Hbal].
  destruct (Crud.vus s !! Crud.who t) as [p|] eqn:Hp;
    [|unfold Crud.step in Hstep; rewrite Hp in Hstep; discriminate].
  destruct (pool_split _ _ _ Hp) as (l1 & l2 & Hpool & Hupd).
  rewrite Hpool, inflight_app in Hfl, Hstored, Hall, Hacc, Hbal.
  cbn [Spec.inflight flat_map] in Hfl, Hstored, Hall, Hacc, Hbal.
  fold (Spec.inflight l2) in Hfl, Hstored, Hall, Hacc, Hbal.
  destruct p as [|i|i|i].
  - (* INSERT *)
    rewrite (step_insert t s Hp) in Hstep. cbv zeta in Hstep.
    destruct (Crud.fault t) as [[e|e]|]; try discriminate.
    pose proof (execute_table (Crud.INSERT (Crud.firstName (Crud.faked t))
                  (Crud.lastName (Crud.faked t)) (Crud.email_ (Crud.faked t)))
                  (Crud.db s) Hseq Hbelow Hids) as (Tseq & Tbelow & Tids).
    cbn [Crud.execute Crud.reply] in Tseq, Tbelow, Tids.
    destruct (exec_insert_cases (Crud.firstName (Crud.faked t))
                (Crud.lastName (Crud.faked t)) (Crud.email_ (Crud.faked t)) (Crud.db s))
      as (Es & [[(e & Ef) Et]|[Ef Et]]); rewrite Ef in Hstep; [discriminate|].
    cbn [Crud.truthy_id] in Hstep.
    destruct (Z.eqb_spec (Crud.perf_test_id_seq (Crud.db s)) 0) as [E|E]; [lia|].
    injection Hstep as <-. cbn [Spec.holds app] in *.
    assert (Hfresh : ~ In (Crud.perf_test_id_seq (Crud.db s)) (Spec.ids (Crud.db s)))
      by (intros Hin; apply Hbelow in Hin; lia).
    constructor; crud_fields; try assumption; rewrite ?Hupd, ?inflight_app;
      cbn [Spec.inflight flat_map Spec.holds app]; fold (Spec.inflight l2).
    + apply distinct_insert_middle; [assumption|].
      intros Hin. apply Hfresh, Hstored, Hin.
    + unfold Spec.ids. rewrite Et, map_app. cbn [map Crud.id].
      intros j Hj. apply in_app_iff.
      apply in_app_iff in Hj as [Hj|[<-|Hj]]; [left|right; now left|left];
        apply Hstored, in_app_iff; tauto.
    + unfold Spec.ids. rewrite Et, map_app. cbn [map Crud.id].
      intros j Hj. apply in_app_iff in Hj as [Hj|[<-|[]]].
      * apply Hall, in_app_iff in Hj. apply in_app_iff. destruct Hj; [now left|].
        right. now right.
      * apply in_app_iff. right. now left.
    + rewrite deleted_keys_app, (handed_out_next (Crud.db s)) by assumption.
      cbn [Spec.deleted_keys]. rewrite app_nil_r, app_assoc.
      rewrite <- Permutation_middle, <- Permutation_cons_append.
      constructor. now rewrite <- app_assoc.
    + rewrite !series_emit. cbn. rewrite !app_nil_r.
      apply Forall_app. split; [assumption | repeat constructor].
    + rewrite !series_emit. cbn. now rewrite !app_nil_r.
    + rewrite !series_emit, deleted_keys_app. cbn. now rewrite !app_nil_r.
    + rewrite !series_emit. cbn. rewrite !app_nil_r, !length_app in *. cbn. lia.
  - (* UPDATE *)
    rewrite (step_update t s i Hp) in Hstep. cbv zeta in Hstep.
    destruct (Crud.fault t) as [[e|e]|]; try discriminate.
    destruct (exec_update_cases (Crud.faked_lastName t) i (Crud.db s))
      as (Es & Ei & El & [(e & Ef)|Ef]); rewrite Ef in Hstep; [discriminate|].
    injection Hstep as <-.
    constructor; crud_fields; rewrite ?Es, ?Ei; try assumption;
      rewrite ?Hupd, ?inflight_app; cbn [Spec.inflight flat_map Spec.holds app];
      fold (Spec.inflight l2); try assumption.
    + rewrite deleted_keys_app, (handed_out_same (Crud.db s)) by assumption.
      cbn [Spec.deleted_keys]. now rewrite app_nil_r.
    + rewrite !series_emit. cbn. now rewrite !app_nil_r.
    + rewrite !series_emit. cbn. now rewrite !app_nil_r.
    + rewrite !series_emit, deleted_keys_app. cbn. now rewrite !app_nil_r.
    + rewrite !series_emit. cbn. now rewrite !app_nil_r.
  - (* SELECT *)
    rewrite (step_select t s i Hp) in Hstep. cbv zeta in Hstep.
    destruct (Crud.fault t) as [[e|e]|]; try discriminate.
    injection Hstep as <-.
    constructor; crud_fields; try assumption;
      rewrite ?Hupd, ?inflight_app; cbn [Spec.inflight flat_map Spec.holds app];
      fold (Spec.inflight l2); try assumption.
    + rewrite deleted_keys_app, (handed_out_same (Crud.db s)) by reflexivity.
      cbn [Spec.deleted_keys]. now rewrite app_nil_r.
    + rewrite !series_emit. cbn. now rewrite !app_nil_r.
    + rewrite !series_emit. cbn. now rewrite !app_nil_r.
    + rewrite !series_emit, deleted_keys_app. cbn. now rewrite !app_nil_r.
    + rewrite !series_emit. cbn. now rewrite !app_nil_r.
  - (* DELETE *)
    rewrite (step_delete t s i Hp) in Hstep. cbv zeta in Hstep.
    destruct (Crud.fault t) as [[e|e]|]; try discriminate.
    injection Hstep as <-. cbn [Spec.holds app] in *.
    assert (Hi : In i (Spec.ids (Crud.db s)))
      by (apply Hstored, in_app_iff; right; now left).
    pose proof (execute_table (Crud.DELETE i) (Crud.db s) Hseq Hbelow Hids)
      as (Tseq & Tbelow & Tids).
    cbn [Crud.execute Crud.reply] in Tseq, Tbelow, Tids.
    apply distinct_remove_middle in Hfl as [Hfl Hni].
    constructor; crud_fields; try assumption;
      rewrite ?Hupd, ?inflight_app; cbn [Spec.inflight flat_map Spec.holds app];
      fold (Spec.inflight l2); try assumption.
    + intros j Hj. unfold Spec.ids. cbn. apply ids_without. split.
      * apply Hstored. apply in_app_iff. apply in_app_iff in Hj as [Hj|Hj]; [tauto|].
        right. now right.
      * intros ->. contradiction.
    + intros j Hj. unfold Spec.ids in Hj. cbn in Hj. apply ids_without in Hj as [Hj Hne].
      apply Hall, in_app_iff in Hj as [Hj|[Hj|Hj]]; [|congruence|];
        apply in_app_iff; tauto.
    + rewrite deleted_keys_app, (handed_out_same (Crud.db s)) by reflexivity.
      cbn [Spec.deleted_keys]. rewrite <- app_assoc. cbn [app].
      rewrite <- Hacc. apply Permutation_app_head. apply Permutation_middle.
    + rewrite !series_emit. cbn. now rewrite !app_nil_r.
    + rewrite !series_emit. cbn. rewrite !app_nil_r.
      apply Forall_app. split; [assumption|].
      rewrite (one_row _ _ Hids Hi). repeat constructor.
    + rewrite !series_emit, deleted_keys_app. cbn. rewrite !app_nil_r, !length_app.
      cbn. lia.
    + rewrite !series_emit. cbn. rewrite !app_nil_r, !length_app in *. cbn in *. lia.
Qed.

Lemma run_consistent (turns : list Crud.turn) :
  forall s s', Crud.run turns s = Some ([], s') -> Spec.consistent s -> Spec.consistent s'.
Proof.
  induction turns as [|t turns IH]; intros s s' Hrun Hs; cbn in Hrun.
  - now injection Hrun as <-.
  - destruct (Crud.step t s) as [[e s1]|] eqn:Hstep; [|discriminate].
    destruct (Crud.run turns s1) as [[es s2]|] eqn:Hrest; [|discriminate].
    destruct e as [e|]; [discriminate|]. injection Hrun as -> ->.
    eapply IH; [eassumption|]. eapply step_consistent; eassumption.
Qed.

(** C2. In the CRUD workload run by any pool of virtual users (the stages
    (5s,10), (20s,50), (5s,0) ask for at most 50 and end at 0), if no
    invocation fails then at run end, when every virtual user is back
    between invocations, [rows_inserted] equals [rows_deleted]: both have
    one sample of value 1 for each id that the sequence has handed out,
    every such id was the key of exactly one DELETE, and the table is empty.
    Whenever a virtual user that has inserted [i] stands before its DELETE,
    its next turn sends [DELETE ... WHERE id = i], the database answers one
    affected row, and this answer is the sample added to [rows_deleted].  In
    the script itself, an invocation whose INSERT returns an id and whose
    UPDATE and SELECT return sends the DELETE on that id, after adding 1 to
    [rows_inserted], and adds to [rows_deleted] the affected-row count that
    the driver returns. *)
Theorem C2_inserted_equals_deleted (n : nat) (d : Crud.database)
    (turns : list Crud.turn) (s' : Crud.system) :
  Crud.run turns (Crud.start n d) = Some ([], s') ->
  (Crud.quiescent s' ->
   let k := sink (Crud.k6 (Crud.script s')) in
   count Crud.rowsInserted k = count Crud.rowsDeleted k /\
   series Crud.rowsInserted k = repeat 1 (length (Spec.handed_out (Crud.db s'))) /\
   series Crud.rowsDeleted k = repeat 1 (length (Spec.handed_out (Crud.db s'))) /\
   Permutation (Spec.deleted_keys (Crud.sent (Crud.script s')))
               (Spec.handed_out (Crud.db s')) /\
   Crud.perf_test (Crud.db s') = []) /\
  (forall t i,
     Crud.vus s' !! Crud.who t = Some (Crud.BeforeDelete i) ->
     Crud.fault t = None ->
     exists s'',
       Crud.step t s' = Some (None, s'') /\
       Crud.sent (Crud.script s'') = Crud.sent (Crud.script s') ++ [Crud.DELETE i] /\
       fst (Crud.execute (Crud.DELETE i) (Crud.db s')) = inr 1%nat /\
       series Crud.rowsDeleted (sink (Crud.k6 (Crud.script s''))) =
         series Crud.rowsDeleted (sink (Crud.k6 (Crud.script s'))) ++ [1] /\
       Crud.vus s'' = <[Crud.who t := Crud.Idle]> (Crud.vus s') /\
       ~ In i (Spec.ids (Crud.db s''))) /\
  (forall inp w rows i updated selected deleted,
     Crud.inserted inp = inr rows -> Crud.truthy_id rows = Some i ->
     Crud.updated inp = inr updated -> Crud.selected inp = inr selected ->
     Crud.deleted inp = inr deleted ->
     let w' := snd (Crud.default inp w) in
     fst (Crud.default inp w) = JS.Normal tt /\
     Crud.sent w' =
       Crud.sent w ++
         [ Crud.INSERT (Crud.firstName (Crud.fake inp)) (Crud.lastName (Crud.fake inp))
                       (Crud.email_ (Crud.fake inp));
           Crud.UPDATE (Crud.fake_lastName inp) i; Crud.SELECT i; Crud.DELETE i ] /\
     series Crud.rowsInserted (sink (Crud.k6 w')) =
       series Crud.rowsInserted (sink (Crud.k6 w)) ++ [1] /\
     series Crud.rowsDeleted (sink (Crud.k6 w')) =
       series Crud.rowsDeleted (sink (Crud.k6 w)) ++ [Z.of_nat deleted]).
Proof.
  intros Hrun.
  pose proof (run_consistent turns _ _ Hrun (consistent_start n d)) as H.
  destruct H as [Hseq Hbelow Hids Hfl Hstored Hall Hacc Hins Hdel Hcnt Hbal].
  split; [|split].
  - intros Hq k. subst k.
    rewrite (inflight_quiescent _ Hq) in *. cbn [length] in *.
    rewrite app_nil_r in Hacc. rewrite Nat.add_0_r in Hbal.
    pose proof (Permutation_length Hacc) as Hlen.
    assert (Hrep : forall l : list Z, Forall (eq 1) l -> l = repeat 1 (length l)).
    { induction 1 as [|x l <- _ IH]; cbn; [reflexivity | now f_equal]. }
    repeat split.
    + unfold count. rewrite !total_ones by assumption. lia.
    + rewrite (Hrep _ Hins) at 1. f_equal. lia.
    + rewrite (Hrep _ Hdel) at 1. f_equal. lia.
    + exact Hacc.
    + destruct (Crud.perf_test (Crud.db s')) as [|r rest] eqn:E; [reflexivity|].
      exfalso. apply (Hall (Crud.id r)). unfold Spec.ids. rewrite E. now left.
  - intros t i Hp Hf.
    destruct (pool_split _ _ _ Hp) as (l1 & l2 & Hpool & _).
    assert (Hi : In i (Spec.ids (Crud.db s'))).
    { apply Hstored. rewrite Hpool, inflight_app. cbn. apply in_app_iff. right. now left. }
    rewrite (step_delete t s' i Hp), Hf. cbv zeta.
    eexists. split; [reflexivity|]. crud_fields. cbn [Crud.execute Crud.exec_delete fst snd].
    rewrite (one_row _ _ Hids Hi). repeat split.
    + rewrite !series_emit. cbn. now rewrite !app_nil_r.
    + unfold Spec.ids. crud_fields. intros Hin. apply ids_without in Hin. tauto.
  - intros inp w rows i n2 r3 n4 E1 Et E2 E3 E4 w'. subst w'.
    destruct inp as [p last t1 t2 t3 t4 ins upd sel del]. cbn in E1, E2, E3, E4. subst.
    crud_run. rewrite Et. cbn. rewrite <- !app_assoc. repeat split.
    + unfold series. rewrite List.filter_app, map_app. reflexivity.
    + unfold series. rewrite List.filter_app, map_app. reflexivity.
Qed.

(** Two of the fifty virtual users, their statements interleaved. *)
Lemma C2_witness :
  let ada := {| Crud.firstName := "Ada"; Crud.lastName := "Lovelace";
                Crud.email_ := "ada@example.org" |} in
  let bob := {| Crud.firstName := "Bob"; Crud.lastName := "Kahn";
                Crud.email_ := "bob@example.org" |} in
  let turn v p := {| Crud.who := v; Crud.faked := p; Crud.faked_lastName := "Byron";
                     Crud.took := 3; Crud.fault := None |} in
  let turns := [ turn 0%nat ada; turn 49%nat bob; turn 0%nat ada; turn 49%nat bob;
                 turn 0%nat ada; turn 0%nat ada; turn 49%nat bob; turn 49%nat bob ] in
  let d := {| Crud.perf_test := []; Crud.perf_test_id_seq := 1; Crud.clock := 0 |} in
  exists s',
    Crud.run turns (Crud.start Crud.peak d) = Some ([], s') /\
    Crud.quiescent s' /\
    count Crud.rowsInserted (sink (Crud.k6 (Crud.script s'))) =
    count Crud.rowsDeleted (sink (Crud.k6 (Crud.script s'))) /\
    series Crud.rowsDeleted (sink (Crud.k6 (Crud.script s'))) = [1; 1] /\
    Spec.deleted_keys (Crud.sent (Crud.script s')) = [1; 2] /\
    Crud.perf_test (Crud.db s') = [].
Proof.
  intros ada bob turn turns d.
  set (final := match Crud.run turns (Crud.start Crud.peak d) with
                | Some (_, s) => s
                | None => Crud.start Crud.peak d
                end).
  assert (Hrun : Crud.run turns (Crud.start Crud.peak d) = Some ([], final))
    by (vm_compute; reflexivity).
  assert (Hq : Crud.quiescent final) by (vm_compute; repeat constructor).
  exists final. split; [exact Hrun|]. split; [exact Hq|].
  destruct (proj1 (C2_inserted_equals_deleted Crud.peak d turns final Hrun) Hq)
    as (Hc & _ & Hd & _ & Ht).
  split; [exact Hc|]. split; [|split].
  - rewrite Hd. vm_compute. reflexivity.
  - vm_compute. reflexivity.
  - exact Ht.
Defined.

(* ===================================================================== *)
(** * Further properties of the scripts *)
(* ===================================================================== *)

(** ** Texts: [includes], [split], [parseInt] *)

Lemma prefix_app (n h : string) :
  String.prefix n h = true <-> exists rest, h = n +:+ rest.
Proof.
  revert h. induction n as [|c n IH]; intros h.
  - split; [intros _; exists h; reflexivity | intros _; now destruct h].
  - destruct h as [|c' h]; cbn.
    + split; [discriminate | intros (rest & E); discriminate E].
    + destruct (ascii_dec c c') as [<-|Hne].
      * rewrite IH. split; intros (rest & E); exists rest.
        -- now subst.
        -- cbn in E. now injection E.
      * split; [discriminate|]. intros (rest & E). cbn in E. injection E as E _.
        congruence.
Qed.

Lemma includes_eq (needle s : string) :
  JS.includes needle s =
  if String.prefix needle s then true
  else match s with
       | EmptyString => false
       | String _ rest => JS.includes needle rest
       end.
Proof. destruct s; reflexivity. Qed.

Lemma includes_contains (needle s : string) :
  JS.includes needle s = true <-> More.contains needle s.
Proof.
  unfold More.contains. induction s as [|c s IH]; rewrite includes_eq.
  - destruct (String.prefix needle EmptyString) eqn:E.
    + split; [intros _|reflexivity]. apply prefix_app in E as (rest & E).
      exists EmptyString, rest. exact E.
    + split; [discriminate|]. intros (b & a & Eq).
      destruct b; cbn in Eq; [|discriminate Eq].
      assert (String.prefix needle EmptyString = true) by (apply prefix_app; eauto).
      congruence.
  - destruct (String.prefix needle (String c s)) eqn:E.
    + split; [intros _|reflexivity]. apply prefix_app in E as (rest & E).
      exists EmptyString, rest. exact E.
    + rewrite IH. split.
      * intros (b & a & ->). exists (String c b), a. reflexivity.
      * intros (b & a & Eq). destruct b as [|c' b]; cbn in Eq.
        -- assert (String.prefix needle (String c s) = true)
             by (apply prefix_app; eauto).
           congruence.
        -- injection Eq as _ ->. eauto.
Qed.

Lemma split_comma_free (s : string) :
  JS.split "," s <> [] /\ Forall More.comma_free (JS.split "," s).
Proof.
  induction s as [|c s [IHn IHf]]; cbn [JS.split].
  - split; [discriminate | repeat constructor].
  - destruct (Ascii.eqb_spec c ",") as [->|Hne].
    + split; [discriminate | constructor; [exact I | exact IHf]].
    + destruct (JS.split "," s) as [|h t]; [contradiction|].
      split; [discriminate|]. inversion IHf; subst.
      constructor; [split; assumption | assumption].
Qed.

Lemma split_join (s : string) : String.concat "," (JS.split "," s) = s.
Proof.
  induction s as [|c s IH]; [reflexivity|]. cbn [JS.split].
  pose proof (proj1 (split_comma_free s)) as Hne.
  destruct (JS.split "," s) as [|h t]; [contradiction|].
  destruct (Ascii.eqb c ",") eqn:Ec.
  - apply Ascii.eqb_eq in Ec as ->.
    change (String.concat "," (EmptyString :: h :: t))
      with (String "," (String.concat "," (h :: t))).
    now rewrite IH.
  - destruct t as [|h2 t].
    + change (String.concat "," [String c h]) with (String c (String.concat "," [h])).
      now rewrite IH.
    + change (String.concat "," (String c h :: h2 :: t))
        with (String c (String.concat "," (h :: h2 :: t))).
      now rewrite IH.
Qed.










(** ** The improved consumer, one invocation *)

#[local] Arguments count : simpl never.
#[local] Arguments series : simpl never.
#[local] Arguments More.failed_checks : simpl never.

Ltac consumer_run :=
  unfold Consumer.default, Consumer.reader_consume, Consumer.set_emptyReadCount,
    Consumer.set_reader; js_run; cbn.

Lemma failed_checks_app (tag : string) (a b : Metrics.sink) :
  More.failed_checks tag (a ++ b) = More.failed_checks tag a + More.failed_checks tag b.
Proof. unfold More.failed_checks. rewrite List.filter_app, length_app. lia. Qed.

Lemma consumer_empty_reads_delta cfg VU i w :
  let k := sink (Consumer.k6 w) in
  let k' := sink (Consumer.k6 (snd (Consumer.default cfg VU i w))) in
  count Consumer.emptyReads k' - count Consumer.emptyReads k =
  (count Consumer.timeoutErrors k' - count Consumer.timeoutErrors k)
  + (More.failed_checks "messages were consumed" k'
     - More.failed_checks "messages were consumed" k).
Proof.
  destruct w as [k [r|] n], i as [[e0|] [[[|m msgs]|]|e] [e1|]].
  all: consumer_run.
  all: try destruct (JS.includes _ e); cbn.
  all: try destruct (JS.ge_number _ _); cbn.
  all: rewrite ?count_app, ?failed_checks_app.
  all: unfold count, series, total, More.failed_checks; cbn; lia.
Qed.

Lemma consumer_reader_after cfg VU i w :
  let w' := snd (Consumer.default cfg VU i w) in
  let made := {| Consumer.brokers := Consumer.KAFKA_BROKERS cfg;
                 Consumer.groupTopics := [Consumer.KAFKA_TOPIC cfg];
                 Consumer.groupID := Consumer.KAFKA_GROUP_ID cfg;
                 Consumer.queueCapacity := 1000 |} in
  Consumer.reader w' =
  match Consumer.reader w, Consumer.new_Reader i with
  | None, Some _ => None
  | r, _ =>
      match Consumer.consume i with
      | Consumer.ConsumeThrows e =>
          if JS.includes "context deadline exceeded" e
          then Some (default made r)
          else None
      | Consumer.Consumed _ => Some (default made r)
      end
  end.
Proof.
  destruct w as [k [r|] n], i as [[e0|] [[[|m msgs]|]|e] [e1|]].
  all: consumer_run.
  all: try destruct (JS.includes _ e); cbn.
  all: try destruct (JS.ge_number _ _); cbn.
  all: reflexivity.
Qed.

Lemma consumer_early_return cfg VU i w :
  fst (Consumer.default cfg VU i w) = JS.Return <->
  (Consumer.reader w = None /\ Consumer.new_Reader i <> None) \/
  (More.reads i w /\ More.nothing_delivered (Consumer.consume i) = true /\
   JS.ge_number 1 (Consumer.MAX_EMPTY_READS cfg) = true).
Proof.
  unfold More.reads.
  destruct w as [k [r|] n], i as [[e0|] [[[|m msgs]|]|e] [e1|]].
  all: consumer_run.
  all: try destruct (JS.includes _ e); cbn.
  all: try destruct (JS.ge_number _ _); cbn.
  all: split; [intros H; try discriminate H | intros [[H1 H2]|(H1 & H2 & H3)]];
    try discriminate; try congruence; auto.
  all: try (right; repeat split; congruence).
  all: try (left; split; congruence).
  all: try (specialize (H1 eq_refl); discriminate).
Qed.

(** ** The improved consumer, a virtual user's run *)

Lemma consumer_loop_next cfg VU iter b i rest w :
  fst (vu_loop (fun _ => Consumer.default cfg VU) iter (S b) (i :: rest) w) =
  fst (vu_loop (fun _ => Consumer.default cfg VU) (N.succ iter) b rest
         (snd (Consumer.default cfg VU i w))).
Proof.
  cbn [vu_loop].
  pose proof (consumer_default_catches cfg VU i w) as Hc.
  destruct (Consumer.default cfg VU i w) as [[[]| |e] w1]; cbn in *.
  3: now destruct (Hc e).
  all: now destruct (vu_loop _ _ b rest w1).
Qed.

Lemma consumer_loop_empty_reads cfg VU b :
  forall inputs iter w,
  let k := sink (Consumer.k6 w) in
  let k' := sink (Consumer.k6
                    (fst (vu_loop (fun _ => Consumer.default cfg VU) iter b inputs w))) in
  count Consumer.emptyReads k' - count Consumer.emptyReads k =
  (count Consumer.timeoutErrors k' - count Consumer.timeoutErrors k)
  + (More.failed_checks "messages were consumed" k'
     - More.failed_checks "messages were consumed" k).
Proof.
  induction b as [|b IH]; intros inputs iter w; [cbn; lia|].
  destruct inputs as [|i rest]; [cbn; lia|].
  intros k k'. subst k k'. rewrite consumer_loop_next.
  specialize (IH rest (N.succ iter) (snd (Consumer.default cfg VU i w))).
  pose proof (consumer_empty_reads_delta cfg VU i w) as Hd.
  cbv zeta in IH, Hd. lia.
Qed.

(** X1. The broker list of a configuration is never empty, so
    [KAFKA_BROKERS[0]] is always an address; no address contains a comma, and
    the addresses joined by commas give back the configured text. *)
Theorem X1_broker_list_round_trip (ENV : gmap string string) :
  let brokers := Consumer.KAFKA_BROKERS (Consumer.configure ENV) in
  let brokers' := Producer.KAFKA_BROKERS (Producer.configure ENV) in
  is_Some (head brokers) /\ is_Some (head brokers') /\
  Forall More.comma_free brokers /\ Forall More.comma_free brokers' /\
  String.concat "," brokers = JS.env_or ENV "KAFKA_BROKERS" "localhost:9092" /\
  String.concat "," brokers' = JS.env_or ENV "KAFKA_BROKERS" "localhost:9094".
Proof.
  cbn.
  pose proof (split_comma_free (JS.env_or ENV "KAFKA_BROKERS" "localhost:9092")) as [N1 F1].
  pose proof (split_comma_free (JS.env_or ENV "KAFKA_BROKERS" "localhost:9094")) as [N2 F2].
  repeat split; try assumption; try apply split_join.
  - destruct (JS.split _ _); [contradiction | eexists; reflexivity].
  - destruct (JS.split "," (JS.env_or ENV "KAFKA_BROKERS" "localhost:9094"));
      [contradiction | eexists; reflexivity].
Qed.



(** X3. A [consume] error is counted as a timeout exactly when its text
    contains "context deadline exceeded" somewhere, and as a real error
    exactly when it does not. *)
Theorem X3_timeout_class_is_substring cfg VU i w e :
  Consumer.consume i = Consumer.ConsumeThrows e ->
  More.reads i w ->
  let k := sink (Consumer.k6 w) in
  let k' := sink (Consumer.k6 (snd (Consumer.default cfg VU i w))) in
  (count Consumer.timeoutErrors k' = count Consumer.timeoutErrors k + 1 <->
   More.contains "context deadline exceeded" e) /\
  (count Consumer.readerErrors k' = count Consumer.readerErrors k + 1 <->
   ~ More.contains "context deadline exceeded" e).
Proof.
  intros Hc Hr k k'. subst k k'.
  rewrite (consumer_default_on_error cfg VU i w e Hc Hr), !count_app.
  rewrite <- includes_contains.
  destruct (JS.includes _ e); unfold count, series, total; cbn; split; split;
    intros; try lia; try congruence; try reflexivity.
Qed.

(** A timeout reported inside a longer text. *)
Lemma X3_witness :
  let i := {| Consumer.new_Reader := None;
              Consumer.consume := Consumer.ConsumeThrows
                "Unable to read messages: context deadline exceeded (group k6)";
              Consumer.close := None |} in
  let k' := sink (Consumer.k6 (snd (Consumer.default (Consumer.configure ∅) 1%N i
                                      Consumer.fresh))) in
  count Consumer.timeoutErrors k' = 1.
Proof.
  intros i k'.
  apply (proj1 (X3_timeout_class_is_substring (Consumer.configure ∅) 1%N i Consumer.fresh
                  _ eq_refl (fun _ => eq_refl))).
  exists "Unable to read messages: ", " (group k6)". reflexivity.
Defined.

(** X4. The reader follows the errors: an invocation whose [consume] call
    raises a real error drops the reader, whatever [reader.close] does; the
    next invocation creates a new reader from the configuration; an
    invocation that meets no real error keeps the reader it has. *)
Theorem X4_reader_recreated_after_real_error cfg VU i1 i2 r k n e :
  Consumer.consume i1 = Consumer.ConsumeThrows e ->
  JS.includes "context deadline exceeded" e = false ->
  Consumer.new_Reader i2 = None ->
  More.nothing_delivered (Consumer.consume i2) = true
  \/ (exists msgs, Consumer.consume i2 = Consumer.Consumed msgs) ->
  let w := {| Consumer.k6 := k; Consumer.reader := Some r; Consumer.emptyReadCount := n |} in
  let w1 := snd (Consumer.default cfg VU i1 w) in
  let w2 := snd (Consumer.default cfg VU i2 w1) in
  let w3 := snd (Consumer.default cfg VU i2 w2) in
  Consumer.reader w1 = None /\
  Consumer.reader w2 = Some (More.made cfg) /\
  Consumer.reader w3 = Some (More.made cfg).
Proof.
  intros H1 He H2 Hno w w1 w2 w3.
  assert (Hw1 : Consumer.reader w1 = None).
  { subst w1. rewrite consumer_reader_after. cbn. rewrite H1, He.
    now destruct (Consumer.new_Reader i1). }
  assert (Hkeep : forall x o, Consumer.reader x = o ->
            Consumer.reader (snd (Consumer.default cfg VU i2 x)) =
            Some (default (More.made cfg) o)).
  { intros x o <-. rewrite consumer_reader_after. cbv zeta. rewrite H2.
    destruct Hno as [Hno|(msgs & Hm)].
    - destruct (Consumer.consume i2) as [msgs|e']; cbn in Hno |- *.
      + now destruct (Consumer.reader x).
      + rewrite Hno. now destruct (Consumer.reader x).
    - rewrite Hm. now destruct (Consumer.reader x). }
  split; [exact Hw1|]. split.
  - subst w2. now rewrite (Hkeep _ _ Hw1).
  - subst w3. erewrite Hkeep; [|subst w2; now rewrite (Hkeep _ _ Hw1)]. reflexivity.
Qed.

(** A broken connection, then two quiet reads. *)
Lemma X4_witness :
  let broken := {| Consumer.new_Reader := None;
                   Consumer.consume := Consumer.ConsumeThrows "EOF";
                   Consumer.close := Some "already closed" |} in
  let quiet := {| Consumer.new_Reader := None;
                  Consumer.consume := Consumer.Consumed (Some []);
                  Consumer.close := None |} in
  let cfg := Consumer.configure ∅ in
  let w := {| Consumer.k6 := K6.init; Consumer.reader := Some (More.made cfg);
              Consumer.emptyReadCount := 0 |} in
  let w1 := snd (Consumer.default cfg 1%N broken w) in
  Consumer.reader w1 = None /\
  Consumer.reader (snd (Consumer.default cfg 1%N quiet w1)) = Some (More.made cfg).
Proof.
  intros broken quiet cfg w w1.
  destruct (X4_reader_recreated_after_real_error cfg 1%N broken quiet (More.made cfg)
              K6.init 0 "EOF" eq_refl eq_refl eq_refl (or_introl eq_refl))
    as (H1 & H2 & _).
  split; [exact H1 | exact H2].
Defined.

(** X5. An invocation ends by an early [return] in two cases only: the
    reader could not be created, or the read delivered nothing and
    MAX_EMPTY_READS is a number not above 1.  With a limit of 2 or more, or a
    limit that is not a number, an invocation that reads always runs to its
    end. *)
Theorem X5_early_return_only_with_limit_at_most_1 cfg VU i w :
  (fst (Consumer.default cfg VU i w) = JS.Return <->
   (Consumer.reader w = None /\ Consumer.new_Reader i <> None) \/
   (More.reads i w /\ More.nothing_delivered (Consumer.consume i) = true /\
    exists m, Consumer.MAX_EMPTY_READS cfg = Some m /\ m <= 1)) /\
  (More.reads i w ->
   (Consumer.MAX_EMPTY_READS cfg = None \/
    exists m, Consumer.MAX_EMPTY_READS cfg = Some m /\ 2 <= m) ->
   fst (Consumer.default cfg VU i w) = JS.Normal tt).
Proof.
  assert (Hge : JS.ge_number 1 (Consumer.MAX_EMPTY_READS cfg) = true <->
                exists m, Consumer.MAX_EMPTY_READS cfg = Some m /\ m <= 1).
  { unfold JS.ge_number. destruct (Consumer.MAX_EMPTY_READS cfg) as [m|].
    - rewrite Z.leb_le. split; [eauto|]. now intros (m' & [= <-] & H).
    - split; [discriminate|]. now intros (m' & [=] & _). }
  split.
  - rewrite consumer_early_return, Hge. reflexivity.
  - intros Hr Hm.
    pose proof (consumer_early_return cfg VU i w) as Hret.
    pose proof (consumer_default_catches cfg VU i w) as Hthrow.
    destruct (fst (Consumer.default cfg VU i w)) as [[]| |e]; [reflexivity| |].
    + exfalso. destruct (proj1 Hret eq_refl) as [[Hn Hc]|(_ & _ & Hg)].
      * apply Hc, Hr, Hn.
      * apply Hge in Hg as (m & Em & Hle).
        destruct Hm as [Hm|(m' & Hm & H2)]; rewrite Em in Hm; [discriminate|].
        injection Hm as <-. lia.
    + now destruct (Hthrow e).
Qed.

(** X6. An invocation sleeps one second exactly when it has read without
    getting a message and runs to its end; it does not sleep after a batch
    of messages, nor when it returns early. *)
Theorem X6_sleep_only_after_fruitless_read cfg VU i w :
  slept (Consumer.k6 (snd (Consumer.default cfg VU i w))) =
  slept (Consumer.k6 w) +
  match fst (Consumer.default cfg VU i w), Consumer.consume i with
  | JS.Normal _, Consumer.Consumed msgs => if Consumer.non_empty msgs then 0 else 1
  | JS.Normal _, Consumer.ConsumeThrows _ => 1
  | _, _ => 0
  end.
Proof.
  destruct w as [k [r|] n], i as [[e0|] [[[|m msgs]|]|e] [e1|]].
  all: consumer_run.
  all: try destruct (JS.includes _ e); cbn.
  all: try destruct (JS.ge_number _ _); cbn.
  all: lia.
Qed.

(** X7. Along the run of a virtual user [kafka_empty_reads] counts exactly
    the reads that delivered nothing: the timeouts, counted in
    [kafka_timeout_errors], and the empty batches, each a failed
    "messages were consumed" check. *)
Theorem X7_empty_reads_are_timeouts_and_empty_batches cfg VU inputs :
  let k := sink (Consumer.k6 (fst (Consumer.run_vu cfg VU inputs Consumer.fresh))) in
  count Consumer.emptyReads k =
  count Consumer.timeoutErrors k + More.failed_checks "messages were consumed" k.
Proof.
  pose proof (consumer_loop_empty_reads cfg VU (Consumer.iterations Consumer.options)
                inputs 0%N Consumer.fresh) as H.
  cbv zeta in H. unfold Consumer.run_vu. cbv zeta.
  change (sink (Consumer.k6 Consumer.fresh)) with (@nil sample) in H.
  change (count Consumer.emptyReads []) with 0 in H.
  change (count Consumer.timeoutErrors []) with 0 in H.
  change (More.failed_checks "messages were consumed" []) with 0 in H.
  lia.
Qed.

Lemma consumer_byte_total_shift (msgs : list Consumer.message) (z : Z) :
  fold_left (fun acc msg => acc + Consumer.len (Consumer.key msg)
                                + Consumer.len (Consumer.value msg)) msgs z =
  z + Consumer.byte_total msgs.
Proof.
  unfold Consumer.byte_total. revert z.
  induction msgs as [|m msgs IH]; intros z; cbn; [lia|].
  rewrite IH, (IH (0 + _ + _)). lia.
Qed.

Lemma consumer_byte_total_app (a b : list Consumer.message) :
  Consumer.byte_total (a ++ b) = Consumer.byte_total a + Consumer.byte_total b.
Proof.
  unfold Consumer.byte_total at 1. rewrite fold_left_app.
  fold (Consumer.byte_total a). apply consumer_byte_total_shift.
Qed.

Lemma consumer_received_delta cfg VU i w :
  More.reads i w ->
  let k := sink (Consumer.k6 w) in
  let k' := sink (Consumer.k6 (snd (Consumer.default cfg VU i w))) in
  count Consumer.consumedMessages k' =
    count Consumer.consumedMessages k + Z.of_nat (length (More.got i)) /\
  count Consumer.consumedBytes k' =
    count Consumer.consumedBytes k + Consumer.byte_total (More.got i).
Proof.
  unfold More.reads, More.got.
  destruct w as [k [r|] n], i as [[e0|] [[[|m msgs]|]|e] [e1|]]; cbn; intros Hr.
  all: try (specialize (Hr eq_refl); discriminate Hr).
  all: consumer_run.
  all: try destruct (JS.includes _ e); cbn.
  all: try destruct (JS.ge_number _ _); cbn.
  all: rewrite ?count_app.
  all: try change (Consumer.byte_total []) with 0.
  all: unfold count, series, total; cbn; split; lia.
Qed.

Lemma consumer_loop_received cfg VU b :
  forall inputs iter w,
  Forall (fun i => Consumer.new_Reader i = None) inputs ->
  let k := sink (Consumer.k6 w) in
  let k' := sink (Consumer.k6
                    (fst (vu_loop (fun _ => Consumer.default cfg VU) iter b inputs w))) in
  count Consumer.consumedMessages k' =
    count Consumer.consumedMessages k
    + Z.of_nat (length (flat_map More.got (firstn b inputs))) /\
  count Consumer.consumedBytes k' =
    count Consumer.consumedBytes k
    + Consumer.byte_total (flat_map More.got (firstn b inputs)).
Proof.
  induction b as [|b IH]; intros inputs iter w Hnew;
    [rewrite firstn_O; cbn; change (Consumer.byte_total []) with 0; split; lia|].
  destruct inputs as [|i rest];
    [rewrite firstn_nil; cbn; change (Consumer.byte_total []) with 0; split; lia|].
  inversion Hnew as [|? ? Hi Hrest]; subst.
  intros k k'. subst k k'. rewrite consumer_loop_next.
  specialize (IH rest (N.succ iter) (snd (Consumer.default cfg VU i w)) Hrest).
  pose proof (consumer_received_delta cfg VU i w (fun _ => Hi)) as Hd.
  cbv zeta in IH, Hd. destruct IH as [IH1 IH2], Hd as [Hd1 Hd2].
  rewrite firstn_cons. cbn [flat_map].
  rewrite length_app, consumer_byte_total_app. split; lia.
Qed.

(** X8. When the reader can always be created, the two volume counters of
    a virtual user's run are the number and the total size (key and value
    bytes, a missing key or value counting 0) of the messages that the reads
    of its invocations returned. *)
Theorem X8_volume_counters_match_messages cfg VU inputs :
  Forall (fun i => Consumer.new_Reader i = None) inputs ->
  let k := sink (Consumer.k6 (fst (Consumer.run_vu cfg VU inputs Consumer.fresh))) in
  let messages :=
    flat_map More.got (firstn (Consumer.iterations Consumer.options) inputs) in
  count Consumer.consumedMessages k = Z.of_nat (length messages) /\
  count Consumer.consumedBytes k = Consumer.byte_total messages.
Proof.
  intros Hnew.
  pose proof (consumer_loop_received cfg VU (Consumer.iterations Consumer.options)
                inputs 0%N Consumer.fresh Hnew) as H.
  cbv zeta in H. unfold Consumer.run_vu. cbv zeta.
  change (sink (Consumer.k6 Consumer.fresh)) with (@nil sample) in H.
  change (count Consumer.consumedMessages []) with 0 in H.
  change (count Consumer.consumedBytes []) with 0 in H.
  destruct H as [H1 H2]. split; lia.
Qed.

(** Two batches, a key missing in the second, and a timeout in between. *)
Lemma X8_witness :
  let read msgs := {| Consumer.new_Reader := None;
                      Consumer.consume := Consumer.Consumed (Some msgs);
                      Consumer.close := None |} in
  let timeout := {| Consumer.new_Reader := None;
                    Consumer.consume := Consumer.ConsumeThrows "context deadline exceeded";
                    Consumer.close := None |} in
  let inputs :=
    [ read [ {| Consumer.key := Some "k1"; Consumer.value := Some "hello" |};
             {| Consumer.key := Some "k2"; Consumer.value := Some "world" |} ];
      timeout;
      read [ {| Consumer.key := None; Consumer.value := Some "!" |} ] ] in
  let k := sink (Consumer.k6 (fst (Consumer.run_vu (Consumer.configure ∅) 1%N inputs
                                     Consumer.fresh))) in
  count Consumer.consumedMessages k = 3 /\ count Consumer.consumedBytes k = 15.
Proof.
  intros read timeout inputs k.
  apply (X8_volume_counters_match_messages (Consumer.configure ∅) 1%N inputs).
  repeat constructor.
Defined.

(** ** [setup] of the improved consumer *)

Ltac hooks_run :=
  unfold ConsumerHooks.setup, ConsumerHooks.connection_listTopics,
    ConsumerHooks.connection_close, ConsumerHooks.perform; js_run; cbn.

(** X9. [setup] of the improved consumer makes its calls in a fixed order:
    [new Connection] on the first broker; if it returns, [listTopics] and
    [connection.close]; and a second [close], in the [catch] block, exactly
    when [listTopics] returned and the first [close] threw.  [setup] returns
    when no call failed and otherwise throws the error of the last call that
    failed, so a failing [close] in the [catch] block masks the error being
    handled.  It returns exactly when [new Connection], [listTopics] and
    [close] all return, and then reports the topic verified whatever topics
    were listed: the list is never inspected.  When it throws, it prints the
    "Setup failed" line with the error thrown if the last call returned, and
    nothing if the last call failed.  [close] is never called on a connection
    that could not be made, and no sample is emitted. *)
Theorem X9_consumer_setup_outcome cfg i :
  let r := ConsumerHooks.setup cfg i ConsumerHooks.fresh in
  let made := ConsumerHooks.calls (snd r) in
  let closes := length (List.filter ConsumerHooks.is_close made) in
  let connected := (ConsumerHooks.Connect (head (Consumer.KAFKA_BROKERS cfg)),
                    ConsumerHooks.connect i) in
  let listed := (ConsumerHooks.ListTopics,
                 match ConsumerHooks.listTopics i with
                 | inl e => Some e
                 | inr _ => None
                 end) in
  let closed n := (ConsumerHooks.Close, ConsumerHooks.close i n) in
  made = connected ::
         match ConsumerHooks.connect i with
         | Some _ => []
         | None =>
             listed :: closed 0%nat ::
             match ConsumerHooks.listTopics i, ConsumerHooks.close i 0%nat with
             | inr _, Some _ => [closed 1%nat]
             | _, _ => []
             end
         end /\
  fst r = match More.last_failure made with
          | Some e => JS.Throw e
          | None => JS.Normal tt
          end /\
  console (ConsumerHooks.k6 (snd r)) =
    match fst r with
    | JS.Throw e =>
        if More.last_returned made
        then [(Error, "Setup failed - topic may not exist: " +:+ e)]
        else []
    | _ => [(Log, "Consumer setup complete. Topic '" +:+ Consumer.KAFKA_TOPIC cfg
                  +:+ "' verified.")]
    end /\
  (fst r = JS.Normal tt <->
   ConsumerHooks.connect i = None /\
   (exists topics, ConsumerHooks.listTopics i = inr topics) /\
   ConsumerHooks.close i 0%nat = None) /\
  (ConsumerHooks.connect i <> None -> closes = 0%nat) /\
  (ConsumerHooks.connect i = None -> (1 <= closes <= 2)%nat) /\
  sink (ConsumerHooks.k6 (snd r)) = [].
Proof.
  destruct i as [[e0|] [e1|topics] cl]; hooks_run.
  all: destruct (cl 0%nat) as [e2|] eqn:E0; cbn; rewrite ?E0; cbn.
  all: try (destruct (cl 1%nat) as [e3|] eqn:E1; cbn; rewrite ?E1; cbn).
  all: repeat match goal with |- _ /\ _ => split end.
  all: try reflexivity.
  all: try (split; [intros H; discriminate H | intros (H1 & (t & H2) & H3); congruence]).
  all: try (split; [intros _; repeat split; eauto | reflexivity]).
  all: try (intros H; congruence).
  all: try (intros _; lia).
Qed.

(** ** The other lifecycle hooks *)

(** X10. The hooks of the improved scripts swallow every backend error:
    [setup] and [teardown] of the improved producer and [teardown] of the
    improved consumer never throw and emit no sample, whatever call fails
    ([setup] then skips its two-second pause).  The original scripts do not:
    [teardown] of the original producer and of the original consumer throw
    exactly when [close] throws, and then do not print their final line. *)
Theorem X10_hooks_error_behaviour :
  (forall cfg o w,
     fst (Producer.setup cfg o w) = JS.Normal tt /\
     sink (Kafka.k6 (snd (Producer.setup cfg o w))) = sink (Kafka.k6 w) /\
     slept (Kafka.k6 (snd (Producer.setup cfg o w))) =
       slept (Kafka.k6 w) + match o with Some _ => 0 | None => 2 end) /\
  (forall cfg i w,
     fst (Producer.teardown cfg i w) = JS.Normal tt /\
     sink (Kafka.k6 (snd (Producer.teardown cfg i w))) = sink (Kafka.k6 w)) /\
  (forall cfg o w,
     fst (ConsumerHooks.teardown cfg o w) = JS.Normal tt /\
     sink (Consumer.k6 (snd (ConsumerHooks.teardown cfg o w))) = sink (Consumer.k6 w) /\
     (Consumer.reader w = None -> snd (ConsumerHooks.teardown cfg o w) = w)) /\
  (forall cfg o w,
     fst (ProducerV1.teardown cfg o w) =
       match o with Some e => JS.Throw e | None => JS.Normal tt end /\
     (o <> None ->
      console (Kafka.k6 (snd (ProducerV1.teardown cfg o w))) = console (Kafka.k6 w))) /\
  (forall cfg o k,
     fst (ConsumerV1.teardown cfg o k) =
       match o with Some e => JS.Throw e | None => JS.Normal tt end /\
     (o <> None -> snd (ConsumerV1.teardown cfg o k) = k)).
Proof.
  repeat match goal with |- _ /\ _ => split end.
  - intros cfg [e|] w; unfold Producer.setup, Kafka.perform; js_run; cbn;
      repeat split; lia.
  - intros cfg [[e1|] [e2|] [e3|]] w; destruct cfg as [b t [|]];
      unfold Producer.teardown, Kafka.perform; js_run; cbn; split; reflexivity.
  - intros cfg [e|] [k [r|] n]; unfold ConsumerHooks.teardown; js_run; cbn;
      repeat split; intros; congruence.
  - intros cfg [e|] w; unfold ProducerV1.teardown, Kafka.perform; js_run; cbn;
      split; intros; congruence.
  - intros cfg [e|] k; unfold ConsumerV1.teardown; js_run; cbn;
      split; intros; congruence.
Qed.

(** ** The original consumer *)

Lemma v1_reduce_complete TypeError (msgs : list Consumer.message) (acc : Z) (k : K6.state) :
  More.complete msgs ->
  ConsumerV1.reduce TypeError msgs acc k = (JS.Normal (acc + Consumer.byte_total msgs), k).
Proof.
  intros Hc. revert acc. induction Hc as [|m msgs [Hk Hv] _ IH]; intros acc.
  - cbn. change (Consumer.byte_total []) with 0. now rewrite Z.add_0_r.
  - cbn [ConsumerV1.reduce]. unfold ConsumerV1.length_or_0.
    destruct (Consumer.key m) as [ky|] eqn:Ek; [|contradiction].
    destruct (Consumer.value m) as [vl|] eqn:Ev; [|contradiction].
    js_run. rewrite IH. f_equal. f_equal.
    change (m :: msgs) with ([m] ++ msgs). rewrite consumer_byte_total_app.
    unfold Consumer.byte_total at 2. cbn. rewrite Ek, Ev. cbn. lia.
Qed.

Lemma v1_reduce_incomplete TypeError (msgs : list Consumer.message) (acc : Z) (k : K6.state) :
  ~ More.complete msgs ->
  ConsumerV1.reduce TypeError msgs acc k = (JS.Throw TypeError, k).
Proof.
  revert acc. induction msgs as [|m msgs IH]; intros acc Hn.
  - destruct Hn. constructor.
  - cbn [ConsumerV1.reduce]. unfold ConsumerV1.length_or_0.
    destruct (Consumer.key m) as [ky|] eqn:Ek; [|reflexivity].
    destruct (Consumer.value m) as [vl|] eqn:Ev; [|js_run; reflexivity].
    js_run. apply IH. intros Hc. apply Hn. constructor; [|exact Hc].
    rewrite Ek, Ev. split; discriminate.
Qed.

#[local] Arguments ConsumerV1.reduce : simpl never.

(** X11. On a batch in which every message has its key and its value, the
    original and the improved consumer add the same samples to
    [kafka_messages_read_count] and [kafka_consumed_bytes]: the batch length
    and the total of key and value bytes. *)
Theorem X11_consumers_agree_on_complete_batches TypeError cfg VU i w k m msgs :
  More.complete (m :: msgs) ->
  More.reads i w ->
  Consumer.consume i = Consumer.Consumed (Some (m :: msgs)) ->
  let old := snd (ConsumerV1.default TypeError
                    {| ConsumerV1.consume := inr (m :: msgs) |} k) in
  let new := Consumer.k6 (snd (Consumer.default cfg VU i w)) in
  series ConsumerV1.consumedMessages (sink old) =
    series ConsumerV1.consumedMessages (sink k) ++ [Z.of_nat (length (m :: msgs))] /\
  series ConsumerV1.consumedBytes (sink old) =
    series ConsumerV1.consumedBytes (sink k) ++ [Consumer.byte_total (m :: msgs)] /\
  series Consumer.consumedMessages (sink new) =
    series Consumer.consumedMessages (sink (Consumer.k6 w))
      ++ [Z.of_nat (length (m :: msgs))] /\
  series Consumer.consumedBytes (sink new) =
    series Consumer.consumedBytes (sink (Consumer.k6 w))
      ++ [Consumer.byte_total (m :: msgs)].
Proof.
  intros Hc Hr Hi old new. subst old new.
  split; [|split].
  1,2: unfold ConsumerV1.default; js_run; cbn;
       rewrite (v1_reduce_complete TypeError (m :: msgs) 0 _ Hc); cbn;
       rewrite !series_app; unfold series; cbn; now rewrite ?app_nil_r.
  unfold More.reads in Hr.
  destruct w as [k0 [r|] n], i as [[e0|] c [e1|]]; cbn in Hi, Hr; subst c.
  all: try (specialize (Hr eq_refl); discriminate Hr).
  all: consumer_run; rewrite !series_app; unfold series; cbn;
       now rewrite ?app_nil_r.
Qed.

(** A batch of two complete messages. *)
Lemma X11_witness :
  let batch := [ {| Consumer.key := Some "k1"; Consumer.value := Some "hello" |};
                 {| Consumer.key := Some "k2"; Consumer.value := Some "world" |} ] in
  let i := {| Consumer.new_Reader := None;
              Consumer.consume := Consumer.Consumed (Some batch);
              Consumer.close := None |} in
  series ConsumerV1.consumedBytes
    (sink (snd (ConsumerV1.default "TypeError" {| ConsumerV1.consume := inr batch |} K6.init)))
  = [14] /\
  series Consumer.consumedBytes
    (sink (Consumer.k6 (snd (Consumer.default (Consumer.configure ∅) 1%N i Consumer.fresh))))
  = [14].
Proof.
  intros batch i.
  assert (Hc : More.complete batch) by (repeat constructor; discriminate).
  destruct (X11_consumers_agree_on_complete_batches "TypeError" (Consumer.configure ∅)
              1%N i Consumer.fresh K6.init _ _ Hc (fun _ => eq_refl) eq_refl)
    as (_ & H2 & _ & H4).
  split; [exact H2 | exact H4].
Defined.

(** X12. The original consumer handles no error: a [consume] error leaves
    the invocation as it came, with no sample, no line and no pause; and a
    message without key or value makes the byte total throw after the batch
    was counted, so [kafka_messages_read_count] grows and
    [kafka_consumed_bytes] does not.  The improved consumer counts such a
    batch, a missing key or value as 0 bytes. *)
Theorem X12_original_consumer_lets_errors_escape TypeError :
  (forall e k,
     ConsumerV1.default TypeError {| ConsumerV1.consume := inl e |} k = (JS.Throw e, k)) /\
  (forall m msgs k,
     ~ More.complete (m :: msgs) ->
     let r := ConsumerV1.default TypeError {| ConsumerV1.consume := inr (m :: msgs) |} k in
     fst r = JS.Throw TypeError /\
     series ConsumerV1.consumedMessages (sink (snd r)) =
       series ConsumerV1.consumedMessages (sink k) ++ [Z.of_nat (length (m :: msgs))] /\
     series ConsumerV1.consumedBytes (sink (snd r)) =
       series ConsumerV1.consumedBytes (sink k)) /\
  (forall cfg VU i w m msgs,
     More.reads i w ->
     Consumer.consume i = Consumer.Consumed (Some (m :: msgs)) ->
     fst (Consumer.default cfg VU i w) = JS.Normal tt /\
     series Consumer.consumedBytes (sink (Consumer.k6 (snd (Consumer.default cfg VU i w)))) =
       series Consumer.consumedBytes (sink (Consumer.k6 w))
         ++ [Consumer.byte_total (m :: msgs)]).
Proof.
  split; [|split].
  - intros e k. reflexivity.
  - intros m msgs k Hn r. subst r. unfold ConsumerV1.default. js_run. cbn.
    rewrite (v1_reduce_incomplete TypeError (m :: msgs) 0 _ Hn). cbn.
    rewrite !series_app. unfold series. cbn. now rewrite ?app_nil_r.
  - intros cfg VU i w m msgs Hr Hi. unfold More.reads in Hr.
    destruct w as [k0 [r|] n], i as [[e0|] c [e1|]]; cbn in Hi, Hr; subst c.
    all: try (specialize (Hr eq_refl); discriminate Hr).
    all: consumer_run; rewrite !series_app; unfold series; cbn;
         now rewrite ?app_nil_r.
Qed.

(** A batch whose second message has no key. *)
Lemma X12_witness :
  let batch := [ {| Consumer.key := Some "k1"; Consumer.value := Some "hello" |};
                 {| Consumer.key := None; Consumer.value := Some "world" |} ] in
  let r := ConsumerV1.default "TypeError" {| ConsumerV1.consume := inr batch |} K6.init in
  fst r = JS.Throw "TypeError" /\
  series ConsumerV1.consumedMessages (sink (snd r)) = [2] /\
  series ConsumerV1.consumedBytes (sink (snd r)) = [].
Proof.
  intros batch r.
  apply (proj1 (proj2 (X12_original_consumer_lets_errors_escape "TypeError"))).
  intros Hc. inversion Hc as [|? ? _ Hrest]; subst.
  inversion Hrest as [|? ? [Hk _] _]; subst. now apply Hk.
Defined.

(** ** The producers: metrics against the calls *)

Lemma delivered_app (t u : Kafka.trace) :
  More.delivered (t ++ u) = More.delivered t ++ More.delivered u.
Proof.
  induction t as [|[c o] t IH]; [reflexivity|].
  destruct c, o; cbn; rewrite IH; now rewrite ?app_assoc.
Qed.

Lemma kafka_byte_total_shift (msgs : list Kafka.message) (z : Z) :
  fold_left (fun acc msg => acc + Z.of_nat (String.length (Kafka.key msg))
                                + Z.of_nat (String.length (Kafka.value msg))) msgs z =
  z + Kafka.byte_total msgs.
Proof.
  unfold Kafka.byte_total. revert z.
  induction msgs as [|m msgs IH]; intros z; cbn; [lia|].
  rewrite IH, (IH (0 + _ + _)). lia.
Qed.

Lemma kafka_byte_total_app (a b : list Kafka.message) :
  Kafka.byte_total (a ++ b) = Kafka.byte_total a + Kafka.byte_total b.
Proof.
  unfold Kafka.byte_total at 1. rewrite fold_left_app.
  fold (Kafka.byte_total a). apply kafka_byte_total_shift.
Qed.

Lemma producer_run_delivered json (schedule : list (N * N * Producer.input)) :
  forall w,
  let w' := Kafka.run (Producer.default json) schedule w in
  count Producer.producedMessages (sink (Kafka.k6 w')) -
    Z.of_nat (length (More.delivered (Kafka.calls w'))) =
  count Producer.producedMessages (sink (Kafka.k6 w)) -
    Z.of_nat (length (More.delivered (Kafka.calls w))) /\
  count Producer.producedBytes (sink (Kafka.k6 w')) -
    Kafka.byte_total (More.delivered (Kafka.calls w')) =
  count Producer.producedBytes (sink (Kafka.k6 w)) -
    Kafka.byte_total (More.delivered (Kafka.calls w)) /\
  length (Kafka.calls w') = (length (Kafka.calls w) + length schedule)%nat.
Proof.
  induction schedule as [|[[VU ITER] inp] rest IH]; intros w.
  - cbn. repeat split; lia.
  - cbv zeta. cbn [Kafka.run fold_left]. rewrite producer_default_eq.
    unfold Kafka.run in IH. cbv zeta in IH.
    match goal with
    | |- context [fold_left _ rest ?x] => destruct (IH x) as (IH1 & IH2 & IH3)
    end.
    rewrite IH1, IH2, IH3. clear IH IH1 IH2 IH3.
    cbn [Kafka.k6 Kafka.calls pause sink].
    rewrite delivered_app, !length_app, kafka_byte_total_app. cbn [length].
    destruct (Producer.produce inp) as [e|]; cbn [More.delivered emit print sink].
    + rewrite !count_app. unfold count, series, total; cbn.
      change (Kafka.byte_total []) with 0. repeat split; lia.
    + rewrite !count_app, app_nil_r, producer_batch_length.
      unfold count, series, total; cbn. repeat split; lia.
Qed.

Lemma producerV1_run_delivered json (schedule : list (N * N * ProducerV1.input)) :
  forall w,
  let w' := Kafka.run (ProducerV1.default json) schedule w in
  count ProducerV1.producedBytes (sink (Kafka.k6 w')) -
    Kafka.byte_total (More.delivered (Kafka.calls w')) =
  count ProducerV1.producedBytes (sink (Kafka.k6 w)) -
    Kafka.byte_total (More.delivered (Kafka.calls w)) /\
  length (Kafka.calls w') = (length (Kafka.calls w) + length schedule)%nat.
Proof.
  induction schedule as [|[[VU ITER] inp] rest IH]; intros w.
  - cbn. repeat split; lia.
  - cbv zeta. cbn [Kafka.run fold_left]. rewrite producerV1_default_eq.
    unfold Kafka.run in IH. cbv zeta in IH.
    match goal with
    | |- context [fold_left _ rest ?x] => destruct (IH x) as (IH1 & IH2)
    end.
    rewrite IH1, IH2. clear IH IH1 IH2.
    cbn [Kafka.k6 Kafka.calls pause sink].
    rewrite delivered_app, !length_app, kafka_byte_total_app. cbn [length].
    destruct (ProducerV1.produce inp) as [e|]; cbn [More.delivered emit print sink].
    + change (Kafka.byte_total []) with 0. repeat split; lia.
    + rewrite !count_app, app_nil_r.
      unfold count, series, total; cbn. repeat split; lia.
Qed.

(** X13. At the end of every producer run, failed invocations included,
    the volume counters agree with the calls: [kafka_produced_messages] is
    the number of messages of the [produce] calls that returned,
    [kafka_produced_bytes] is the total of their key and value bytes, and
    every invocation has made exactly one [produce] call. *)
Theorem X13_producer_counters_match_delivered jsonV1 json
    (scheduleV1 : list (N * N * ProducerV1.input))
    (schedule : list (N * N * Producer.input)) :
  let w1 := Kafka.run (ProducerV1.default jsonV1) scheduleV1 Kafka.fresh in
  let w := Kafka.run (Producer.default json) schedule Kafka.fresh in
  count Producer.producedMessages (sink (Kafka.k6 w)) =
    Z.of_nat (length (More.delivered (Kafka.calls w))) /\
  count Producer.producedBytes (sink (Kafka.k6 w)) =
    Kafka.byte_total (More.delivered (Kafka.calls w)) /\
  count ProducerV1.producedBytes (sink (Kafka.k6 w1)) =
    Kafka.byte_total (More.delivered (Kafka.calls w1)) /\
  length (Kafka.calls w) = length schedule /\
  length (Kafka.calls w1) = length scheduleV1.
Proof.
  intros w1 w.
  destruct (producer_run_delivered json schedule Kafka.fresh) as (H1 & H2 & H3).
  destruct (producerV1_run_delivered jsonV1 scheduleV1 Kafka.fresh) as (H4 & H5).
  fold w in H1, H2, H3. fold w1 in H4, H5. cbn in H1, H2, H3, H4, H5.
  change (Kafka.byte_total []) with 0 in *.
  change (count Producer.producedMessages []) with 0 in *.
  change (count Producer.producedBytes []) with 0 in *.
  change (count ProducerV1.producedBytes []) with 0 in *.
  repeat split; lia.
Qed.

(** ** The CRUD invocation, statement by statement *)

(** X14. An invocation of the CRUD workload sends INSERT, UPDATE, SELECT,
    DELETE in this order, the last three on the id that the INSERT returned,
    each only after the one before returned.  The INSERT is always sent; it
    is the only statement when it throws or returns no truthy id.  The
    DELETE is sent exactly when the UPDATE and the SELECT returned: an
    UPDATE or SELECT that throws ends the invocation with that error and
    with the inserted row left behind. *)
Theorem X14_statements_in_order inp w :
  let w' := snd (Crud.default inp w) in
  let outcome := fst (Crud.default inp w) in
  let insert := Crud.INSERT (Crud.firstName (Crud.fake inp)) (Crud.lastName (Crud.fake inp))
                            (Crud.email_ (Crud.fake inp)) in
  let last := Crud.fake_lastName inp in
  (forall e, Crud.inserted inp = inl e ->
     Crud.sent w' = Crud.sent w ++ [insert] /\ outcome = JS.Throw e) /\
  (forall rows, Crud.inserted inp = inr rows -> Crud.truthy_id rows = None ->
     Crud.sent w' = Crud.sent w ++ [insert] /\ outcome = JS.Normal tt) /\
  (forall rows i, Crud.inserted inp = inr rows -> Crud.truthy_id rows = Some i ->
     (forall e, Crud.updated inp = inl e ->
        Crud.sent w' = Crud.sent w ++ [insert; Crud.UPDATE last i] /\
        outcome = JS.Throw e) /\
     (forall n e, Crud.updated inp = inr n -> Crud.selected inp = inl e ->
        Crud.sent w' = Crud.sent w ++ [insert; Crud.UPDATE last i; Crud.SELECT i] /\
        outcome = JS.Throw e) /\
     (forall n got, Crud.updated inp = inr n -> Crud.selected inp = inr got ->
        Crud.sent w' =
          Crud.sent w ++ [insert; Crud.UPDATE last i; Crud.SELECT i; Crud.DELETE i] /\
        outcome = match Crud.deleted inp with
                  | inl e => JS.Throw e
                  | inr _ => JS.Normal tt
                  end)).
Proof.
  destruct inp as [p last t1 t2 t3 t4 ins upd sel del].
  cbn [Crud.fake Crud.fake_lastName Crud.inserted Crud.updated Crud.selected Crud.deleted].
  cbv zeta. split; [|split].
  - intros e ->. crud_run. split; reflexivity.
  - intros rows -> Et. crud_run. rewrite Et. split; reflexivity.
  - intros rows i -> Et. split; [|split].
    + intros e ->. crud_run. rewrite Et. cbn. rewrite <- !app_assoc. split; reflexivity.
    + intros n e -> ->. crud_run. rewrite Et. cbn. rewrite <- !app_assoc.
      split; reflexivity.
    + intros n got -> ->. crud_run. rewrite Et. cbn.
      destruct del as [e|m]; cbn; rewrite <- !app_assoc; split; reflexivity.
Qed.

(** ** The concurrent CRUD system, failed invocations included *)

Lemma rates_emit (m : metric) (v : Z) (tag : string) (k : K6.state) :
  (m_type m = Rate -> v = 1) ->
  More.rates_all_true (sink k) -> More.rates_all_true (sink (emit m v tag k)).
Proof.
  intros Hv Hk. unfold emit. cbn [sink]. apply Forall_app. split; [assumption|].
  repeat constructor. exact Hv.
Qed.

Lemma sound_start (n : nat) (d : Crud.database) : More.sound (Crud.start n d).
Proof.
  constructor; cbn; rewrite ?inflight_idle; try lia; try constructor; try tauto.
Qed.

(** The rows of virtual users other than the one that leaves are kept. *)
Lemma sound_release (l1 l2 : list Crud.position) (i : Z) (ids : list Z) :
  List.NoDup (Spec.inflight l1 ++ [i] ++ Spec.inflight l2) ->
  (forall j, In j (Spec.inflight l1 ++ [i] ++ Spec.inflight l2) -> In j ids) ->
  List.NoDup (Spec.inflight (l1 ++ Crud.Idle :: l2)) /\
  (forall j, In j (Spec.inflight (l1 ++ Crud.Idle :: l2)) -> In j ids /\ j <> i).
Proof.
  intros Hnd Hst. rewrite inflight_app. cbn.
  apply distinct_remove_middle in Hnd as [Hnd Hni]. split; [assumption|].
  intros j Hj. split.
  - apply Hst. apply in_app_iff. apply in_app_iff in Hj as [Hj|Hj]; [tauto|].
    right. now right.
  - intros ->. contradiction.
Qed.

(** The ids of the table after a statement: an INSERT keeps them all, an
    UPDATE or a SELECT changes none, a DELETE removes its key only. *)
Lemma execute_ids (st : Crud.statement) (d : Crud.database) (j : Z) :
  In j (Spec.ids d) ->
  match st with
  | Crud.DELETE i => j <> i
  | _ => True
  end ->
  In j (Spec.ids (snd (Crud.execute st d))).
Proof.
  intros Hj Hst. destruct st as [first last mail|last i|i|i]; cbn [Crud.execute Crud.reply].
  - destruct (exec_insert_cases first last mail d) as (_ & [[_ Et]|[_ Et]]);
      unfold Spec.ids in *; rewrite Et; [assumption|].
    rewrite map_app. apply in_app_iff. now left.
  - destruct (exec_update_cases last i d) as (_ & Ei & _). now rewrite Ei.
  - exact Hj.
  - unfold Spec.ids in *. cbn. apply ids_without. now split.
Qed.

Lemma step_sound (t : Crud.turn) (s s' : Crud.system) (e : option string) :
  Crud.step t s = Some (e, s') -> More.sound s -> More.sound s'.
Proof.
  intros Hstep [Hseq Hbelow Hids Hfl Hstored Hrates].
  destruct (Crud.vus s !! Crud.who t) as [p|] eqn:Hp;
    [|unfold Crud.step in Hstep; rewrite Hp in Hstep; discriminate].
  destruct (pool_split _ _ _ Hp) as (l1 & l2 & Hpool & Hupd).
  rewrite Hpool, inflight_app in Hfl, Hstored.
  cbn [Spec.inflight flat_map] in Hfl, Hstored.
  fold (Spec.inflight l2) in Hfl, Hstored.
  destruct p as [|i|i|i].
  - (* INSERT *)
    cbn [Spec.holds app] in Hfl, Hstored.
    set (st := Crud.INSERT (Crud.firstName (Crud.faked t)) (Crud.lastName (Crud.faked t))
                 (Crud.email_ (Crud.faked t))).
    pose proof (execute_table st (Crud.db s) Hseq Hbelow Hids) as (Tseq & Tbelow & Tids).
    assert (Tkept : forall j, In j (Spec.inflight l1 ++ Spec.inflight l2) ->
                              In j (Spec.ids (snd (Crud.execute st (Crud.db s)))))
      by (intros j Hj; apply execute_ids; [now apply Hstored | exact I]).
    assert (Hsame : Spec.inflight (l1 ++ Crud.Idle :: l2) =
                    Spec.inflight l1 ++ Spec.inflight l2)
      by (now rewrite inflight_app).
    subst st. cbn [Crud.execute Crud.reply] in Tseq, Tbelow, Tids, Tkept.
    rewrite (step_insert t s Hp) in Hstep. cbv zeta in Hstep.
    destruct (exec_insert_cases (Crud.firstName (Crud.faked t))
                (Crud.lastName (Crud.faked t)) (Crud.email_ (Crud.faked t)) (Crud.db s))
      as (Es & Hcase).
    destruct (Crud.fault t) as [[x|x]|].
    + injection Hstep as <- <-.
      constructor; crud_fields; rewrite ?Hupd, ?Hsame; assumption.
    + injection Hstep as <- <-.
      constructor; crud_fields; rewrite ?Hupd, ?Hsame; assumption.
    + destruct Hcase as [[(x & Ef) Et]|[Ef Et]]; rewrite Ef in Hstep.
      * injection Hstep as <- <-.
        constructor; crud_fields; rewrite ?Hupd, ?Hsame; assumption.
      * cbn [Crud.truthy_id] in Hstep.
        destruct (Z.eqb_spec (Crud.perf_test_id_seq (Crud.db s)) 0) as [E|E]; [lia|].
        injection Hstep as <- <-.
        assert (Hfresh : ~ In (Crud.perf_test_id_seq (Crud.db s)) (Spec.ids (Crud.db s)))
          by (intros Hin; apply Hbelow in Hin; lia).
        constructor; crud_fields; try assumption; rewrite ?Hupd, ?inflight_app;
          cbn [Spec.inflight flat_map Spec.holds app]; fold (Spec.inflight l2).
        -- apply distinct_insert_middle; [assumption|].
           intros Hin. apply Hfresh, Hstored, Hin.
        -- intros j Hj. apply in_app_iff in Hj as [Hj|[<-|Hj]].
           ++ apply Tkept, in_app_iff. now left.
           ++ unfold Spec.ids. rewrite Et, map_app. apply in_app_iff. right. now left.
           ++ apply Tkept, in_app_iff. now right.
        -- repeat (apply rates_emit; [cbn; intros; congruence|]). assumption.
  - (* UPDATE *)
    cbn [Spec.holds] in Hfl, Hstored.
    destruct (sound_release l1 l2 i _ Hfl Hstored) as [Hrel1 Hrel2].
    assert (Hi : In i (Spec.ids (Crud.db s))) by (apply Hstored, in_app_iff; right; now left).
    pose proof (execute_table (Crud.UPDATE (Crud.faked_lastName t) i) (Crud.db s)
                  Hseq Hbelow Hids) as (Tseq & Tbelow & Tids).
    cbn [Crud.execute Crud.reply] in Tseq, Tbelow, Tids.
    destruct (exec_update_cases (Crud.faked_lastName t) i (Crud.db s))
      as (Es & Ei & El & Hcase).
    rewrite (step_update t s i Hp) in Hstep. cbv zeta in Hstep.
    destruct (Crud.fault t) as [[x|x]|].
    + injection Hstep as <- <-.
      constructor; crud_fields; rewrite ?Hupd; try assumption.
      intros j Hj. now apply Hrel2.
    + injection Hstep as <- <-.
      constructor; crud_fields; rewrite ?Hupd; try assumption.
      intros j Hj. rewrite Ei. now apply Hrel2.
    + destruct Hcase as [(x & Ef)|Ef]; rewrite Ef in Hstep.
      * injection Hstep as <- <-.
        constructor; crud_fields; rewrite ?Hupd; try assumption.
        intros j Hj. rewrite Ei. now apply Hrel2.
      * injection Hstep as <- <-. rewrite (one_row _ _ Hids Hi).
        constructor; crud_fields; rewrite ?Hupd, ?inflight_app;
          cbn [Spec.inflight flat_map Spec.holds]; fold (Spec.inflight l2);
          try assumption.
        -- intros j Hj. rewrite Ei. now apply Hstored.
        -- repeat (apply rates_emit; [cbn; intros; congruence|]). assumption.
  - (* SELECT *)
    cbn [Spec.holds] in Hfl, Hstored.
    destruct (sound_release l1 l2 i _ Hfl Hstored) as [Hrel1 Hrel2].
    assert (Hi : In i (Spec.ids (Crud.db s))) by (apply Hstored, in_app_iff; right; now left).
    rewrite (step_select t s i Hp) in Hstep. cbv zeta in Hstep.
    destruct (Crud.fault t) as [[x|x]|].
    + injection Hstep as <- <-.
      constructor; crud_fields; rewrite ?Hupd; try assumption.
      intros j Hj. now apply Hrel2.
    + injection Hstep as <- <-.
      constructor; crud_fields; rewrite ?Hupd; try assumption.
      intros j Hj. now apply Hrel2.
    + injection Hstep as <- <-. rewrite (one_row _ _ Hids Hi).
      constructor; crud_fields; rewrite ?Hupd, ?inflight_app;
        cbn [Spec.inflight flat_map Spec.holds]; fold (Spec.inflight l2);
        try assumption.
      repeat (apply rates_emit; [cbn; intros; congruence|]). assumption.
  - (* DELETE *)
    cbn [Spec.holds] in Hfl, Hstored.
    destruct (sound_release l1 l2 i _ Hfl Hstored) as [Hrel1 Hrel2].
    assert (Hi : In i (Spec.ids (Crud.db s))) by (apply Hstored, in_app_iff; right; now left).
    pose proof (execute_table (Crud.DELETE i) (Crud.db s) Hseq Hbelow Hids)
      as (Tseq & Tbelow & Tids).
    assert (Tkept : forall j, In j (Spec.inflight (l1 ++ Crud.Idle :: l2)) ->
                              In j (Spec.ids (snd (Crud.execute (Crud.DELETE i) (Crud.db s)))))
      by (intros j Hj; apply execute_ids; now apply Hrel2).
    cbn [Crud.execute Crud.reply] in Tseq, Tbelow, Tids, Tkept.
    rewrite (step_delete t s i Hp) in Hstep. cbv zeta in Hstep.
    destruct (Crud.fault t) as [[x|x]|].
    + injection Hstep as <- <-.
      constructor; crud_fields; rewrite ?Hupd; try assumption.
      intros j Hj. now apply Hrel2.
    + injection Hstep as <- <-.
      constructor; crud_fields; rewrite ?Hupd; assumption.
    + injection Hstep as <- <-. rewrite (one_row _ _ Hids Hi).
      constructor; crud_fields; rewrite ?Hupd; try assumption.
      repeat (apply rates_emit; [cbn; intros; congruence|]). assumption.
Qed.

Lemma run_sound (turns : list Crud.turn) :
  forall s errors s', Crud.run turns s = Some (errors, s') -> More.sound s -> More.sound s'.
Proof.
  induction turns as [|t turns IH]; intros s errors s' Hrun Hs; cbn in Hrun.
  - now injection Hrun as _ <-.
  - destruct (Crud.step t s) as [[e s1]|] eqn:Hstep; [|discriminate].
    destruct (Crud.run turns s1) as [[es s2]|] eqn:Hrest; [|discriminate].
    injection Hrun as _ <-.
    eapply IH; [eassumption|]. eapply step_sound; eassumption.
Qed.

(** A turn whose call is answered or refused keeps the two row counters in
    step with the table. *)
Lemma step_balanced (t : Crud.turn) (s s' : Crud.system) (e : option string) :
  Crud.step t s = Some (e, s') ->
  More.lost t = false -> 1 <= Crud.perf_test_id_seq (Crud.db s) ->
  More.balanced s -> More.balanced s'.
Proof.
  unfold More.balanced, More.lost. intros Hstep Hl Hseq Hbal.
  destruct (Crud.vus s !! Crud.who t) as [p|] eqn:Hp;
    [|unfold Crud.step in Hstep; rewrite Hp in Hstep; discriminate].
  destruct p as [|i|i|i].
  - rewrite (step_insert t s Hp) in Hstep. cbv zeta in Hstep.
    destruct (exec_insert_cases (Crud.firstName (Crud.faked t))
                (Crud.lastName (Crud.faked t)) (Crud.email_ (Crud.faked t)) (Crud.db s))
      as (_ & Hcase).
    destruct (Crud.fault t) as [[x|x]|]; [|discriminate|].
    + injection Hstep as <- <-. exact Hbal.
    + destruct Hcase as [[(x & Ef) Et]|[Ef Et]]; rewrite Ef in Hstep.
      * injection Hstep as <- <-. crud_fields. rewrite Et. exact Hbal.
      * cbn [Crud.truthy_id] in Hstep.
        destruct (Z.eqb_spec (Crud.perf_test_id_seq (Crud.db s)) 0) as [E|E]; [lia|].
        injection Hstep as <- <-. crud_fields.
        rewrite Et, !count_emit, length_app. cbn. lia.
  - rewrite (step_update t s i Hp) in Hstep. cbv zeta in Hstep.
    destruct (exec_update_cases (Crud.faked_lastName t) i (Crud.db s))
      as (_ & _ & El & Hcase).
    destruct (Crud.fault t) as [[x|x]|]; [|discriminate|].
    + injection Hstep as <- <-. exact Hbal.
    + destruct Hcase as [(x & Ef)|Ef]; rewrite Ef in Hstep; injection Hstep as <- <-;
        crud_fields; rewrite El, ?count_emit; cbn; lia.
  - rewrite (step_select t s i Hp) in Hstep. cbv zeta in Hstep.
    destruct (Crud.fault t) as [[x|x]|]; [|discriminate|]; injection Hstep as <- <-.
    + exact Hbal.
    + crud_fields. rewrite !count_emit. cbn. lia.
  - rewrite (step_delete t s i Hp) in Hstep. cbv zeta in Hstep.
    destruct (Crud.fault t) as [[x|x]|]; [|discriminate|]; injection Hstep as <- <-.
    + exact Hbal.
    + crud_fields. rewrite !count_emit. cbn.
      pose proof (filter_split_length (Crud.has_id i) (Crud.perf_test (Crud.db s))). lia.
Qed.

Lemma run_balanced (turns : list Crud.turn) :
  forall s errors s',
  Crud.run turns s = Some (errors, s') ->
  Forall (fun t => More.lost t = false) turns ->
  More.sound s -> More.balanced s -> More.balanced s'.
Proof.
  induction turns as [|t turns IH]; intros s errors s' Hrun Hl Hs Hb; cbn in Hrun.
  - now injection Hrun as _ <-.
  - destruct (Crud.step t s) as [[e s1]|] eqn:Hstep; [|discriminate].
    destruct (Crud.run turns s1) as [[es s2]|] eqn:Hrest; [|discriminate].
    injection Hrun as _ <-. inversion Hl as [|? ? Ht Hrest']; subst.
    eapply IH; [eassumption | assumption | eapply step_sound; eassumption |].
    eapply step_balanced; try eassumption. apply (More.seq_positive _ Hs).
Qed.

(** X15. In every run of the concurrent CRUD system in which no call fails
    after its statement was executed (a refused call and a statement that
    the database rejects are allowed), whatever invocations failed,
    [rows_inserted] exceeds [rows_deleted] by exactly the number of rows in
    the table: the rows that failed invocations left behind show in the
    difference of the two counters.  A call whose answer is lost breaks the
    account: an INSERT that was executed and then failed leaves a row that
    no counter shows. *)
Theorem X15_counter_gap_is_table_size :
  (forall (n : nat) (d : Crud.database) (turns : list Crud.turn)
          (errors : list string) (s' : Crud.system),
     Crud.run turns (Crud.start n d) = Some (errors, s') ->
     Forall (fun t => More.lost t = false) turns ->
     count Crud.rowsInserted (sink (Crud.k6 (Crud.script s'))) =
     count Crud.rowsDeleted (sink (Crud.k6 (Crud.script s')))
     + Z.of_nat (length (Crud.perf_test (Crud.db s')))) /\
  (forall (d : Crud.database) (t : Crud.turn) (e : string),
     Crud.who t = 0%nat -> Crud.fault t = Some (Crud.Lost e) ->
     CrudSolo.acceptable (Crud.faked t) (Crud.setup d) ->
     exists s',
       Crud.run [t] (Crud.start 1 d) = Some ([e], s') /\
       count Crud.rowsInserted (sink (Crud.k6 (Crud.script s'))) = 0 /\
       count Crud.rowsDeleted (sink (Crud.k6 (Crud.script s'))) = 0 /\
       length (Crud.perf_test (Crud.db s')) = 1%nat).
Proof.
  split.
  - intros n d turns errors s' Hrun Hl.
    apply (run_balanced turns _ _ _ Hrun Hl (sound_start n d)). reflexivity.
  - intros d t e Hw Hf (F1 & F2 & F3 & Hnew).
    cbn [Crud.run]. rewrite step_insert by (now rewrite Hw). cbv zeta. rewrite Hf.
    eexists. split; [reflexivity|]. crud_fields.
    unfold Crud.exec_insert. rewrite F1, F2, F3. cbn [andb negb].
    cbn [Crud.start Crud.db] . rewrite Hnew. cbn. repeat split.
Qed.

(** X16. In every run of the concurrent CRUD system no false observation is
    ever recorded on [insert_success], [update_success], [select_success],
    [delete_success] or the [crud_round_ok] check: the INSERT always returns a
    non-zero id and every UPDATE, SELECT and DELETE that reaches the table
    finds exactly the row of its invocation.  A failure shows as an exception
    only, never in a rate. *)
Theorem X16_rates_never_record_a_failure (n : nat) (d : Crud.database)
    (turns : list Crud.turn) (errors : list string) (s' : Crud.system) :
  Crud.run turns (Crud.start n d) = Some (errors, s') ->
  More.rates_all_true (sink (Crud.k6 (Crud.script s'))) /\
  (forall v i, Crud.vus s' !! v = Some (Crud.BeforeUpdate i)
               \/ Crud.vus s' !! v = Some (Crud.BeforeSelect i)
               \/ Crud.vus s' !! v = Some (Crud.BeforeDelete i) ->
     length (List.filter (Crud.has_id i) (Crud.perf_test (Crud.db s'))) = 1%nat).
Proof.
  intros Hrun.
  pose proof (run_sound _ _ _ _ Hrun (sound_start n d)) as H.
  split; [apply (More.rates_true _ H)|].
  intros v i Hv. apply one_row; [apply (More.ids_distinct _ H)|].
  apply (More.inflight_stored _ H).
  destruct Hv as [Hv|[Hv|Hv]]; destruct (pool_split _ _ _ Hv) as (l1 & l2 & -> & _);
    rewrite inflight_app; cbn; apply in_app_iff; right; now left.
Qed.

(** ** One invocation against the table *)

Lemma others_untouched (q : Z) (f : Crud.row -> Crud.row) (t : list Crud.row) :
  (forall r, In r t -> Crud.id r <> q) ->
  List.filter (Crud.has_id q) t = [] /\
  List.filter (fun r => negb (Crud.has_id q r)) t = t /\
  map (fun r => if Crud.has_id q r then f r else r) t = t.
Proof.
  induction t as [|r t IH]; intros H; [repeat split|].
  destruct IH as (I1 & I2 & I3); [intros r' Hr'; apply H; now right|].
  assert (E : Crud.has_id q r = false).
  { unfold Crud.has_id. apply Z.eqb_neq. apply H. now left. }
  cbn. rewrite E. cbn. now rewrite I1, I2, I3.
Qed.

(** X17. An invocation that runs alone, without fault, with names that fit
    their columns and an e-mail not yet in the table, completes without
    error and is a round trip on the table: the rows are exactly those from
    before, the sequence has advanced by one, the virtual user is idle again,
    and each of the four row counters has grown by one. *)
Theorem X17_invocation_round_trip (v : nat) (p : Crud.person) (last : string)
    (t1 t2 t3 t4 : Z) (s : Crud.system) :
  More.sound s ->
  Crud.vus s !! v = Some Crud.Idle ->
  CrudSolo.acceptable p (Crud.db s) ->
  Crud.fits 80 last = true ->
  exists s',
    Crud.run (CrudSolo.invocation v p last t1 t2 t3 t4) s = Some ([], s') /\
    Crud.perf_test (Crud.db s') = Crud.perf_test (Crud.db s) /\
    Crud.perf_test_id_seq (Crud.db s') = Crud.perf_test_id_seq (Crud.db s) + 1 /\
    Crud.vus s' = Crud.vus s /\
    (let k := sink (Crud.k6 (Crud.script s)) in
     let k' := sink (Crud.k6 (Crud.script s')) in
     count Crud.rowsInserted k' = count Crud.rowsInserted k + 1 /\
     count Crud.rowsUpdated k' = count Crud.rowsUpdated k + 1 /\
     count Crud.rowsSelected k' = count Crud.rowsSelected k + 1 /\
     count Crud.rowsDeleted k' = count Crud.rowsDeleted k + 1).
Proof.
  intros Hs Hv (F1 & F2 & F3 & Hnew) Flast.
  destruct s as [pool [k sent] d]. cbn [Crud.vus Crud.script Crud.db Crud.k6] in *.
  pose proof (More.seq_positive _ Hs) as Hseq. cbn in Hseq.
  assert (Hothers : forall r, In r (Crud.perf_test d) -> Crud.id r <> Crud.perf_test_id_seq d).
  { intros r Hr E. pose proof (More.ids_below _ Hs (Crud.id r)) as Hb. cbn in Hb.
    unfold Spec.ids in Hb. specialize (Hb (in_map Crud.id _ _ Hr)). lia. }
  assert (Hlt : (v < length pool)%nat) by (eapply lookup_lt_Some; exact Hv).
  set (q := Crud.perf_test_id_seq d) in *.
  assert (Hq : Crud.has_id q {| Crud.id := q; Crud.first_name := Crud.firstName p;
                               Crud.last_name := Crud.lastName p;
                               Crud.email := Crud.email_ p;
                               Crud.updated_at := Crud.clock d |} = true)
    by (unfold Crud.has_id; cbn; apply Z.eqb_refl).
  unfold CrudSolo.invocation. cbn [map Crud.run].
  (* INSERT *)
  rewrite step_insert by exact Hv. cbv zeta.
  cbn [Crud.fault Crud.faked Crud.took Crud.who Crud.vus Crud.db Crud.script Crud.k6
       Crud.sent].
  unfold Crud.exec_insert. rewrite F1, F2, F3, Hnew. cbn [andb negb fst snd]. fold q.
  cbn [Crud.truthy_id]. destruct (Z.eqb_spec q 0) as [E|_]; [lia|].
  (* UPDATE *)
  rewrite (step_update _ _ q)
    by (cbn [Crud.vus Crud.who]; now apply list_lookup_insert_eq).
  cbv zeta.
  cbn [Crud.fault Crud.faked_lastName Crud.took Crud.who Crud.vus Crud.db Crud.script
       Crud.k6 Crud.sent].
  unfold Crud.exec_update. rewrite Flast. cbn [negb fst snd Crud.perf_test Crud.clock
                                              Crud.perf_test_id_seq].
  rewrite List.filter_app, map_app.
  destruct (others_untouched q
              (fun r => {| Crud.id := Crud.id r; Crud.first_name := Crud.first_name r;
                           Crud.last_name := last; Crud.email := Crud.email r;
                           Crud.updated_at := Crud.clock d + 1 |})
              (Crud.perf_test d) Hothers) as (O1 & O2 & O3).
  rewrite O1, O3. cbn [List.filter map app]. rewrite Hq. cbn [length app].
  (* SELECT *)
  rewrite (step_select _ _ q)
    by (cbn [Crud.vus Crud.who]; apply list_lookup_insert_eq;
        rewrite length_insert; assumption).
  cbv zeta.
  cbn [Crud.fault Crud.took Crud.who Crud.vus Crud.db Crud.script Crud.k6 Crud.sent].
  unfold Crud.exec_select. cbn [fst snd Crud.perf_test Crud.clock Crud.perf_test_id_seq].
  rewrite List.filter_app, O1. cbn [List.filter app].
  unfold Crud.has_id at 1. cbn [Crud.id]. rewrite Z.eqb_refl. cbn [length].
  (* DELETE *)
  rewrite (step_delete _ _ q)
    by (cbn [Crud.vus Crud.who]; apply list_lookup_insert_eq;
        rewrite !length_insert; assumption).
  cbv zeta.
  cbn [Crud.fault Crud.took Crud.who Crud.vus Crud.db Crud.script Crud.k6 Crud.sent].
  unfold Crud.exec_delete. cbn [fst snd Crud.perf_test Crud.clock Crud.perf_test_id_seq].
  rewrite !List.filter_app, O1, O2. cbn [List.filter app].
  unfold Crud.has_id. cbn [Crud.id]. rewrite !Z.eqb_refl. cbn [length negb].
  eexists. split; [reflexivity|].
  cbn [Crud.vus Crud.script Crud.db Crud.k6 Crud.perf_test Crud.perf_test_id_seq].
  split; [now rewrite app_nil_r|]. split; [reflexivity|]. split.
  - rewrite !list_insert_insert_eq. now apply list_insert_id.
  - cbv zeta. rewrite !count_emit. cbn. repeat split; lia.
Qed.

(** ** Rows left behind *)

Lemma step_keeps_orphans (t : Crud.turn) (s s' : Crud.system) (e : option string) (i : Z) :
  Crud.step t s = Some (e, s') -> More.sound s ->
  In i (Spec.ids (Crud.db s)) -> ~ In i (Spec.inflight (Crud.vus s)) ->
  In i (Spec.ids (Crud.db s')) /\ ~ In i (Spec.inflight (Crud.vus s')).
Proof.
  intros Hstep Hs Hi Hni.
  pose proof (More.ids_below _ Hs i Hi) as Hlt.
  destruct (Crud.vus s !! Crud.who t) as [p|] eqn:Hp;
    [|unfold Crud.step in Hstep; rewrite Hp in Hstep; discriminate].
  destruct (pool_split _ _ _ Hp) as (l1 & l2 & Hpool & Hupd).
  rewrite Hpool, inflight_app in Hni. cbn [Spec.inflight flat_map] in Hni.
  fold (Spec.inflight l2) in Hni.
  assert (Hidle : ~ In i (Spec.inflight (l1 ++ Crud.Idle :: l2))).
  { rewrite inflight_app. cbn. intros H. apply Hni.
    apply in_app_iff. apply in_app_iff in H as [H|H]; [tauto|].
    right. apply in_app_iff. now right. }
  assert (Hkeep : forall p', Spec.holds p' = Spec.holds p ->
                             ~ In i (Spec.inflight (l1 ++ p' :: l2))).
  { intros p' E. rewrite inflight_app. cbn. rewrite E. exact Hni. }
  assert (Hexec : forall st, match st with
                             | Crud.DELETE j => Spec.holds p = [j]
                             | _ => True
                             end ->
                             In i (Spec.ids (snd (Crud.execute st (Crud.db s))))).
  { intros st Hst. apply execute_ids; [assumption|].
    destruct st; try exact I. intros ->. apply Hni. rewrite Hst.
    apply in_app_iff. right. now left. }
  destruct p as [|j|j|j].
  - pose proof (Hexec (Crud.INSERT (Crud.firstName (Crud.faked t))
                         (Crud.lastName (Crud.faked t)) (Crud.email_ (Crud.faked t))) I)
      as Hin.
    cbn [Crud.execute Crud.reply] in Hin.
    rewrite (step_insert t s Hp) in Hstep. cbv zeta in Hstep.
    destruct (exec_insert_cases (Crud.firstName (Crud.faked t))
                (Crud.lastName (Crud.faked t)) (Crud.email_ (Crud.faked t)) (Crud.db s))
      as (_ & Hcase).
    destruct (Crud.fault t) as [[x|x]|].
    + injection Hstep as <- <-. crud_fields. rewrite Hupd. now split.
    + injection Hstep as <- <-. crud_fields. rewrite Hupd. now split.
    + destruct Hcase as [[(x & Ef) _]|[Ef _]]; rewrite Ef in Hstep.
      * injection Hstep as <- <-. crud_fields. rewrite Hupd. now split.
      * cbn [Crud.truthy_id] in Hstep.
        destruct (Z.eqb_spec (Crud.perf_test_id_seq (Crud.db s)) 0) as [E|E];
          injection Hstep as <- <-; crud_fields; rewrite Hupd; split; try assumption.
        rewrite inflight_app. cbn. intros H. apply in_app_iff in H as [H|[H|H]].
        -- apply Hni, in_app_iff. now left.
        -- lia.
        -- apply Hni, in_app_iff. now right.
  - pose proof (Hexec (Crud.UPDATE (Crud.faked_lastName t) j) I) as Hin.
    cbn [Crud.execute Crud.reply] in Hin.
    rewrite (step_update t s j Hp) in Hstep. cbv zeta in Hstep.
    destruct (Crud.fault t) as [[x|x]|];
      [| |destruct (fst (Crud.exec_update _ _ _)) as [x|n]];
      injection Hstep as <- <-; crud_fields; rewrite Hupd; split; try assumption.
    now apply Hkeep.
  - pose proof (Hexec (Crud.SELECT j) I) as Hin.
    cbn [Crud.execute Crud.reply] in Hin.
    rewrite (step_select t s j Hp) in Hstep. cbv zeta in Hstep.
    destruct (Crud.fault t) as [[x|x]|];
      injection Hstep as <- <-; crud_fields; rewrite Hupd; split; try assumption.
    now apply Hkeep.
  - pose proof (Hexec (Crud.DELETE j) eq_refl) as Hin.
    cbn [Crud.execute Crud.reply] in Hin.
    rewrite (step_delete t s j Hp) in Hstep. cbv zeta in Hstep.
    destruct (Crud.fault t) as [[x|x]|];
      injection Hstep as <- <-; crud_fields; rewrite Hupd; split; assumption.
Qed.

(** X18. No invocation deletes a row it did not insert: a row that no
    virtual user is working on, such as one left behind by a failed
    invocation, stays in the table through every later turn of every
    virtual user. *)
Theorem X18_orphan_rows_stay (turns : list Crud.turn) :
  forall (s s' : Crud.system) (errors : list string) (i : Z),
  Crud.run turns s = Some (errors, s') ->
  More.sound s ->
  In i (Spec.ids (Crud.db s)) -> ~ In i (Spec.inflight (Crud.vus s)) ->
  In i (Spec.ids (Crud.db s')) /\ ~ In i (Spec.inflight (Crud.vus s')).
Proof.
  induction turns as [|t turns IH]; intros s s' errors i Hrun Hs Hi Hni; cbn in Hrun.
  - injection Hrun as _ <-. now split.
  - destruct (Crud.step t s) as [[e s1]|] eqn:Hstep; [|discriminate].
    destruct (Crud.run turns s1) as [[es s2]|] eqn:Hrest; [|discriminate].
    injection Hrun as _ <-.
    destruct (step_keeps_orphans t s s1 e i Hstep Hs Hi Hni) as [Hi1 Hni1].
    eapply IH; eauto. eapply step_sound; eassumption.
Qed.

(** ** The system and the script *)

(** A turn in terms of what its call delivers. *)
Lemma turn_insert (t : Crud.turn) (s : Crud.system) :
  Crud.vus s !! Crud.who t = Some Crud.Idle ->
  let p := Crud.faked t in
  let st := Crud.INSERT (Crud.firstName p) (Crud.lastName p) (Crud.email_ p) in
  let k := Crud.k6 (Crud.script s) in
  let sent := Crud.sent (Crud.script s) ++ [st] in
  let got := Crud.deliver (Crud.fault t) st (Crud.db s) in
  Crud.step t s =
  match fst got with
  | inl e =>
      Some (Some e, {| Crud.vus := <[Crud.who t := Crud.Idle]> (Crud.vus s);
                       Crud.script := {| Crud.k6 := print Error e k; Crud.sent := sent |};
                       Crud.db := snd got |})
  | inr rows =>
      match Crud.truthy_id rows with
      | Some i =>
          Some (None,
                {| Crud.vus := <[Crud.who t := Crud.BeforeUpdate i]> (Crud.vus s);
                   Crud.script :=
                     {| Crud.k6 := emit Crud.insertOk 1 ""
                                     (emit Crud.rowsInserted 1 ""
                                        (emit Crud.insertTrend (Crud.took t) "" k));
                        Crud.sent := sent |};
                   Crud.db := snd got |})
      | None =>
          Some (None,
                {| Crud.vus := <[Crud.who t := Crud.Idle]> (Crud.vus s);
                   Crud.script :=
                     {| Crud.k6 := print Error "Failed to insert record"
                                     (emit Crud.insertOk 0 ""
                                        (emit Crud.insertTrend (Crud.took t) "" k));
                        Crud.sent := sent |};
                   Crud.db := snd got |})
      end
  end.
Proof.
  intros Hp. rewrite (step_insert t s Hp). cbv zeta. unfold Crud.deliver.
  destruct (Crud.fault t) as [[e|e]|]; reflexivity.
Qed.

Lemma turn_update (t : Crud.turn) (s : Crud.system) (i : Z) :
  Crud.vus s !! Crud.who t = Some (Crud.BeforeUpdate i) ->
  let st := Crud.UPDATE (Crud.faked_lastName t) i in
  let k := Crud.k6 (Crud.script s) in
  let sent := Crud.sent (Crud.script s) ++ [st] in
  let got := Crud.deliver (Crud.fault t) st (Crud.db s) in
  Crud.step t s =
  match fst got with
  | inl e =>
      Some (Some e, {| Crud.vus := <[Crud.who t := Crud.Idle]> (Crud.vus s);
                       Crud.script := {| Crud.k6 := print Error e k; Crud.sent := sent |};
                       Crud.db := snd got |})
  | inr n =>
      Some (None,
            {| Crud.vus := <[Crud.who t := Crud.BeforeSelect i]> (Crud.vus s);
               Crud.script :=
                 {| Crud.k6 := emit Crud.updateOk (of_bool (Nat.eqb n 1)) ""
                                 (emit Crud.rowsUpdated (Z.of_nat n) ""
                                    (emit Crud.updateTrend (Crud.took t) "" k));
                    Crud.sent := sent |};
               Crud.db := snd got |})
  end.
Proof.
  intros Hp. rewrite (step_update t s i Hp). cbv zeta. unfold Crud.deliver.
  destruct (Crud.fault t) as [[e|e]|]; reflexivity.
Qed.

Lemma turn_select (t : Crud.turn) (s : Crud.system) (i : Z) :
  Crud.vus s !! Crud.who t = Some (Crud.BeforeSelect i) ->
  let st := Crud.SELECT i in
  let k := Crud.k6 (Crud.script s) in
  let sent := Crud.sent (Crud.script s) ++ [st] in
  let got := Crud.deliver (Crud.fault t) st (Crud.db s) in
  Crud.step t s =
  match fst got with
  | inl e =>
      Some (Some e, {| Crud.vus := <[Crud.who t := Crud.Idle]> (Crud.vus s);
                       Crud.script := {| Crud.k6 := print Error e k; Crud.sent := sent |};
                       Crud.db := snd got |})
  | inr rows =>
      Some (None,
            {| Crud.vus := <[Crud.who t := Crud.BeforeDelete i]> (Crud.vus s);
               Crud.script :=
                 {| Crud.k6 := emit Crud.selectOk (of_bool (Nat.eqb (length rows) 1)) ""
                                 (emit Crud.rowsSelected (Z.of_nat (length rows)) ""
                                    (emit Crud.selectTrend (Crud.took t) "" k));
                    Crud.sent := sent |};
               Crud.db := snd got |})
  end.
Proof.
  intros Hp. rewrite (step_select t s i Hp). cbv zeta. unfold Crud.deliver.
  destruct (Crud.fault t) as [[e|e]|]; reflexivity.
Qed.

Lemma turn_delete (t : Crud.turn) (s : Crud.system) (i : Z) :
  Crud.vus s !! Crud.who t = Some (Crud.BeforeDelete i) ->
  let st := Crud.DELETE i in
  let k := Crud.k6 (Crud.script s) in
  let sent := Crud.sent (Crud.script s) ++ [st] in
  let got := Crud.deliver (Crud.fault t) st (Crud.db s) in
  Crud.step t s =
  match fst got with
  | inl e =>
      Some (Some e, {| Crud.vus := <[Crud.who t := Crud.Idle]> (Crud.vus s);
                       Crud.script := {| Crud.k6 := print Error e k; Crud.sent := sent |};
                       Crud.db := snd got |})
  | inr n =>
      Some (None,
            {| Crud.vus := <[Crud.who t := Crud.Idle]> (Crud.vus s);
               Crud.script :=
                 {| Crud.k6 := emit checks (of_bool (Nat.eqb n 1)) "crud_round_ok"
                                 (emit Crud.deleteOk (of_bool (Nat.eqb n 1)) ""
                                    (emit Crud.rowsDeleted (Z.of_nat n) ""
                                       (emit Crud.deleteTrend (Crud.took t) "" k)));
                    Crud.sent := sent |};
               Crud.db := snd got |})
  end.
Proof.
  intros Hp. rewrite (step_delete t s i Hp). cbv zeta. unfold Crud.deliver.
  destruct (Crud.fault t) as [[e|e]|]; reflexivity.
Qed.

(** Reduce the turn just taken, whose call delivered [D]. *)
Ltac solo_turn D W :=
  cbv zeta; cbn [Crud.db Crud.script Crud.k6 Crud.sent Crud.vus];
  rewrite D, W; cbn [fst snd].

(** Unfold [default] on given answers. *)
Ltac default_run :=
  unfold Crud.default, Crud.iteration, Crud.insert_block, Crud.update_block,
    Crud.select_block, Crud.delete_block, Crud.answered, Crud.call;
  js_run; cbn.

(** X19. An invocation that runs alone in the system is [default] on what
    its calls deliver.  The virtual user takes as many turns as the invocation
    sends statements, one to four; they yield the error that [default] throws
    on the answers of the database and the faults of the turns, none when it
    returns; they leave the script world as [default] leaves it, followed by
    the log line of the runtime when it throws, and the virtual user idle
    again. *)
Theorem X19_solo_invocation_is_default (t1 t2 t3 t4 : Crud.turn) (s : Crud.system) (v : nat) :
  Crud.vus s !! v = Some Crud.Idle ->
  Crud.who t1 = v -> Crud.who t2 = v -> Crud.who t3 = v -> Crud.who t4 = v ->
  let r := Crud.default (CrudSolo.answers t1 t2 t3 t4 (Crud.db s)) (Crud.script s) in
  exists (taken : nat) (s' : Crud.system),
    (1 <= taken <= 4)%nat /\
    Crud.run (firstn taken [t1; t2; t3; t4]) s =
      Some (match fst r with
            | JS.Throw e => [e]
            | _ => []
            end, s') /\
    Crud.script s' = match fst r with
                     | JS.Throw e => with_host (print Error e (host (snd r))) (snd r)
                     | _ => snd r
                     end /\
    Crud.vus s' = Crud.vus s /\
    length (Crud.sent (Crud.script s')) = (length (Crud.sent (Crud.script s)) + taken)%nat.
Proof.
  intros Hv W1 W2 W3 W4 r. subst r.
  destruct s as [pool [k sent] d]. cbn [Crud.vus Crud.script Crud.db Crud.k6 Crud.sent] in *.
  assert (Hlt : (v < length pool)%nat) by (eapply lookup_lt_Some; exact Hv).
  assert (Hid : forall p, <[v := Crud.Idle]> (<[v := p]> pool) = pool)
    by (intros p; rewrite list_insert_insert_eq; now apply list_insert_id).
  assert (Hid0 : <[v := Crud.Idle]> pool = pool) by (now apply list_insert_id).
  unfold CrudSolo.answers. cbv zeta.
  destruct (Crud.deliver (Crud.fault t1) _ d) as [[e1|rows] d1] eqn:D1; cbn [fst snd].
  { exists 1%nat. eexists. split; [lia|]. cbn [firstn Crud.run]. rewrite turn_insert by (now rewrite W1).
    solo_turn D1 W1. default_run. split; [reflexivity|].
    cbn. rewrite Hid0, length_app. cbn. repeat split; reflexivity. }
  destruct (Crud.truthy_id rows) as [i|] eqn:T; cbn [default]; unfold id.
  2:{ exists 1%nat. eexists. split; [lia|]. cbn [firstn Crud.run]. rewrite turn_insert by (now rewrite W1).
      solo_turn D1 W1. rewrite T. default_run. rewrite T. cbn.
      split; [reflexivity|].
      cbn. rewrite Hid0, length_app. cbn. repeat split; reflexivity. }
  destruct (Crud.deliver (Crud.fault t2) _ d1) as [[e2|n2] d2] eqn:D2; cbn [fst snd].
  { exists 2%nat. eexists. split; [lia|]. cbn [firstn Crud.run]. rewrite turn_insert by (now rewrite W1).
    solo_turn D1 W1. rewrite T.
    rewrite (turn_update _ _ i) by (cbn [Crud.vus]; rewrite W2; now apply list_lookup_insert_eq).
    solo_turn D2 W2. default_run. rewrite T. cbn. split; [reflexivity|].
    cbn. rewrite Hid, !length_app. cbn. repeat split; try reflexivity. lia. }
  destruct (Crud.deliver (Crud.fault t3) _ d2) as [[e3|r3] d3] eqn:D3; cbn [fst snd].
  { exists 3%nat. eexists. split; [lia|]. cbn [firstn Crud.run]. rewrite turn_insert by (now rewrite W1).
    solo_turn D1 W1. rewrite T.
    rewrite (turn_update _ _ i) by (cbn [Crud.vus]; rewrite W2; now apply list_lookup_insert_eq).
    solo_turn D2 W2.
    rewrite (turn_select _ _ i)
      by (cbn [Crud.vus]; rewrite W3; apply list_lookup_insert_eq;
          now rewrite length_insert).
    solo_turn D3 W3. default_run. rewrite T. cbn. split; [reflexivity|].
    cbn. rewrite !list_insert_insert_eq, Hid0, !length_app. cbn.
    repeat split; try reflexivity. lia. }
  destruct (Crud.deliver (Crud.fault t4) _ d3) as [[e4|n4] d4] eqn:D4; cbn [fst snd].
  all: exists 4%nat; eexists; (split; [lia|]); cbn [firstn Crud.run].
  all: rewrite turn_insert by (now rewrite W1); solo_turn D1 W1; rewrite T.
  all: rewrite (turn_update _ _ i)
         by (cbn [Crud.vus]; rewrite W2; now apply list_lookup_insert_eq);
       solo_turn D2 W2.
  all: rewrite (turn_select _ _ i)
         by (cbn [Crud.vus]; rewrite W3; apply list_lookup_insert_eq;
             now rewrite length_insert);
       solo_turn D3 W3.
  all: rewrite (turn_delete _ _ i)
         by (cbn [Crud.vus]; rewrite W4; apply list_lookup_insert_eq;
             now rewrite !length_insert);
       solo_turn D4 W4.
  all: default_run; rewrite T; cbn; (split; [reflexivity|]).
  all: cbn; rewrite !list_insert_insert_eq, Hid0, !length_app; cbn.
  all: repeat split; try reflexivity; lia.
Qed.

(** ** Runs with failed invocations *)

(** A run of two virtual users in which the UPDATE of the first one is
    refused: its row stays in the table. *)
Lemma X15_witness :
  let ada := {| Crud.firstName := "Ada"; Crud.lastName := "Lovelace";
                Crud.email_ := "ada@example.org" |} in
  let bob := {| Crud.firstName := "Bob"; Crud.lastName := "Kahn";
                Crud.email_ := "bob@example.org" |} in
  let turn v p f := {| Crud.who := v; Crud.faked := p; Crud.faked_lastName := "Byron";
                       Crud.took := 3; Crud.fault := f |} in
  let turns := [ turn 0%nat ada None; turn 1%nat bob None;
                 turn 0%nat ada (Some (Crud.Refused "connection refused"));
                 turn 1%nat bob None; turn 1%nat bob None; turn 1%nat bob None ] in
  let d := {| Crud.perf_test := []; Crud.perf_test_id_seq := 1; Crud.clock := 0 |} in
  exists s',
    Crud.run turns (Crud.start 2 d) = Some (["connection refused"], s') /\
    count Crud.rowsInserted (sink (Crud.k6 (Crud.script s'))) = 2 /\
    count Crud.rowsDeleted (sink (Crud.k6 (Crud.script s'))) = 1 /\
    length (Crud.perf_test (Crud.db s')) = 1%nat.
Proof.
  intros ada bob turn turns d.
  set (final := match Crud.run turns (Crud.start 2 d) with
                | Some (_, s) => s
                | None => Crud.start 2 d
                end).
  assert (Hrun : Crud.run turns (Crud.start 2 d) = Some (["connection refused"], final))
    by (vm_compute; reflexivity).
  assert (Hl : Forall (fun t => More.lost t = false) turns) by (repeat constructor).
  pose proof (proj1 X15_counter_gap_is_table_size 2%nat d turns _ final Hrun Hl) as Hgap.
  assert (Hd : count Crud.rowsDeleted (sink (Crud.k6 (Crud.script final))) = 1)
    by (vm_compute; reflexivity).
  assert (Hn : length (Crud.perf_test (Crud.db final)) = 1%nat)
    by (vm_compute; reflexivity).
  exists final. split; [exact Hrun|]. split; [|split; [exact Hd | exact Hn]].
  rewrite Hgap, Hd, Hn. reflexivity.
Defined.

(** One virtual user: an UPDATE whose answer is lost, a second INSERT of
    the same e-mail refused by the table, then a complete invocation. *)
Lemma X16_witness :
  let ada := {| Crud.firstName := "Ada"; Crud.lastName := "Lovelace";
                Crud.email_ := "ada@example.org" |} in
  let bob := {| Crud.firstName := "Bob"; Crud.lastName := "Kahn";
                Crud.email_ := "bob@example.org" |} in
  let turn p f := {| Crud.who := 0%nat; Crud.faked := p; Crud.faked_lastName := "Byron";
                     Crud.took := 3; Crud.fault := f |} in
  let turns := [ turn ada None; turn ada (Some (Crud.Lost "connection reset"));
                 turn ada None;
                 turn bob None; turn bob None; turn bob None; turn bob None ] in
  let d := {| Crud.perf_test := []; Crud.perf_test_id_seq := 1; Crud.clock := 0 |} in
  exists s',
    Crud.run turns (Crud.start 1 d) =
      Some (["connection reset"; "duplicate key value violates unique constraint"], s') /\
    More.rates_all_true (sink (Crud.k6 (Crud.script s'))).
Proof.
  intros ada bob turn turns d.
  set (final := match Crud.run turns (Crud.start 1 d) with
                | Some (_, s) => s
                | None => Crud.start 1 d
                end).
  assert (Hrun : Crud.run turns (Crud.start 1 d) =
                 Some (["connection reset";
                        "duplicate key value violates unique constraint"], final))
    by (vm_compute; reflexivity).
  exists final. split; [exact Hrun|].
  exact (proj1 (X16_rates_never_record_a_failure 1 d turns _ final Hrun)).
Defined.

(** The first invocation after [setup]: it gets id 1 and leaves the table
    empty. *)
Lemma X17_witness :
  let ada := {| Crud.firstName := "Ada"; Crud.lastName := "Lovelace";
                Crud.email_ := "ada@example.org" |} in
  let d := {| Crud.perf_test := []; Crud.perf_test_id_seq := 7; Crud.clock := 0 |} in
  exists s',
    Crud.run (CrudSolo.invocation 0 ada "Byron" 3 4 5 6) (Crud.start 1 d) = Some ([], s') /\
    Crud.perf_test (Crud.db s') = [] /\
    Crud.perf_test_id_seq (Crud.db s') = 2.
Proof.
  intros ada d.
  destruct (X17_invocation_round_trip 0 ada "Byron" 3 4 5 6 (Crud.start 1 d)
              (sound_start 1 d) eq_refl
              (conj eq_refl (conj eq_refl (conj eq_refl eq_refl))) eq_refl)
    as (s' & Hrun & Ht & Hq & _).
  exists s'. split; [exact Hrun|]. split; [exact Ht | exact Hq].
Defined.

(** The row that a SELECT with a lost answer left behind outlives a
    complete invocation of the same virtual user. *)
Lemma X18_witness :
  let ada := {| Crud.firstName := "Ada"; Crud.lastName := "Lovelace";
                Crud.email_ := "ada@example.org" |} in
  let bob := {| Crud.firstName := "Bob"; Crud.lastName := "Kahn";
                Crud.email_ := "bob@example.org" |} in
  let turn p f := {| Crud.who := 0%nat; Crud.faked := p; Crud.faked_lastName := "Byron";
                     Crud.took := 3; Crud.fault := f |} in
  let failing := [ turn ada None; turn ada None;
                   turn ada (Some (Crud.Lost "connection reset")) ] in
  let d := {| Crud.perf_test := []; Crud.perf_test_id_seq := 1; Crud.clock := 0 |} in
  exists s1 s2,
    Crud.run failing (Crud.start 1 d) = Some (["connection reset"], s1) /\
    Crud.run (CrudSolo.invocation 0 bob "Byron" 3 3 3 3) s1 = Some ([], s2) /\
    In 1 (Spec.ids (Crud.db s2)).
Proof.
  intros ada bob turn failing d.
  set (s1 := match Crud.run failing (Crud.start 1 d) with
             | Some (_, s) => s
             | None => Crud.start 1 d
             end).
  set (s2 := match Crud.run (CrudSolo.invocation 0 bob "Byron" 3 3 3 3) s1 with
             | Some (_, s) => s
             | None => s1
             end).
  assert (H1 : Crud.run failing (Crud.start 1 d) = Some (["connection reset"], s1))
    by (vm_compute; reflexivity).
  assert (H2 : Crud.run (CrudSolo.invocation 0 bob "Byron" 3 3 3 3) s1 = Some ([], s2))
    by (vm_compute; reflexivity).
  exists s1, s2. split; [exact H1|]. split; [exact H2|].
  apply (X18_orphan_rows_stay _ s1 s2 [] 1 H2).
  - exact (run_sound _ _ _ _ H1 (sound_start 1 d)).
  - vm_compute. now left.
  - vm_compute. intros [].
Defined.

(** The answer of the UPDATE is lost: two turns, the error of the transport,
    and the statements that [default] sends up to the failure. *)
Lemma X19_witness :
  let ada := {| Crud.firstName := "Ada"; Crud.lastName := "Lovelace";
                Crud.email_ := "ada@example.org" |} in
  let turn f := {| Crud.who := 0%nat; Crud.faked := ada; Crud.faked_lastName := "Byron";
                   Crud.took := 3; Crud.fault := f |} in
  let t1 := turn None in
  let t2 := turn (Some (Crud.Lost "connection reset")) in
  let d := {| Crud.perf_test := []; Crud.perf_test_id_seq := 1; Crud.clock := 0 |} in
  let r := Crud.default (CrudSolo.answers t1 t2 t1 t1 (Crud.db (Crud.start 1 d)))
             Crud.fresh in
  fst r = JS.Throw "connection reset" /\
  Crud.sent (snd r) = [Crud.INSERT "Ada" "Lovelace" "ada@example.org"; Crud.UPDATE "Byron" 1] /\
  exists taken s',
    Crud.run (firstn taken [t1; t2; t1; t1]) (Crud.start 1 d)
      = Some (["connection reset"], s') /\
    length (Crud.sent (Crud.script s')) = taken.
Proof.
  intros ada turn t1 t2 d r.
  split; [reflexivity|]. split; [reflexivity|].
  destruct (X19_solo_invocation_is_default t1 t2 t1 t1 (Crud.start 1 d) 0%nat
              eq_refl eq_refl eq_refl eq_refl eq_refl)
    as (taken & s' & _ & Hrun & _ & _ & Hlen).
  exists taken, s'. split; [exact Hrun | exact Hlen].
Defined.
